(** * libiccom: channel validation, netlink-style framing and IccomSocket

    A shallow embedding of the C/C++ sources of libiccom:

    - [src/utils.c]      : [__iccom_channel_verify], [__iccom_ch_area_name];
    - [include/iccom.h]  : [iccom_channel_verify], the size helpers and the
                           [IccomSocket] class;
    - the network-sockets implementation of the C API
      ([iccom_send_data_nocopy], [iccom_receive_data_nocopy], ...).

    Conventions of the embedding.

    - C integers are [Z] with the wrap-around written out.  The data model
      is LP64 Linux (the x86 simulation target of the network build):
      [int]/[unsigned int]/[__u32] are 32 bits, [size_t]/[ssize_t] 64 bits.
    - A [char] buffer is a [list byte]; multi-byte header fields are stored
      little-endian, as on the targets of the library.
    - A system call is modelled by its outcome, given as an argument, and by
      the call it issues, returned in a trace. *)

From Stdlib Require Import ZArith List Bool Lia.
From Stdlib Require Import Strings.Byte.
Import ListNotations.

Local Open Scope Z_scope.

(** ** C integer types *)

Module C.

Definition uint_modulus : Z := 2 ^ 32.
Definition size_modulus : Z := 2 ^ 64.

(** Conversion to [unsigned int] / [__u32]. *)
Definition to_uint (z : Z) : Z := z mod uint_modulus.

(** Conversion to [size_t]. *)
Definition to_size (z : Z) : Z := z mod size_modulus.

(** Conversion to [int] (two's complement, as gcc and clang do). *)
Definition to_int (z : Z) : Z :=
  let u := z mod uint_modulus in
  if u <? 2 ^ 31 then u else u - uint_modulus.

Definition is_size (z : Z) : Prop := 0 <= z < size_modulus.
Definition is_uint (z : Z) : Prop := 0 <= z < uint_modulus.

End C.

(** ** errno values (Linux, asm-generic) *)

Module Errno.
Definition E2BIG  : Z := 7.
Definition EBADF  : Z := 9.
Definition EAGAIN : Z := 11.
Definition ENOMEM : Z := 12.
Definition EFAULT : Z := 14.
Definition EINVAL : Z := 22.
Definition ENFILE : Z := 23.
Definition EPIPE  : Z := 32.
Definition EBADE  : Z := 52.
Definition EBADFD : Z := 77.
End Errno.

(** ** Build time configuration (iccom.h, utils.h) *)

Definition ICCOM_SOCKET_MAX_MESSAGE_SIZE_BYTES : Z := 4096.
Definition ICCOM_MIN_CHANNEL : Z := 0.
Definition ICCOM_MAX_CHANNEL : Z := 0x7FFF.

Definition ICCOM_CHANNEL_AREA_PRIME : Z := 1.
Definition ICCOM_CHANNEL_AREA_LOOPBACK : Z := 2.
Definition ICCOM_CHANNEL_AREA_ANY : Z := 3.

(** ** The netlink message macros

    Modelled from the spec: the NLMSG_* macros and [struct nlmsghdr] come
    from <linux/netlink.h>, a system header that is not among the sources.
    The spec (section 6) fixes the historical netlink values: 4-byte
    alignment and a header with an embedded 32-bit length field.  The header
    is the 16-byte [struct nlmsghdr] of the Linux UAPI, whose first field is
    [__u32 nlmsg_len], and the macros are

      NLMSG_ALIGNTO    4U
      NLMSG_ALIGN(len) (((len) + NLMSG_ALIGNTO - 1) & ~(NLMSG_ALIGNTO - 1))
      NLMSG_HDRLEN     ((int) NLMSG_ALIGN(sizeof(struct nlmsghdr)))
      NLMSG_LENGTH(len) ((len) + NLMSG_HDRLEN)
      NLMSG_SPACE(len) NLMSG_ALIGN(NLMSG_LENGTH(len))
      NLMSG_PAYLOAD(nlh,len) ((nlh)->nlmsg_len - NLMSG_SPACE((len)))

    The macros are used at [size_t] arguments in the sources; the mask
    [~(NLMSG_ALIGNTO - 1)] is the [unsigned int] 0xFFFFFFFC, which the usual
    arithmetic conversions zero-extend to 64 bits. *)

Module Netlink.

Definition sizeof_nlmsghdr : Z := 16.
Definition NLMSG_ALIGNTO : Z := 4.

(** [~(NLMSG_ALIGNTO - 1)] as an [unsigned int]. *)
Definition align_mask : Z := C.uint_modulus - NLMSG_ALIGNTO.

(** [NLMSG_ALIGN] at a [size_t] argument. *)
Definition NLMSG_ALIGN (len : Z) : Z :=
  Z.land (C.to_size (len + NLMSG_ALIGNTO - 1)) align_mask.

Definition NLMSG_HDRLEN : Z := Eval cbv in C.to_int (NLMSG_ALIGN sizeof_nlmsghdr).

(** [NLMSG_LENGTH] at a [size_t] argument. *)
Definition NLMSG_LENGTH (len : Z) : Z := C.to_size (len + NLMSG_HDRLEN).

(** [NLMSG_SPACE] at a [size_t] argument. *)
Definition NLMSG_SPACE (len : Z) : Z := NLMSG_ALIGN (NLMSG_LENGTH len).

(** [NLMSG_PAYLOAD(nlh, 0)]: a subtraction of two [unsigned int]s. *)
Definition NLMSG_PAYLOAD0 (nlmsg_len : Z) : Z :=
  C.to_uint (nlmsg_len - NLMSG_SPACE 0).

End Netlink.

Import Netlink.

(** ** Size helpers of iccom.h *)

(** [iccom_get_data_payload_offset]: [(size_t)(NLMSG_LENGTH(0))]. *)
Definition iccom_get_data_payload_offset : Z := NLMSG_LENGTH 0.

(** [iccom_get_required_buffer_size]: [NLMSG_SPACE(data_size_bytes)]. *)
Definition iccom_get_required_buffer_size (data_size_bytes : Z) : Z :=
  NLMSG_SPACE data_size_bytes.

(** [iccom_get_max_payload_size]. *)
Definition iccom_get_max_payload_size : Z := ICCOM_SOCKET_MAX_MESSAGE_SIZE_BYTES.

(** ** Channel verification *)

(** [iccom_channel_verify] of iccom.h; [channel] is an [int]. *)
Definition iccom_channel_verify (channel : Z) : Z :=
  let range_size := ICCOM_MAX_CHANNEL - ICCOM_MIN_CHANNEL + 1 in
  if (channel <? ICCOM_MIN_CHANNEL) || (channel >? ICCOM_MAX_CHANNEL + range_size)
  then - Errno.EINVAL else 0.

(** [__iccom_channel_verify] of utils.c.  [channel] is an [unsigned int],
    [area] an [int]; [comment] is a possibly NULL string ([None] is NULL).
    The comment only selects what is logged, the log is not modelled.  The
    comparisons are the ones of the source: the two bounds of each range
    are joined by [||]. *)
Definition __iccom_channel_verify (channel : Z) (area : Z)
    (comment : option (list byte)) : Z :=
  if ((channel >=? ICCOM_MIN_CHANNEL) || (channel <=? ICCOM_MAX_CHANNEL))
     && ((area =? ICCOM_CHANNEL_AREA_PRIME) || (area =? ICCOM_CHANNEL_AREA_ANY))
  then 0
  else
    let range_size := ICCOM_MAX_CHANNEL - ICCOM_MIN_CHANNEL + 1 in
    if ((channel >=? ICCOM_MIN_CHANNEL + range_size)
        || (channel <=? ICCOM_MAX_CHANNEL + range_size))
       && ((area =? ICCOM_CHANNEL_AREA_LOOPBACK) || (area =? ICCOM_CHANNEL_AREA_ANY))
    then 0
    else
      match comment with
      | None => - Errno.EINVAL
      | Some _ => - Errno.EINVAL
      end.

(** The ranges the areas stand for (iccom.h, comment of
    [iccom_channel_verify]). *)
Definition in_primary_range (c : Z) : Prop :=
  ICCOM_MIN_CHANNEL <= c <= ICCOM_MAX_CHANNEL.

Definition in_loopback_range (c : Z) : Prop :=
  let range_size := ICCOM_MAX_CHANNEL - ICCOM_MIN_CHANNEL + 1 in
  ICCOM_MIN_CHANNEL + range_size <= c <= ICCOM_MAX_CHANNEL + range_size.

(** ** Bytes, vectors and the message header *)

Definition byte_of_Z (z : Z) : byte :=
  match Byte.of_N (Z.to_N (z mod 256)) with
  | Some b => b
  | None => x00
  end.

Definition Z_of_byte (b : byte) : Z := Z.of_N (Byte.to_N b).

(** A [__u32] in memory, least significant byte first. *)
Definition u32_to_bytes (v : Z) : list byte :=
  [ byte_of_Z v; byte_of_Z (Z.shiftr v 8);
    byte_of_Z (Z.shiftr v 16); byte_of_Z (Z.shiftr v 24) ].

Definition u32_of_bytes (l : list byte) : Z :=
  Z_of_byte (nth 0 l x00)
  + Z.shiftl (Z_of_byte (nth 1 l x00)) 8
  + Z.shiftl (Z_of_byte (nth 2 l x00)) 16
  + Z.shiftl (Z_of_byte (nth 3 l x00)) 24.

(** The 16 bytes of a [struct nlmsghdr] after
    [memset(nl_msg, 0, sizeof *nl_msg); nl_msg->nlmsg_len = v;]. *)
Definition nlmsghdr_bytes (v : Z) : list byte :=
  u32_to_bytes (C.to_uint v) ++ repeat x00 12.

(** [((struct nlmsghdr * )buf)->nlmsg_len]. *)
Definition nlmsg_len (buf : list byte) : Z := u32_of_bytes buf.

(** [std::vector<char>]: [size], [resize] (new elements are zero) and
    [push_back]. *)
Definition vec_size (v : list byte) : Z := Z.of_nat (length v).

Definition vec_resize (n : Z) (v : list byte) : list byte :=
  firstn (Z.to_nat n) v ++ repeat x00 (Z.to_nat n - length v).

Definition vec_push_back (ch : byte) (v : list byte) : list byte := v ++ [ch].

(** ** System calls *)

(** The outcome of [write]: [-1] with an [errno], or the number of bytes
    taken.  The outcome of [read]: [-1] with an [errno], or the bytes that
    arrived (none when the peer closed the connection). *)
Inductive write_outcome : Type :=
| WriteFailed (errno : Z)
| WriteDone (n : Z).

Inductive read_outcome : Type :=
| ReadFailed (errno : Z)
| ReadDone (data : list byte).

Inductive syscall : Type :=
| SysWrite (fd : Z) (data : list byte)
| SysRead (fd : Z) (count : Z).

(** ** The C API, network sockets implementation *)

Record send_result : Type := mk_send_result {
  sr_ret : Z;                       (* return value *)
  sr_buf : option (list byte);      (* the memory behind [buf] afterwards *)
  sr_trace : list syscall           (* system calls issued *)
}.

(** [iccom_send_data_nocopy].  [buf] is [None] for a NULL pointer.  The
    header is written into the caller's buffer before the [write]. *)
Definition iccom_send_data_nocopy (wr : write_outcome) (sock_fd : Z)
    (buf : option (list byte))
    (buf_size_bytes data_offset data_size_bytes : Z) : send_result :=
  if negb (buf_size_bytes =? NLMSG_SPACE data_size_bytes) then
    mk_send_result (- Errno.EINVAL) buf []
  else if negb (data_offset =? NLMSG_LENGTH 0) then
    mk_send_result (- Errno.EINVAL) buf []
  else if data_size_bytes >? ICCOM_SOCKET_MAX_MESSAGE_SIZE_BYTES then
    mk_send_result (- Errno.E2BIG) buf []
  else if data_size_bytes =? 0 then
    mk_send_result (- Errno.EINVAL) buf []
  else
    match buf with
    | None => mk_send_result (- Errno.EINVAL) None []
    | Some b =>
        let b' := nlmsghdr_bytes data_size_bytes
                  ++ skipn (Z.to_nat sizeof_nlmsghdr) b in
        let call := SysWrite sock_fd (firstn (Z.to_nat buf_size_bytes) b') in
        match wr with
        | WriteFailed err => mk_send_result (- err) (Some b') [call]
        | WriteDone res =>
            if negb (res =? buf_size_bytes) then
              mk_send_result (- Errno.EPIPE) (Some b') [call]
            else
              mk_send_result 0 (Some b') [call]
        end
    end.

Record receive_result : Type := mk_receive_result {
  rr_ret : Z;                       (* return value *)
  rr_buffer : list byte;            (* [receive_buffer] afterwards *)
  rr_data_offset : option Z;        (* the variable behind [data_offset__out] *)
  rr_trace : list syscall           (* system calls issued *)
}.

(** [iccom_receive_data_nocopy].  [data_offset__out] is [None] for a NULL
    pointer and [Some v] for a pointer to an [int] that holds [v]. *)
Definition iccom_receive_data_nocopy (rd : read_outcome) (sock_fd : Z)
    (receive_buffer : list byte) (buffer_size : Z)
    (data_offset__out : option Z) : receive_result :=
  if buffer_size <=? NLMSG_SPACE 0 then
    mk_receive_result (- Errno.ENFILE) receive_buffer data_offset__out []
  else
    match data_offset__out with
    | None => mk_receive_result (- Errno.EINVAL) receive_buffer None []
    | Some off =>
        let call := SysRead sock_fd buffer_size in
        match rd with
        | ReadFailed err =>
            if err =? Errno.EAGAIN then
              mk_receive_result 0 receive_buffer (Some off) [call]
            else
              mk_receive_result (- err) receive_buffer (Some off) [call]
        | ReadDone arrived =>
            let data := firstn (Z.to_nat buffer_size) arrived in
            let len := Z.of_nat (length data) in
            let buffer := data ++ skipn (length data) receive_buffer in
            if len =? 0 then
              mk_receive_result 0 buffer (Some off) [call]
            else if len <? sizeof_nlmsghdr then
              mk_receive_result (- Errno.EBADE) buffer (Some off) [call]
            else
              let data_size_bytes := nlmsg_len buffer in
              let nl_total_msg_size := NLMSG_SPACE data_size_bytes in
              if negb (len =? nl_total_msg_size) then
                mk_receive_result (- Errno.EBADE) buffer (Some off) [call]
              else
                mk_receive_result (C.to_int data_size_bytes) buffer
                                  (Some (NLMSG_LENGTH 0)) [call]
        end
    end.

(** ** The IccomSocket class (iccom.h) *)

Record IccomSocket : Type := mk_IccomSocket {
  m_sock_fd : Z;
  m_channel : Z;
  m_incoming_data : list byte;
  m_outgoing_data : list byte;
  m_outgoing_payload_size : Z;
  m_dbg : bool
}.

(** What a method call leaves behind: its return value, the object
    afterwards and the system calls it issued. *)
Record call_result : Type := mk_call_result {
  cr_ret : Z;
  cr_self : IccomSocket;
  cr_trace : list syscall
}.

Module Socket.

(** The object the constructor builds: socket not opened, no input, an
    outgoing buffer of [NLMSG_SPACE(0)] zero bytes, no debug printing. *)
Definition fresh (channel : Z) : IccomSocket :=
  mk_IccomSocket (-1) channel
    (vec_resize 0 [])
    (vec_resize (NLMSG_SPACE 0) [])
    0 false.

(** The constructor; [None] stands for the [std::out_of_range] it throws.
    [m_channel] is converted to the [int] parameter of
    [iccom_channel_verify]. *)
Definition create (channel : Z) : option IccomSocket :=
  if iccom_channel_verify (C.to_int channel) <? 0 then None
  else Some (fresh channel).

Definition set_sock_fd (fd : Z) (s : IccomSocket) : IccomSocket :=
  mk_IccomSocket fd (m_channel s) (m_incoming_data s) (m_outgoing_data s)
                 (m_outgoing_payload_size s) (m_dbg s).

(** [open]; [opened] is what [iccom_open_socket] returns when called. *)
Definition open (opened : Z) (s : IccomSocket) : Z * IccomSocket :=
  if m_sock_fd s >=? 0 then (m_sock_fd s, s)
  else (opened, set_sock_fd opened s).

(** [is_open]. *)
Definition is_open (s : IccomSocket) : bool := m_sock_fd s >=? 0.

Definition set_incoming (d : list byte) (s : IccomSocket) : IccomSocket :=
  mk_IccomSocket (m_sock_fd s) (m_channel s) d (m_outgoing_data s)
                 (m_outgoing_payload_size s) (m_dbg s).

Definition set_outgoing (d : list byte) (n : Z) (s : IccomSocket) : IccomSocket :=
  mk_IccomSocket (m_sock_fd s) (m_channel s) (m_incoming_data s) d n (m_dbg s).

(** [reset_output] and [reset_input]. *)
Definition reset_output (s : IccomSocket) : IccomSocket :=
  set_outgoing (vec_resize (NLMSG_SPACE 0) (m_outgoing_data s)) 0 s.

Definition reset_input (s : IccomSocket) : IccomSocket :=
  set_incoming (vec_resize 0 (m_incoming_data s)) s.

(** [output_size] and [output_free_space]. *)
Definition output_size (s : IccomSocket) : Z := m_outgoing_payload_size s.

Definition output_free_space (s : IccomSocket) : Z :=
  let max_s := iccom_get_max_payload_size in
  let curr_s := m_outgoing_payload_size s in
  if max_s >=? curr_s then max_s - curr_s else 0.

(** [operator <<(const char ch)]. *)
Definition append_char (ch : byte) (s : IccomSocket) : IccomSocket :=
  if m_outgoing_payload_size s >=? iccom_get_max_payload_size then s
  else
    let d := vec_push_back ch (m_outgoing_data s) in
    let n := C.to_size (m_outgoing_payload_size s + 1) in
    set_outgoing (vec_resize (NLMSG_SPACE n) d) n s.

(** [operator <<(const std::vector<char> &data)]. *)
Definition append (data : list byte) (s : IccomSocket) : IccomSocket :=
  if C.to_size (m_outgoing_payload_size s + vec_size data)
       >=? iccom_get_max_payload_size
  then s
  else
    let d := fold_left (fun acc ch => vec_push_back ch acc) data
                       (m_outgoing_data s) in
    let n := C.to_size (m_outgoing_payload_size s + vec_size data) in
    set_outgoing (vec_resize (NLMSG_SPACE n) d) n s.

(** [input_size]. *)
Definition input_size (s : IccomSocket) : Z :=
  if vec_size (m_incoming_data s) >=? NLMSG_SPACE 0
  then NLMSG_PAYLOAD0 (nlmsg_len (m_incoming_data s))
  else 0.

(** [operator[]] in a build that compiles [assert] in: [Some] is the byte
    returned, [None] stands for the failed [assert].  [None] is also the
    answer for an index that passes the assertion and lies beyond the
    vector, where the source reads out of bounds;
    [SocketDbg.operator_index] below keeps these outcomes apart and covers
    builds without assertions. *)
Definition index (idx : Z) (s : IccomSocket) : option byte :=
  if (0 <=? idx) && (idx <? input_size s)
  then nth_error (m_incoming_data s) (Z.to_nat (idx + NLMSG_LENGTH 0))
  else None.

(** [send].  The buffer handed to [iccom_send_data_nocopy] is the storage
    of [m_outgoing_data] itself, so the header written there is seen in
    the socket afterwards.  Debug printing ([m_dbg]) only writes to stdout
    and is left out: it is reached after [iccom_send_data_nocopy] has
    accepted the buffer, whose size then is
    [NLMSG_SPACE(m_outgoing_payload_size)], so that the dump stays inside
    the vector. *)
Definition send (wr : write_outcome) (reset_message_on_success : bool)
    (s : IccomSocket) : call_result :=
  if m_outgoing_payload_size s =? 0 then mk_call_result 0 s []
  else
    let r := iccom_send_data_nocopy wr (m_sock_fd s)
               (Some (m_outgoing_data s))
               (vec_size (m_outgoing_data s))
               (NLMSG_LENGTH 0)
               (m_outgoing_payload_size s) in
    let s1 := match sr_buf r with
              | Some b => set_outgoing b (m_outgoing_payload_size s) s
              | None => s
              end in
    let res := sr_ret r in
    if res <? 0 then mk_call_result res s1 (sr_trace r)
    else if reset_message_on_success
         then mk_call_result res (reset_output s1) (sr_trace r)
         else mk_call_result res s1 (sr_trace r).

(** [receive].  The local [data_offset] starts at 0.  [NLMSG_LENGTH(res)]
    is an [int] sum converted to [size_t]; [res] is positive and bounded by
    the buffer there.

    This is the method with debug printing off ([m_dbg = false]), and with
    debug printing on whenever the print returns: the print changes neither
    the object nor the return value.  It is reached on the successful path
    only and dumps [input_size()] bytes of [m_incoming_data], which can
    reach beyond the vector; [SocketDbg.receive_debug_print] below models
    that branch. *)
Definition receive (rd : read_outcome) (s : IccomSocket) : call_result :=
  let buf := vec_resize (NLMSG_SPACE iccom_get_max_payload_size)
                        (m_incoming_data s) in
  let r := iccom_receive_data_nocopy rd (m_sock_fd s) buf (vec_size buf)
                                     (Some 0) in
  let s1 := set_incoming (rr_buffer r) s in
  let res := rr_ret r in
  if res <=? 0 then mk_call_result res (reset_input s1) (rr_trace r)
  else
    match rr_data_offset r with
    | Some off =>
        if negb (off =? NLMSG_LENGTH 0) then
          mk_call_result (- Errno.EFAULT) (reset_input s1) (rr_trace r)
        else
          mk_call_result res
            (set_incoming (vec_resize (NLMSG_LENGTH res) (rr_buffer r)) s1)
            (rr_trace r)
    | None => mk_call_result (- Errno.EFAULT) (reset_input s1) (rr_trace r)
    end.

(** The class invariant stated in the comments of the class:
    [m_outgoing_data.size() == NLMSG_SPACE(m_outgoing_payload_size)] and
    the payload never exceeds the maximum. *)
Definition wf (s : IccomSocket) : Prop :=
  0 <= m_outgoing_payload_size s <= iccom_get_max_payload_size
  /\ vec_size (m_outgoing_data s) = NLMSG_SPACE (m_outgoing_payload_size s).

(** The user data of the outgoing message: what [print_channel_data]
    shows, [m_outgoing_payload_size] bytes from [NLMSG_DATA]. *)
Definition outgoing_payload (s : IccomSocket) : list byte :=
  firstn (Z.to_nat (m_outgoing_payload_size s))
         (skipn (Z.to_nat NLMSG_HDRLEN) (m_outgoing_data s)).

End Socket.

(** ** Buffers and frames of the nocopy API *)

(** The buffer a caller hands to [iccom_send_data_nocopy] (iccom.h):

      |--reserved space--|--payload data--|-padding-|

    with zero padding up to [NLMSG_SPACE] of the payload size. *)
Definition send_buffer (reserved payload : list byte) : list byte :=
  reserved ++ payload
  ++ repeat x00 (Z.to_nat (NLMSG_SPACE (vec_size payload)
                           - NLMSG_LENGTH (vec_size payload))).

(** The total frame size a declared payload length implies, in the words
    of the spec (data model, [total_size == align_up(header_size +
    payload_size)]): header and payload, rounded up to the alignment unit,
    as a number, without the wrap-around of the macros. *)
Definition implied_frame_size (payload_size : Z) : Z :=
  NLMSG_ALIGNTO
  * ((NLMSG_HDRLEN + payload_size + NLMSG_ALIGNTO - 1) / NLMSG_ALIGNTO).

(** The same buffer once [iccom_send_data_nocopy] has written the header
    into the reserved space: the bytes given to [write]. *)
Definition wire_frame (payload : list byte) : list byte :=
  send_buffer (nlmsghdr_bytes (vec_size payload)) payload.

(** ** Scenarios *)

(** The echo scenario: a socket on channel 100 and a payload of 5 bytes. *)
Definition echo_payload : list byte := [x00; x01; x02; x03; x04].

Definition echo_socket : IccomSocket :=
  Socket.append echo_payload (snd (Socket.open 3 (Socket.fresh 100))).

(** A socket whose outgoing message is one byte short of the maximum. *)
Definition nearly_full_socket : IccomSocket :=
  Socket.append (repeat x02 4095) (Socket.fresh 100).

(** ** The rest of the C API and of the class

    The functions below complete the embedding: the channel macro, socket
    set-up and tear-down, the read timeout, the copying send and receive of
    the C API, and the remaining methods of [IccomSocket]. *)

(** [LUN_CID_2_CH]: both operands are cast to [unsigned int]. *)
Definition LUN_CID_2_CH (lun cid : Z) : Z :=
  Z.lor (C.to_uint (Z.shiftl (C.to_uint lun) 7)) (C.to_uint cid).

(** [struct timeval]. *)
Record timeval : Type := mk_timeval {
  tv_sec : Z;
  tv_usec : Z
}.

(** Calls to the system and to libc, in the order they are made.  [EvIo]
    embeds the [read] and [write] calls of the nocopy API; [EvSocket]
    records the candidate address tried and what [socket] returned,
    [EvMalloc] the size asked for and whether a block was returned. *)
Inductive event : Type :=
| EvIo (c : syscall)
| EvGetaddrinfo (service : Z)
| EvSocket (candidate : nat) (result : Z)
| EvConnect (fd : Z) (candidate : nat)
| EvClose (fd : Z)
| EvFreeaddrinfo
| EvSetsockopt (fd : Z) (tv : timeval)
| EvGetsockopt (fd : Z)
| EvMalloc (size : Z) (success : bool)
| EvFree.

(** What happens on one candidate address of [getaddrinfo]: [socket] fails
    (returns -1), or gives [fd] and [connect] fails, or both succeed. *)
Inductive candidate_outcome : Type :=
| SocketFailed (errno : Z)
| ConnectFailed (fd : Z) (errno : Z)
| Connected (fd : Z).

(** [getaddrinfo] returns a non-zero code, or 0 and the list of
    candidates. *)
Inductive getaddrinfo_outcome : Type :=
| GaiFailed (code : Z)
| GaiDone (candidates : list candidate_outcome).

Inductive setsockopt_outcome : Type :=
| SetsockoptFailed (errno : Z)
| SetsockoptDone.

Inductive getsockopt_outcome : Type :=
| GetsockoptFailed (errno : Z)
| GetsockoptDone (tv : timeval).

(** [malloc] returns NULL, or a block whose content is whatever the heap
    held. *)
Inductive malloc_outcome : Type :=
| MallocFailed
| MallocDone (block : list byte).

Definition SERVICE_STR_SIZE : Z := 64.

(** The number of characters of a non-negative number in decimal. *)
Fixpoint decimal_digits (fuel : nat) (n : Z) : Z :=
  match fuel with
  | O => 1
  | S f => if n <? 10 then 1 else 1 + decimal_digits f (n / 10)
  end.

(** What [snprintf] returns for the format "%d": the length of the number
    printed (an [int] has at most ten digits). *)
Definition snprintf_d (v : Z) : Z :=
  if v <? 0 then 1 + decimal_digits 10 (- v) else decimal_digits 10 v.

(** The loop of [iccom_open_socket] over the candidate addresses: the
    descriptor of the first candidate that connects, if any, and the calls
    made.  A descriptor whose [connect] failed is closed before the next
    candidate is tried. *)
Fixpoint connect_first (i : nat) (candidates : list candidate_outcome)
    : option Z * list event :=
  match candidates with
  | [] => (None, [])
  | SocketFailed _ :: rest =>
      let r := connect_first (S i) rest in
      (fst r, EvSocket i (-1) :: snd r)
  | ConnectFailed fd _ :: rest =>
      let r := connect_first (S i) rest in
      (fst r, EvSocket i fd :: EvConnect fd i :: EvClose fd :: snd r)
  | Connected fd :: _ =>
      (Some fd, [EvSocket i fd; EvConnect fd i])
  end.

(** Descriptors that [socket] returns on success are not negative. *)
Definition candidate_valid (c : candidate_outcome) : Prop :=
  match c with
  | SocketFailed _ => True
  | ConnectFailed fd _ => 0 <= fd
  | Connected fd => 0 <= fd
  end.

Definition gai_valid (gai : getaddrinfo_outcome) : Prop :=
  match gai with
  | GaiFailed _ => True
  | GaiDone candidates => Forall candidate_valid candidates
  end.

Definition is_connected (c : candidate_outcome) : bool :=
  match c with
  | Connected _ => true
  | _ => false
  end.

(** [iccom_open_socket].  The channel, an [unsigned int], is converted to
    the [int] parameter of [iccom_channel_verify] and printed with "%d". *)
Definition iccom_open_socket (gai : getaddrinfo_outcome) (channel : Z)
    : Z * list event :=
  if iccom_channel_verify (C.to_int channel) <? 0 then (- Errno.EINVAL, [])
  else if snprintf_d (C.to_int channel) >=? SERVICE_STR_SIZE then
    (- Errno.EINVAL, [])
  else
    match gai with
    | GaiFailed _ => (- Errno.EINVAL, [EvGetaddrinfo (C.to_int channel)])
    | GaiDone candidates =>
        let r := connect_first 0 candidates in
        let trace := EvGetaddrinfo (C.to_int channel)
                     :: snd r ++ [EvFreeaddrinfo] in
        match fst r with
        | None => (- Errno.EPIPE, trace)
        | Some sock_fd => (sock_fd, trace)
        end
    end.

(** The [struct timeval] that [iccom_set_socket_read_timeout] builds; the
    division is the one of C. *)
Definition timeval_of_ms (ms : Z) : timeval :=
  let sec := Z.quot ms 1000 in
  mk_timeval sec ((ms - sec * 1000) * 1000).

(** [iccom_set_socket_read_timeout]. *)
Definition iccom_set_socket_read_timeout (so : setsockopt_outcome)
    (sock_fd ms : Z) : Z * list event :=
  if ms <? 0 then (- Errno.EINVAL, [])
  else
    let call := EvSetsockopt sock_fd (timeval_of_ms ms) in
    match so with
    | SetsockoptFailed err => (- err, [call])
    | SetsockoptDone => (0, [call])
    end.

(** [iccom_get_socket_read_timeout]; the sum is converted to the [int]
    that is returned. *)
Definition iccom_get_socket_read_timeout (go : getsockopt_outcome)
    (sock_fd : Z) : Z * list event :=
  match go with
  | GetsockoptFailed err => (- err, [EvGetsockopt sock_fd])
  | GetsockoptDone timeout =>
      (C.to_int (tv_sec timeout * 1000 + Z.quot (tv_usec timeout) 1000),
       [EvGetsockopt sock_fd])
  end.

(** [iccom_close_socket]: a failure of [close] is only logged. *)
Definition iccom_close_socket (sock_fd : Z) : list event := [EvClose sock_fd].

(** [memcpy(NLMSG_DATA(nl_msg), data, data_size_bytes)] on a block. *)
Definition memcpy_payload (block data : list byte) (data_size_bytes : Z)
    : list byte :=
  firstn (Z.to_nat NLMSG_HDRLEN) block
  ++ firstn (Z.to_nat data_size_bytes) data
  ++ skipn (Z.to_nat NLMSG_HDRLEN + Z.to_nat data_size_bytes) block.

(** [iccom_send_data].  [data] is [None] for a NULL pointer.  The block
    from [malloc] is freed whatever [iccom_send_data_nocopy] returns. *)
Definition iccom_send_data (mem : malloc_outcome) (wr : write_outcome)
    (sock_fd : Z) (data : option (list byte)) (data_size_bytes : Z)
    : Z * list event :=
  if data_size_bytes >? ICCOM_SOCKET_MAX_MESSAGE_SIZE_BYTES then
    (- Errno.E2BIG, [])
  else if data_size_bytes <=? 0 then (- Errno.EINVAL, [])
  else
    match data with
    | None => (- Errno.EINVAL, [])
    | Some d =>
        let nl_total_msg_size := NLMSG_SPACE data_size_bytes in
        match mem with
        | MallocFailed => (- Errno.ENOMEM, [EvMalloc nl_total_msg_size false])
        | MallocDone block =>
            let nl_msg := memcpy_payload block d data_size_bytes in
            let r := iccom_send_data_nocopy wr sock_fd (Some nl_msg)
                       nl_total_msg_size (NLMSG_LENGTH 0) data_size_bytes in
            (sr_ret r,
             EvMalloc nl_total_msg_size true
             :: map EvIo (sr_trace r) ++ [EvFree])
        end
    end.

(** The bytes [iccom_send_data] gives to [write] for the data [d] when
    [malloc] returned [block]: header, data, and as padding what the block
    held there. *)
Definition copied_frame (block d : list byte) : list byte :=
  nlmsghdr_bytes (vec_size d) ++ d
  ++ skipn (Z.to_nat NLMSG_HDRLEN + Z.to_nat (vec_size d)) block.

(** [errno] is positive after a failed call. *)
Definition read_outcome_valid (rd : read_outcome) : Prop :=
  match rd with
  | ReadFailed errno => 0 < errno
  | ReadDone _ => True
  end.

Definition write_outcome_valid (wr : write_outcome) : Prop :=
  match wr with
  | WriteFailed errno => 0 < errno
  | WriteDone n => 0 <= n
  end.

(** [iccom_receive_data], an alias of [iccom_receive_data_nocopy]. *)
Definition iccom_receive_data (rd : read_outcome) (sock_fd : Z)
    (receive_buffer : list byte) (buffer_size : Z)
    (data_offset__out : option Z) : receive_result :=
  iccom_receive_data_nocopy rd sock_fd receive_buffer buffer_size
                            data_offset__out.

Record pure_result : Type := mk_pure_result {
  pr_ret : Z;
  pr_buffer : list byte;
  pr_trace : list syscall
}.

(** [memmove(buffer, buffer + offset, n)]. *)
Definition memmove_front (buffer : list byte) (offset n : Z) : list byte :=
  firstn (Z.to_nat n) (skipn (Z.to_nat offset) buffer)
  ++ skipn (Z.to_nat n) buffer.

(** [__iccom_receive_data_pure]: the local [data_offset] starts at 0. *)
Definition __iccom_receive_data_pure (rd : read_outcome) (sock_fd : Z)
    (receive_buffer : list byte) (buffer_size : Z) : pure_result :=
  let r := iccom_receive_data rd sock_fd receive_buffer buffer_size (Some 0) in
  let res := rr_ret r in
  if res <=? 0 then mk_pure_result res (rr_buffer r) (rr_trace r)
  else
    let data_offset := match rr_data_offset r with
                       | Some off => off
                       | None => 0
                       end in
    mk_pure_result res (memmove_front (rr_buffer r) data_offset res)
                   (rr_trace r).

(** The remaining methods of [IccomSocket]. *)
Module SocketApi.

(** [open], with [iccom_open_socket] spelled out. *)
Definition open (gai : getaddrinfo_outcome) (s : IccomSocket)
    : Z * IccomSocket * list event :=
  if m_sock_fd s >=? 0 then (m_sock_fd s, s, [])
  else
    let r := iccom_open_socket gai (m_channel s) in
    (fst r, Socket.set_sock_fd (fst r) s, snd r).

(** [close] (the destructor does the same). *)
Definition close (s : IccomSocket) : IccomSocket * list event :=
  if m_sock_fd s <? 0 then (s, [])
  else (Socket.set_sock_fd (-1) s, iccom_close_socket (m_sock_fd s)).

(** [send_direct]; [data.data()] and [data.size()] are passed on. *)
Definition send_direct (mem : malloc_outcome) (wr : write_outcome)
    (data : list byte) (s : IccomSocket) : Z * list event :=
  if negb (Socket.is_open s) then (- Errno.EBADFD, [])
  else iccom_send_data mem wr (m_sock_fd s) (Some data) (vec_size data).

(** [receive_direct]: the return value, [data_out] afterwards and the
    calls made. *)
Definition receive_direct (rd : read_outcome) (data_out : list byte)
    (s : IccomSocket) : Z * list byte * list syscall :=
  if negb (Socket.is_open s) then (- Errno.EBADFD, vec_resize 0 data_out, [])
  else
    let buf := vec_resize (NLMSG_SPACE iccom_get_max_payload_size) data_out in
    let r := __iccom_receive_data_pure rd (m_sock_fd s) buf (vec_size buf) in
    let res := pr_ret r in
    if res <? 0 then (res, vec_resize 0 (pr_buffer r), pr_trace r)
    else (res, vec_resize res (pr_buffer r), pr_trace r).

(** [set_read_timeout] and [read_timeout]. *)
Definition set_read_timeout (so : setsockopt_outcome) (ms : Z)
    (s : IccomSocket) : Z * list event :=
  if negb (Socket.is_open s) then (- Errno.EBADF, [])
  else iccom_set_socket_read_timeout so (m_sock_fd s) ms.

Definition read_timeout (go : getsockopt_outcome) (s : IccomSocket)
    : Z * list event :=
  if negb (Socket.is_open s) then (- Errno.EBADF, [])
  else iccom_get_socket_read_timeout go (m_sock_fd s).

(** [set_dbg_mode]. *)
Definition set_dbg_mode (dbg_mode : bool) (s : IccomSocket) : IccomSocket :=
  mk_IccomSocket (m_sock_fd s) (m_channel s) (m_incoming_data s)
                 (m_outgoing_data s) (m_outgoing_payload_size s) dbg_mode.

(** A call of a state changing method, with the outcomes of the system
    calls it makes, and its effect on the object. *)
Inductive method : Type :=
| MOpen (gai : getaddrinfo_outcome)
| MClose
| MSend (wr : write_outcome) (reset_message_on_success : bool)
| MReceive (rd : read_outcome)
| MAppend (data : list byte)
| MAppendChar (ch : byte)
| MResetOutput
| MResetInput
| MSetDbgMode (dbg_mode : bool).

Definition call (m : method) (s : IccomSocket) : IccomSocket :=
  match m with
  | MOpen gai => snd (fst (open gai s))
  | MClose => fst (close s)
  | MSend wr reset => cr_self (Socket.send wr reset s)
  | MReceive rd => cr_self (Socket.receive rd s)
  | MAppend data => Socket.append data s
  | MAppendChar ch => Socket.append_char ch s
  | MResetOutput => Socket.reset_output s
  | MResetInput => Socket.reset_input s
  | MSetDbgMode b => set_dbg_mode b s
  end.

Definition calls (ms : list method) (s : IccomSocket) : IccomSocket :=
  fold_left (fun acc m => call m acc) ms s.

End SocketApi.

(** ** Debug printing and unchecked indexing

    The parts of the class whose outcome is not a value: a failed [assert]
    aborts the program, a read beyond a vector is undefined behaviour. *)
Module SocketDbg.

(** What a debug print does besides writing to stdout: it returns, an
    assertion fails, or the hex dump reads beyond the vector. *)
Inductive print_outcome : Type :=
| PrintDone
| PrintAssertFailed
| PrintOutOfBounds.

(** [print_channel_data_raw] with [data = NLMSG_DATA(v.data())]: unless
    [len] is 0, [iccom_print_hex_dump_prefixed] reads [data[i]] for every
    [i < len]. *)
Definition print_channel_data_raw (v : list byte) (len : Z) : print_outcome :=
  if len =? 0 then PrintDone
  else if NLMSG_HDRLEN + len <=? vec_size v then PrintDone
  else PrintOutOfBounds.

(** [print_channel_data]; [assertions] tells whether [assert] is compiled
    in (no NDEBUG). *)
Definition print_channel_data (assertions incoming : bool) (s : IccomSocket)
    : print_outcome :=
  if incoming then
    let size := Socket.input_size s in
    if size =? 0 then PrintDone
    else if assertions
            && negb (vec_size (m_incoming_data s) >=? NLMSG_SPACE size)
    then PrintAssertFailed
    else print_channel_data_raw (m_incoming_data s) size
  else
    if assertions
       && negb (vec_size (m_outgoing_data s)
                =? NLMSG_SPACE (m_outgoing_payload_size s))
    then PrintAssertFailed
    else if m_outgoing_payload_size s =? 0 then PrintDone
    else print_channel_data_raw (m_outgoing_data s)
                                (m_outgoing_payload_size s).

(** The debug branch of [receive]: with [m_dbg] set, a receive that got
    past both checks (the one that returns a positive value) prints the
    incoming message before it returns. *)
Definition receive_debug_print (assertions : bool) (rd : read_outcome)
    (s : IccomSocket) : print_outcome :=
  let r := Socket.receive rd s in
  if m_dbg s && (0 <? cr_ret r)
  then print_channel_data assertions true (cr_self r)
  else PrintDone.

(** The outcomes of [operator[]]. *)
Inductive index_result : Type :=
| IndexByte (b : byte)
| IndexAssertFailed
| IndexOutOfBounds.

(** [operator[]]: the assertion, when compiled in, then the unchecked
    [m_incoming_data[idx + NLMSG_LENGTH(0)]], a [size_t] sum. *)
Definition operator_index (assertions : bool) (idx : Z) (s : IccomSocket)
    : index_result :=
  if assertions && negb ((0 <=? idx) && (idx <? Socket.input_size s))
  then IndexAssertFailed
  else match nth_error (m_incoming_data s)
                       (Z.to_nat (C.to_size (idx + NLMSG_LENGTH 0))) with
       | Some b => IndexByte b
       | None => IndexOutOfBounds
       end.

(** A call that does not switch debug printing on. *)
Definition keeps_debug_off (m : SocketApi.method) : bool :=
  match m with
  | SocketApi.MSetDbgMode dbg_mode => negb dbg_mode
  | _ => true
  end.

End SocketDbg.

(** Descriptors that are open at the end of a trace: [socket] opens the
    one it returns, [close] closes. *)
Fixpoint remove_fd (fd : Z) (l : list Z) : list Z :=
  match l with
  | [] => []
  | x :: rest => if x =? fd then rest else x :: remove_fd fd rest
  end.

Definition open_fds (trace : list event) : list Z :=
  fold_left (fun acc e =>
               match e with
               | EvSocket _ fd => if fd <? 0 then acc else fd :: acc
               | EvClose fd => remove_fd fd acc
               | _ => acc
               end) trace [].

(** Heap blocks that are allocated and not freed at the end of a trace. *)
Definition live_blocks (trace : list event) : Z :=
  fold_left (fun acc e =>
               match e with
               | EvMalloc _ true => acc + 1
               | EvFree => acc - 1
               | _ => acc
               end) trace 0.

(** ** The Python adapter

    The functions of the adapter after [PyArg_ParseTuple] has delivered
    their arguments.  A result is the object returned or the exception set
    when NULL is returned; the text of the exception is left out. *)

Inductive py_exception : Type :=
| PyExc_ValueError
| PyExc_IOError
| PyExc_MemoryError
| PyExc_OverflowError.

Inductive py_result : Type :=
| Py_None
| Py_Bool (b : bool)
| Py_Long (v : Z)
| Py_ByteArray (content : list byte)
| Py_Raise (e : py_exception).

(** [iccom_receive_py]; [buff] is the content of the local array, of
    [iccom_get_required_buffer_size(max_msg_size)] bytes, before the
    call. *)
Definition iccom_receive_py (rd : read_outcome) (buff : list byte) (fd : Z)
    : py_result * list syscall :=
  let max_msg_size := C.to_uint iccom_get_max_payload_size in
  let buffer_size := iccom_get_required_buffer_size max_msg_size in
  let r := __iccom_receive_data_pure rd fd buff buffer_size in
  let res := pr_ret r in
  if res =? 0 then (Py_None, pr_trace r)
  else if res >? 0 then
    (Py_ByteArray (firstn (Z.to_nat res) (pr_buffer r)), pr_trace r)
  else if - res =? Errno.ENFILE then (Py_Raise PyExc_OverflowError, pr_trace r)
  else if - res =? Errno.EINVAL then (Py_Raise PyExc_ValueError, pr_trace r)
  else if - res =? Errno.EPIPE then (Py_Raise PyExc_IOError, pr_trace r)
  else (Py_Raise PyExc_IOError, pr_trace r).

(** [iccom_send_py]; [data] is the content of the bytearray, whose size is
    never negative. *)
Definition iccom_send_py (mem : malloc_outcome) (wr : write_outcome)
    (fd : Z) (data : list byte) : py_result * list event :=
  let data_size := vec_size data in
  if data_size <? 0 then (Py_Raise PyExc_ValueError, [])
  else
    let r := iccom_send_data mem wr fd (Some data) data_size in
    let res := fst r in
    if res >=? 0 then (Py_None, snd r)
    else if - res =? Errno.E2BIG then (Py_Raise PyExc_ValueError, snd r)
    else if - res =? Errno.EINVAL then (Py_Raise PyExc_ValueError, snd r)
    else if - res =? Errno.ENOMEM then (Py_Raise PyExc_MemoryError, snd r)
    else (Py_Raise PyExc_IOError, snd r).

(** [iccom_channel_verify_py]. *)
Definition iccom_channel_verify_py (ch : Z) : py_result :=
  Py_Bool (iccom_channel_verify ch >=? 0).

(** [iccom_socket_open_py]. *)
Definition iccom_socket_open_py (gai : getaddrinfo_outcome) (channel : Z)
    : py_result * list event :=
  let r := iccom_open_socket gai channel in
  let res := fst r in
  if res >=? 0 then (Py_Long res, snd r)
  else if - res =? Errno.EINVAL then (Py_Raise PyExc_ValueError, snd r)
  else (Py_Raise PyExc_IOError, snd r).

(** * Properties *)

(** ** Arithmetic of the netlink macros *)

Section NetlinkArith.

Lemma align_mask_shape : align_mask = Z.shiftl (Z.ones 30) 2.
Proof. reflexivity. Qed.

(** Masking with 0xFFFFFFFC keeps bits 2..31. *)
Lemma land_align_mask (x : Z) :
  Z.land x align_mask = 4 * ((x / 4) mod 2 ^ 30).
Proof.
  rewrite align_mask_shape.
  replace (4 * ((x / 4) mod 2 ^ 30))
    with (Z.shiftl (Z.land (Z.shiftr x 2) (Z.ones 30)) 2).
  - apply Z.bits_inj'. intros n Hn.
    rewrite Z.land_spec.
    destruct (Z.ltb_spec n 2) as [Hlt | Hge].
    + rewrite !Z.shiftl_spec_low by assumption.
      apply andb_false_r.
    + rewrite !Z.shiftl_spec by assumption.
      rewrite Z.land_spec, Z.shiftr_spec by lia.
      replace (n - 2 + 2) with n by lia. reflexivity.
  - rewrite Z.land_ones by lia.
    rewrite Z.shiftl_mul_pow2, Z.shiftr_div_pow2 by lia.
    change (2 ^ 2) with 4. lia.
Qed.

Lemma NLMSG_ALIGN_eq (len : Z) :
  NLMSG_ALIGN len = 4 * ((((len + 3) mod 2 ^ 64) / 4) mod 2 ^ 30).
Proof.
  unfold NLMSG_ALIGN, C.to_size, C.size_modulus, NLMSG_ALIGNTO.
  rewrite land_align_mask.
  replace (len + 4 - 1) with (len + 3) by lia. reflexivity.
Qed.

Lemma NLMSG_SPACE_eq (len : Z) :
  NLMSG_SPACE len =
  4 * (((((len + 16) mod 2 ^ 64 + 3) mod 2 ^ 64) / 4) mod 2 ^ 30).
Proof.
  unfold NLMSG_SPACE, NLMSG_LENGTH, C.to_size, C.size_modulus, NLMSG_HDRLEN.
  apply NLMSG_ALIGN_eq.
Qed.

(** Below the 32-bit wrap-around the macro is the mathematical rounding up
    of header plus payload. *)
Lemma NLMSG_SPACE_small (len : Z) :
  0 <= len <= 2 ^ 32 - 20 ->
  NLMSG_SPACE len = 4 * ((len + 19) / 4).
Proof.
  intros H. rewrite NLMSG_SPACE_eq.
  rewrite (Z.mod_small (len + 16)) by lia.
  rewrite (Z.mod_small (len + 16 + 3)) by lia.
  replace (len + 16 + 3) with (len + 19) by lia.
  rewrite Z.mod_small; [reflexivity |].
  split.
  - apply Z.div_pos; lia.
  - apply Z.div_lt_upper_bound; lia.
Qed.

Lemma NLMSG_SPACE_bounds (len : Z) :
  0 <= len <= 2 ^ 32 - 20 ->
  len + 16 <= NLMSG_SPACE len <= len + 19.
Proof.
  intros H. rewrite NLMSG_SPACE_small by assumption.
  pose proof (Z.div_mod (len + 19) 4 ltac:(lia)) as Hdm.
  pose proof (Z.mod_pos_bound (len + 19) 4 ltac:(lia)) as Hb.
  lia.
Qed.

Lemma NLMSG_SPACE_0 : NLMSG_SPACE 0 = 16.
Proof. reflexivity. Qed.

Lemma NLMSG_LENGTH_0 : NLMSG_LENGTH 0 = 16.
Proof. reflexivity. Qed.

Lemma NLMSG_LENGTH_small (len : Z) :
  0 <= len < 2 ^ 63 -> NLMSG_LENGTH len = len + 16.
Proof.
  intros H. unfold NLMSG_LENGTH, C.to_size, C.size_modulus, NLMSG_HDRLEN.
  apply Z.mod_small. lia.
Qed.

End NetlinkArith.

(** ** Bytes, header fields and vectors *)

Section Bytes.

Lemma Z_of_byte_of_Z (z : Z) : Z_of_byte (byte_of_Z z) = z mod 256.
Proof.
  unfold Z_of_byte, byte_of_Z.
  pose proof (Z.mod_pos_bound z 256 ltac:(lia)) as Hb.
  destruct (Byte.of_N (Z.to_N (z mod 256))) as [b |] eqn:E.
  - apply Byte.to_of_N in E. rewrite E. lia.
  - apply Byte.of_N_None_iff in E. lia.
Qed.

Lemma Z_of_byte_range (b : byte) : 0 <= Z_of_byte b < 256.
Proof.
  unfold Z_of_byte. pose proof (Byte.to_N_bounded b). lia.
Qed.

(** Reading back a stored [__u32]. *)
Lemma u32_of_to_bytes (v : Z) (rest : list byte) :
  0 <= v < 2 ^ 32 ->
  u32_of_bytes (u32_to_bytes v ++ rest) = v.
Proof.
  intros Hv. unfold u32_of_bytes, u32_to_bytes. cbn [app nth].
  rewrite !Z_of_byte_of_Z.
  rewrite !Z.shiftl_mul_pow2, !Z.shiftr_div_pow2 by lia.
  change (2 ^ 8) with 256. change (2 ^ 16) with 65536.
  change (2 ^ 24) with 16777216. change (2 ^ 32) with 4294967296 in Hv.
  pose proof (Z.div_mod v 256 ltac:(lia)).
  pose proof (Z.mod_pos_bound v 256 ltac:(lia)).
  pose proof (Z.div_mod (v / 256) 256 ltac:(lia)).
  pose proof (Z.mod_pos_bound (v / 256) 256 ltac:(lia)).
  pose proof (Z.div_mod (v / 256 / 256) 256 ltac:(lia)).
  pose proof (Z.mod_pos_bound (v / 256 / 256) 256 ltac:(lia)).
  replace (v / 65536) with (v / 256 / 256) by (rewrite Z.div_div by lia; reflexivity).
  replace (v / 16777216) with (v / 256 / 256 / 256)
    by (rewrite !Z.div_div by lia; reflexivity).
  assert (0 <= v / 256 / 256 / 256 < 256).
  { split.
    - repeat apply Z.div_pos; lia.
    - repeat (apply Z.div_lt_upper_bound; [lia |]). lia. }
  rewrite (Z.mod_small (v / 256 / 256 / 256)) by assumption.
  lia.
Qed.

Lemma u32_of_bytes_range (l : list byte) : 0 <= u32_of_bytes l < 2 ^ 32.
Proof.
  unfold u32_of_bytes.
  rewrite !Z.shiftl_mul_pow2 by lia.
  pose proof (Z_of_byte_range (nth 0 l x00)).
  pose proof (Z_of_byte_range (nth 1 l x00)).
  pose proof (Z_of_byte_range (nth 2 l x00)).
  pose proof (Z_of_byte_range (nth 3 l x00)).
  change (2 ^ 8) with 256. change (2 ^ 16) with 65536.
  change (2 ^ 24) with 16777216. change (2 ^ 32) with 4294967296.
  lia.
Qed.

(** The length field only depends on the first four bytes. *)
Lemma nlmsg_len_app (a b : list byte) :
  (4 <= length a)%nat -> nlmsg_len (a ++ b) = nlmsg_len a.
Proof.
  intros H. unfold nlmsg_len, u32_of_bytes.
  rewrite !app_nth1 by lia. reflexivity.
Qed.

Lemma nlmsg_len_header (v : Z) (rest : list byte) :
  0 <= v < 2 ^ 32 -> nlmsg_len (nlmsghdr_bytes v ++ rest) = v.
Proof.
  intros Hv. unfold nlmsg_len, nlmsghdr_bytes.
  rewrite <- app_assoc.
  unfold C.to_uint, C.uint_modulus. rewrite Z.mod_small by assumption.
  apply u32_of_to_bytes. assumption.
Qed.

Lemma nlmsghdr_bytes_length (v : Z) : length (nlmsghdr_bytes v) = 16%nat.
Proof. reflexivity. Qed.

Lemma vec_size_nonneg (v : list byte) : 0 <= vec_size v.
Proof. unfold vec_size. lia. Qed.

Lemma vec_size_app (a b : list byte) :
  vec_size (a ++ b) = vec_size a + vec_size b.
Proof. unfold vec_size. rewrite length_app. lia. Qed.

Lemma vec_resize_size (n : Z) (v : list byte) :
  0 <= n -> vec_size (vec_resize n v) = n.
Proof.
  intros Hn. unfold vec_size, vec_resize.
  rewrite length_app, length_firstn, repeat_length. lia.
Qed.

Lemma vec_resize_same (v : list byte) : vec_resize (vec_size v) v = v.
Proof.
  unfold vec_resize, vec_size. rewrite Nat2Z.id.
  rewrite firstn_all, Nat.sub_diag. apply app_nil_r.
Qed.

Lemma vec_resize_0 (v : list byte) : vec_resize 0 v = [].
Proof. reflexivity. Qed.

End Bytes.

(** ** Frame size (iccom_get_required_buffer_size) *)

Lemma iccom_get_data_payload_offset_eq : iccom_get_data_payload_offset = 16.
Proof. reflexivity. Qed.

Lemma required_buffer_size_max :
  iccom_get_required_buffer_size iccom_get_max_payload_size = 4112.
Proof. reflexivity. Qed.

(** The alignment holds at every argument, wrapped or not. *)
Lemma required_buffer_size_aligned (p : Z) :
  iccom_get_required_buffer_size p mod NLMSG_ALIGNTO = 0.
Proof.
  unfold iccom_get_required_buffer_size, NLMSG_ALIGNTO.
  rewrite NLMSG_SPACE_eq.
  rewrite Z.mul_comm. apply Z.mod_mul. lia.
Qed.

(** With the real macro the sum header + payload + 3 is cut to 32 bits: the
    first payload size that is not covered is 2^32 - 19. *)
Example required_buffer_size_wraps_32 :
  iccom_get_required_buffer_size (2 ^ 32 - 19) = 0.
Proof. reflexivity. Qed.

(** C9, as stated, fails: at the payload size 2^64 - 17 (a [size_t]) the
    sum with the header and the rounding wrap around, the computed frame
    size is 0 and so it is not at least header size plus payload size. *)
Lemma required_buffer_size_not_large_enough :
  C.is_size (2 ^ 64 - 17)
  /\ ~ (iccom_get_required_buffer_size (2 ^ 64 - 17)
        >= iccom_get_data_payload_offset + (2 ^ 64 - 17)).
Proof.
  split.
  - unfold C.is_size, C.size_modulus. lia.
  - assert (E : iccom_get_required_buffer_size (2 ^ 64 - 17) = 0)
      by reflexivity.
    rewrite E, iccom_get_data_payload_offset_eq. lia.
Qed.

(** C9 (amended): for every payload size [p] the frame size
    [iccom_get_required_buffer_size p] is a multiple of the 4-byte alignment
    unit; and for every [p] up to 2^32 - 20 (so for every payload up to
    [iccom_get_max_payload_size]) it is at least
    [iccom_get_data_payload_offset] plus [p]. *)
Theorem required_buffer_size_spec (p : Z) :
  iccom_get_required_buffer_size p mod NLMSG_ALIGNTO = 0
  /\ (0 <= p <= 2 ^ 32 - 20 ->
      iccom_get_required_buffer_size p >= iccom_get_data_payload_offset + p).
Proof.
  split.
  - apply required_buffer_size_aligned.
  - intros Hp. unfold iccom_get_required_buffer_size.
    rewrite iccom_get_data_payload_offset_eq.
    pose proof (NLMSG_SPACE_bounds p Hp). lia.
Qed.

Lemma required_buffer_size_spec_witness :
  iccom_get_required_buffer_size 5 mod NLMSG_ALIGNTO = 0
  /\ iccom_get_required_buffer_size 5 >= iccom_get_data_payload_offset + 5.
Proof.
  destruct (required_buffer_size_spec 5) as [Ha Hb].
  split; [exact Ha | apply Hb; lia].
Defined.

(** ** Channel verification (__iccom_channel_verify) *)

(** Every [unsigned int] satisfies each of the two range tests of the
    source, since the bounds of a range are joined by [||]: the function
    accepts every channel in each of the three areas. *)
Lemma __iccom_channel_verify_known_area (c area : Z) (comment : option (list byte)) :
  area = ICCOM_CHANNEL_AREA_PRIME \/ area = ICCOM_CHANNEL_AREA_LOOPBACK
  \/ area = ICCOM_CHANNEL_AREA_ANY ->
  __iccom_channel_verify c area comment = 0.
Proof.
  intros Harea. unfold __iccom_channel_verify.
  assert (H1 : (c >=? ICCOM_MIN_CHANNEL) || (c <=? ICCOM_MAX_CHANNEL) = true).
  { unfold ICCOM_MIN_CHANNEL, ICCOM_MAX_CHANNEL.
    destruct (Z.geb_spec c 0); [reflexivity |].
    destruct (Z.leb_spec c 32767); [reflexivity | lia]. }
  assert (H2 : (c >=? ICCOM_MIN_CHANNEL + (ICCOM_MAX_CHANNEL - ICCOM_MIN_CHANNEL + 1))
               || (c <=? ICCOM_MAX_CHANNEL + (ICCOM_MAX_CHANNEL - ICCOM_MIN_CHANNEL + 1))
               = true).
  { unfold ICCOM_MIN_CHANNEL, ICCOM_MAX_CHANNEL.
    destruct (Z.geb_spec c (0 + (32767 - 0 + 1))); [reflexivity |].
    destruct (Z.leb_spec c (32767 + (32767 - 0 + 1))); [reflexivity | lia]. }
  cbv zeta. rewrite H1, H2.
  destruct Harea as [-> | [-> | ->]]; reflexivity.
Qed.

Lemma __iccom_channel_verify_unknown_area (c area : Z) (comment : option (list byte)) :
  area <> ICCOM_CHANNEL_AREA_PRIME -> area <> ICCOM_CHANNEL_AREA_LOOPBACK ->
  area <> ICCOM_CHANNEL_AREA_ANY ->
  __iccom_channel_verify c area comment = - Errno.EINVAL.
Proof.
  intros H1 H2 H3. unfold __iccom_channel_verify.
  apply Z.eqb_neq in H1, H2, H3. rewrite H1, H2, H3.
  rewrite !andb_false_r. destruct comment; reflexivity.
Qed.

(** C1, the source at a failing input: channel 100 lies in the primary
    range and not in the loopback range, yet its verification against the
    loopback area succeeds, where the claim asks for [-EINVAL]; channel
    70000 lies in neither range, yet it passes in every area. *)
Theorem channel_verify_ignores_range :
  in_primary_range 100 /\ ~ in_loopback_range 100
  /\ __iccom_channel_verify 100 ICCOM_CHANNEL_AREA_LOOPBACK None = 0
  /\ ~ in_primary_range 70000 /\ ~ in_loopback_range 70000
  /\ __iccom_channel_verify 70000 ICCOM_CHANNEL_AREA_PRIME None = 0
  /\ __iccom_channel_verify 70000 ICCOM_CHANNEL_AREA_LOOPBACK None = 0
  /\ __iccom_channel_verify 70000 ICCOM_CHANNEL_AREA_ANY None = 0.
Proof.
  unfold in_primary_range, in_loopback_range, ICCOM_MIN_CHANNEL, ICCOM_MAX_CHANNEL.
  repeat split; try reflexivity; try lia.
Qed.

(** ** The C API on well-formed calls *)

Section NocopyApi.

Lemma max_payload_eq : iccom_get_max_payload_size = 4096.
Proof. reflexivity. Qed.

Lemma NLMSG_SPACE_payload (n : Z) :
  0 <= n <= iccom_get_max_payload_size ->
  n + 16 <= NLMSG_SPACE n <= n + 19.
Proof.
  rewrite max_payload_eq. intros H. apply NLMSG_SPACE_bounds. lia.
Qed.

Lemma send_buffer_size (reserved p : list byte) :
  length reserved = 16%nat ->
  vec_size p <= iccom_get_max_payload_size ->
  vec_size (send_buffer reserved p) = NLMSG_SPACE (vec_size p).
Proof.
  intros Hr Hp. pose proof (vec_size_nonneg p) as Hn.
  pose proof (NLMSG_SPACE_payload (vec_size p) ltac:(lia)) as Hs.
  rewrite max_payload_eq in Hp.
  unfold send_buffer. rewrite !vec_size_app.
  rewrite NLMSG_LENGTH_small by lia.
  unfold vec_size at 1 3. rewrite repeat_length, Hr. lia.
Qed.

(** Once the arguments are validated the header is written in place and
    the whole buffer goes to [write]. *)
Lemma iccom_send_data_nocopy_valid (wr : write_outcome) (fd : Z)
    (b : list byte) (n : Z) :
  0 < n <= iccom_get_max_payload_size ->
  vec_size b = NLMSG_SPACE n ->
  iccom_send_data_nocopy wr fd (Some b) (vec_size b) (NLMSG_LENGTH 0) n =
  let b' := nlmsghdr_bytes n ++ skipn 16 b in
  mk_send_result
    match wr with
    | WriteFailed err => - err
    | WriteDone res => if res =? vec_size b then 0 else - Errno.EPIPE
    end
    (Some b') [SysWrite fd b'].
Proof.
  intros Hn Hb.
  pose proof (NLMSG_SPACE_payload n ltac:(lia)) as Hs.
  rewrite max_payload_eq in Hn.
  unfold iccom_send_data_nocopy.
  rewrite Hb, !Z.eqb_refl. cbn [negb].
  replace (n >? ICCOM_SOCKET_MAX_MESSAGE_SIZE_BYTES) with false
    by (symmetry; unfold ICCOM_SOCKET_MAX_MESSAGE_SIZE_BYTES;
        rewrite Z.gtb_ltb; apply Z.ltb_ge; lia).
  replace (n =? 0) with false by (symmetry; apply Z.eqb_neq; lia).
  change (Z.to_nat sizeof_nlmsghdr) with 16%nat.
  cbv zeta.
  assert (Hl : firstn (Z.to_nat (NLMSG_SPACE n))
                      (nlmsghdr_bytes n ++ skipn 16 b)
               = nlmsghdr_bytes n ++ skipn 16 b).
  { apply firstn_all2.
    rewrite length_app, nlmsghdr_bytes_length, length_skipn.
    unfold vec_size in Hb. lia. }
  rewrite Hl.
  destruct wr as [err | res]; [reflexivity |].
  destruct (Z.eqb_spec res (NLMSG_SPACE n)); reflexivity.
Qed.

(** A read that delivers at least a header into a buffer that can hold
    what arrived. *)
Lemma iccom_receive_data_nocopy_frame (data rbuf : list byte) (fd off : Z) :
  sizeof_nlmsghdr <= vec_size data <= vec_size rbuf ->
  NLMSG_SPACE 0 < vec_size rbuf ->
  iccom_receive_data_nocopy (ReadDone data) fd rbuf (vec_size rbuf) (Some off) =
  let buffer := data ++ skipn (length data) rbuf in
  if vec_size data =? NLMSG_SPACE (nlmsg_len data)
  then mk_receive_result (C.to_int (nlmsg_len data)) buffer
                         (Some (NLMSG_LENGTH 0)) [SysRead fd (vec_size rbuf)]
  else mk_receive_result (- Errno.EBADE) buffer
                         (Some off) [SysRead fd (vec_size rbuf)].
Proof.
  intros Hd Hb. unfold sizeof_nlmsghdr in Hd.
  unfold iccom_receive_data_nocopy.
  replace (vec_size rbuf <=? NLMSG_SPACE 0) with false
    by (symmetry; apply Z.leb_gt; assumption).
  assert (Hf : firstn (Z.to_nat (vec_size rbuf)) data = data).
  { apply firstn_all2. unfold vec_size in *. lia. }
  rewrite Hf. fold (vec_size data). cbv zeta.
  replace (vec_size data =? 0) with false
    by (symmetry; apply Z.eqb_neq; lia).
  replace (vec_size data <? sizeof_nlmsghdr) with false
    by (symmetry; apply Z.ltb_ge; unfold sizeof_nlmsghdr; lia).
  rewrite nlmsg_len_app by (unfold vec_size in Hd; lia).
  destruct (Z.eqb_spec (vec_size data) (NLMSG_SPACE (nlmsg_len data)));
    reflexivity.
Qed.

End NocopyApi.

(** ** Round trip of a frame *)

Lemma wire_frame_size (p : list byte) :
  vec_size p <= iccom_get_max_payload_size ->
  vec_size (wire_frame p) = NLMSG_SPACE (vec_size p).
Proof.
  intros Hp. apply send_buffer_size; [apply nlmsghdr_bytes_length | assumption].
Qed.

Lemma wire_frame_nlmsg_len (p : list byte) :
  vec_size p <= iccom_get_max_payload_size ->
  nlmsg_len (wire_frame p) = vec_size p.
Proof.
  intros Hp. rewrite max_payload_eq in Hp.
  pose proof (vec_size_nonneg p).
  unfold wire_frame, send_buffer. apply nlmsg_len_header. lia.
Qed.

Lemma to_int_small (z : Z) : 0 <= z < 2 ^ 31 -> C.to_int z = z.
Proof.
  intros H. unfold C.to_int, C.uint_modulus.
  rewrite Z.mod_small by lia.
  destruct (Z.ltb_spec z (2 ^ 31)); [reflexivity | lia].
Qed.

(** The payload sits at [NLMSG_LENGTH(0)] in a frame. *)
Lemma wire_frame_payload (p rest : list byte) :
  firstn (length p) (skipn (Z.to_nat (NLMSG_LENGTH 0)) (wire_frame p ++ rest)) = p.
Proof.
  unfold wire_frame, send_buffer.
  change (Z.to_nat (NLMSG_LENGTH 0)) with (length (nlmsghdr_bytes (vec_size p))).
  rewrite <- !app_assoc.
  rewrite skipn_app, skipn_all, Nat.sub_diag. cbn [app skipn].
  rewrite firstn_app, firstn_all, Nat.sub_diag. cbn [firstn].
  apply app_nil_r.
Qed.

(** C2: for every payload [p] with [0 < len p <= iccom_get_max_payload_size],
    [iccom_send_data_nocopy] called on the buffer laid out for [p] (reserved
    header space, payload at [NLMSG_LENGTH(0)], zero padding up to
    [NLMSG_SPACE(len p)]) succeeds and writes the frame [wire_frame p]; when
    that frame is read back in full, [iccom_receive_data_nocopy] returns
    [len p], reports the data offset [NLMSG_LENGTH(0)] and the bytes of the
    receive buffer at that offset are [p]. *)
Theorem send_receive_roundtrip (p reserved rbuf : list byte) (fd_tx fd_rx off0 : Z) :
  0 < vec_size p <= iccom_get_max_payload_size ->
  length reserved = 16%nat ->
  iccom_get_required_buffer_size (vec_size p) <= vec_size rbuf ->
  let buf := send_buffer reserved p in
  let tx := iccom_send_data_nocopy (WriteDone (vec_size buf)) fd_tx (Some buf)
              (vec_size buf) (NLMSG_LENGTH 0) (vec_size p) in
  let rx := iccom_receive_data_nocopy (ReadDone (wire_frame p)) fd_rx rbuf
              (vec_size rbuf) (Some off0) in
  sr_ret tx = 0
  /\ sr_trace tx = [SysWrite fd_tx (wire_frame p)]
  /\ rr_ret rx = vec_size p
  /\ rr_data_offset rx = Some (NLMSG_LENGTH 0)
  /\ firstn (length p) (skipn (Z.to_nat (NLMSG_LENGTH 0)) (rr_buffer rx)) = p.
Proof.
  intros Hp Hr Hbuf buf tx rx.
  unfold iccom_get_required_buffer_size in Hbuf.
  pose proof (NLMSG_SPACE_payload (vec_size p) ltac:(lia)) as Hs.
  assert (Hsz : vec_size buf = NLMSG_SPACE (vec_size p))
    by (apply send_buffer_size; [assumption | lia]).
  assert (Htx : tx = mk_send_result 0 (Some (wire_frame p))
                                    [SysWrite fd_tx (wire_frame p)]).
  { subst tx. rewrite iccom_send_data_nocopy_valid by assumption.
    cbv zeta. rewrite Z.eqb_refl.
    assert (Hw : nlmsghdr_bytes (vec_size p) ++ skipn 16 buf = wire_frame p).
    { subst buf. unfold wire_frame, send_buffer.
      rewrite <- Hr at 1. rewrite skipn_app, skipn_all, Nat.sub_diag.
      reflexivity. }
    rewrite Hw. reflexivity. }
  assert (Hrx : rx = mk_receive_result (vec_size p)
                       (wire_frame p ++ skipn (length (wire_frame p)) rbuf)
                       (Some (NLMSG_LENGTH 0))
                       [SysRead fd_rx (vec_size rbuf)]).
  { subst rx.
    pose proof (wire_frame_size p ltac:(lia)) as Hws.
    rewrite iccom_receive_data_nocopy_frame
      by (rewrite ?Hws, ?NLMSG_SPACE_0; unfold sizeof_nlmsghdr; lia).
    cbv zeta. rewrite wire_frame_nlmsg_len by lia.
    rewrite Hws, Z.eqb_refl.
    rewrite to_int_small by (rewrite max_payload_eq in Hp; lia).
    reflexivity. }
  rewrite Htx, Hrx. cbn [sr_ret sr_trace rr_ret rr_data_offset rr_buffer].
  repeat split. apply wire_frame_payload.
Qed.

Lemma send_receive_roundtrip_witness :
  let buf := send_buffer (repeat xff 16) echo_payload in
  let tx := iccom_send_data_nocopy (WriteDone (vec_size buf)) 3 (Some buf)
              (vec_size buf) (NLMSG_LENGTH 0) (vec_size echo_payload) in
  let rx := iccom_receive_data_nocopy (ReadDone (wire_frame echo_payload)) 4
              (repeat x00 32) (vec_size (repeat x00 32)) (Some 0) in
  sr_ret tx = 0
  /\ sr_trace tx = [SysWrite 3 (wire_frame echo_payload)]
  /\ rr_ret rx = vec_size echo_payload
  /\ rr_data_offset rx = Some (NLMSG_LENGTH 0)
  /\ firstn (length echo_payload)
            (skipn (Z.to_nat (NLMSG_LENGTH 0)) (rr_buffer rx)) = echo_payload.
Proof.
  apply (send_receive_roundtrip echo_payload (repeat xff 16) (repeat x00 32) 3 4 0).
  - vm_compute. split; [reflexivity | discriminate].
  - reflexivity.
  - vm_compute. discriminate.
Defined.

(** ** IccomSocket: the class invariant *)

Section SocketInvariant.

Import Socket.

Lemma wf_fresh (channel : Z) : wf (fresh channel).
Proof.
  split; [vm_compute; split; discriminate | reflexivity].
Qed.

Lemma wf_open (opened : Z) (s : IccomSocket) : wf s -> wf (snd (open opened s)).
Proof.
  intros H. unfold open. destruct (m_sock_fd s >=? 0); exact H.
Qed.

Lemma wf_set_outgoing_resize (n : Z) (d : list byte) (s : IccomSocket) :
  0 <= n <= iccom_get_max_payload_size ->
  wf (set_outgoing (vec_resize (NLMSG_SPACE n) d) n s).
Proof.
  intros Hn. pose proof (NLMSG_SPACE_payload n Hn).
  split; cbn [set_outgoing m_outgoing_payload_size m_outgoing_data].
  - assumption.
  - apply vec_resize_size. lia.
Qed.

Lemma wf_reset_output (s : IccomSocket) : wf (reset_output s).
Proof.
  unfold reset_output. apply wf_set_outgoing_resize.
  rewrite max_payload_eq. lia.
Qed.

Lemma wf_append_char (ch : byte) (s : IccomSocket) :
  wf s -> wf (append_char ch s).
Proof.
  intros [Hn Hs]. unfold append_char.
  destruct (Z.geb_spec (m_outgoing_payload_size s) iccom_get_max_payload_size).
  - split; assumption.
  - rewrite max_payload_eq in *.
    unfold C.to_size, C.size_modulus. rewrite Z.mod_small by lia.
    apply wf_set_outgoing_resize. rewrite max_payload_eq. lia.
Qed.

Lemma wf_append (data : list byte) (s : IccomSocket) :
  wf s -> wf (append data s).
Proof.
  intros [Hn Hs]. unfold append.
  destruct (Z.geb_spec (C.to_size (m_outgoing_payload_size s + vec_size data))
                       iccom_get_max_payload_size) as [Hge | Hlt].
  - split; assumption.
  - apply wf_set_outgoing_resize.
    unfold C.to_size, C.size_modulus in *.
    pose proof (Z.mod_pos_bound (m_outgoing_payload_size s + vec_size data)
                                (2 ^ 64) ltac:(lia)).
    lia.
Qed.

(** [send] on a socket that holds a message: the arguments it passes to
    [iccom_send_data_nocopy] are valid, the header is written into
    [m_outgoing_data] and the buffer is written to the socket. *)
Lemma send_nonempty (wr : write_outcome) (reset : bool) (s : IccomSocket) :
  wf s -> m_outgoing_payload_size s <> 0 ->
  send wr reset s =
  let n := m_outgoing_payload_size s in
  let b' := nlmsghdr_bytes n ++ skipn 16 (m_outgoing_data s) in
  let res := match wr with
             | WriteFailed err => - err
             | WriteDone k =>
                 if k =? vec_size (m_outgoing_data s) then 0 else - Errno.EPIPE
             end in
  let s1 := set_outgoing b' n s in
  mk_call_result res
    (if res <? 0 then s1 else if reset then reset_output s1 else s1)
    [SysWrite (m_sock_fd s) b'].
Proof.
  intros [Hn Hs] Hne. unfold send.
  replace (m_outgoing_payload_size s =? 0) with false
    by (symmetry; apply Z.eqb_neq; assumption).
  rewrite iccom_send_data_nocopy_valid by (try assumption; lia).
  cbv zeta. cbn [sr_ret sr_buf sr_trace].
  destruct (_ <? 0); [reflexivity |].
  destruct reset; reflexivity.
Qed.

Lemma header_rewrite_size (n : Z) (b : list byte) :
  16 <= vec_size b ->
  vec_size (nlmsghdr_bytes n ++ skipn 16 b) = vec_size b.
Proof.
  intros H. unfold vec_size in *.
  rewrite length_app, nlmsghdr_bytes_length, length_skipn. lia.
Qed.

Lemma header_rewrite_tail (n : Z) (b : list byte) :
  skipn 16 (nlmsghdr_bytes n ++ skipn 16 b) = skipn 16 b.
Proof.
  change 16%nat with (length (nlmsghdr_bytes n)) at 1.
  rewrite skipn_app, skipn_all, Nat.sub_diag. reflexivity.
Qed.

Lemma wf_send (wr : write_outcome) (reset : bool) (s : IccomSocket) :
  wf s -> wf (cr_self (send wr reset s)).
Proof.
  intros Hwf.
  destruct (Z.eq_dec (m_outgoing_payload_size s) 0) as [E | Hne].
  - unfold send. rewrite E. exact Hwf.
  - rewrite send_nonempty by assumption. cbv zeta. cbn [cr_self].
    assert (Hs1 : wf (set_outgoing
                        (nlmsghdr_bytes (m_outgoing_payload_size s)
                         ++ skipn 16 (m_outgoing_data s))
                        (m_outgoing_payload_size s) s)).
    { destruct Hwf as [Hn Hs].
      pose proof (NLMSG_SPACE_payload _ Hn).
      split; cbn [set_outgoing m_outgoing_payload_size m_outgoing_data].
      - assumption.
      - rewrite header_rewrite_size by lia. assumption. }
    destruct (_ <? 0); [assumption |].
    destruct reset; [apply wf_reset_output | assumption].
Qed.

Lemma wf_set_incoming (d : list byte) (s : IccomSocket) :
  wf s -> wf (set_incoming d s).
Proof. intros H. exact H. Qed.

Lemma wf_receive (rd : read_outcome) (s : IccomSocket) :
  wf s -> wf (cr_self (receive rd s)).
Proof.
  intros H. unfold receive. cbv zeta.
  destruct (_ <=? 0); [exact H |].
  destruct (rr_data_offset _) as [off |]; [| exact H].
  destruct (negb _); exact H.
Qed.

End SocketInvariant.

(** ** IccomSocket::send *)

(** C7: for every IccomSocket whose outgoing payload size is 0, [send]
    returns 0, issues no system call (no transport write) and leaves the
    whole object, so both the outgoing and the incoming buffer, unchanged. *)
Theorem send_empty_is_noop (wr : write_outcome) (reset : bool) (s : IccomSocket) :
  Socket.output_size s = 0 ->
  Socket.send wr reset s = mk_call_result 0 s [].
Proof.
  unfold Socket.output_size, Socket.send. intros ->. reflexivity.
Qed.

Lemma send_empty_is_noop_witness :
  Socket.output_size (Socket.fresh 100) = 0
  /\ Socket.send (WriteDone 16) true (Socket.fresh 100)
     = mk_call_result 0 (Socket.fresh 100) [].
Proof.
  split; [reflexivity | apply send_empty_is_noop; reflexivity].
Defined.

(** C8, as stated, fails: on the socket of the echo scenario a [send] whose
    [write] fails with EPIPE returns a negative value, and the outgoing
    buffer is not as before the call: the reserved header space, all zero
    before, now holds the header with the length field 5. *)
Lemma send_failure_rewrites_header :
  Socket.wf echo_socket
  /\ cr_ret (Socket.send (WriteFailed Errno.EPIPE) true echo_socket) < 0
  /\ m_outgoing_data (cr_self (Socket.send (WriteFailed Errno.EPIPE) true echo_socket))
     <> m_outgoing_data echo_socket.
Proof.
  split; [| split].
  - apply wf_append, wf_open, wf_fresh.
  - reflexivity.
  - vm_compute. discriminate.
Qed.

(** C8 (amended): [send] on a socket that satisfies the class invariant.
    When the transmit fails (negative result) the payload size, the size of
    the outgoing buffer and every byte of it from the payload offset on
    (payload and padding, so the outgoing message) are as before the call;
    only the 16 bytes of reserved header space have been overwritten with
    the header (length field = payload size, rest zero), and a retry
    behaves exactly as it would have on the socket before the call.
    When it succeeds, the outgoing message is cleared (payload size 0,
    buffer of [NLMSG_SPACE(0)] bytes) if [reset_message_on_success] is true,
    and payload size, buffer size and the bytes from the payload offset on
    are kept if it is false. *)
Theorem send_failure_keeps_message (s : IccomSocket) (wr : write_outcome) (reset : bool) :
  Socket.wf s ->
  let r := Socket.send wr reset s in
  let kept :=
    m_outgoing_payload_size (cr_self r) = m_outgoing_payload_size s
    /\ vec_size (m_outgoing_data (cr_self r)) = vec_size (m_outgoing_data s)
    /\ skipn (Z.to_nat iccom_get_data_payload_offset) (m_outgoing_data (cr_self r))
       = skipn (Z.to_nat iccom_get_data_payload_offset) (m_outgoing_data s)
    /\ Socket.outgoing_payload (cr_self r) = Socket.outgoing_payload s in
  (cr_ret r < 0 ->
     kept
     /\ m_outgoing_data (cr_self r)
        = nlmsghdr_bytes (m_outgoing_payload_size s)
          ++ skipn (Z.to_nat iccom_get_data_payload_offset) (m_outgoing_data s)
     /\ forall wr' reset',
          Socket.send wr' reset' (cr_self r) = Socket.send wr' reset' s)
  /\ (0 <= cr_ret r -> reset = true ->
        Socket.output_size (cr_self r) = 0
        /\ vec_size (m_outgoing_data (cr_self r)) = NLMSG_SPACE 0)
  /\ (0 <= cr_ret r -> reset = false -> kept).
Proof.
  intros Hwf r kept. subst kept.
  change (Z.to_nat iccom_get_data_payload_offset) with 16%nat.
  destruct (Z.eq_dec (m_outgoing_payload_size s) 0) as [E | Hne].
  { (* nothing to send *)
    assert (Hr : r = mk_call_result 0 s [])
      by (subst r; unfold Socket.send; rewrite E; reflexivity).
    rewrite Hr. cbn [cr_ret cr_self].
    split; [intros H; lia |].
    split.
    - intros _ _. split; [exact E |].
      destruct Hwf as [_ Hs]. rewrite Hs, E. reflexivity.
    - intros _ _. repeat split. }
  pose proof Hwf as [Hn Hs].
  pose proof (NLMSG_SPACE_payload _ Hn) as Hsp.
  subst r. rewrite send_nonempty by assumption. cbv zeta.
  set (n := m_outgoing_payload_size s) in *.
  set (b := m_outgoing_data s) in *.
  set (res := match wr with
              | WriteFailed err => - err
              | WriteDone k => if k =? vec_size b then 0 else - Errno.EPIPE
              end).
  set (s1 := Socket.set_outgoing (nlmsghdr_bytes n ++ skipn 16 b) n s).
  assert (Hkept : m_outgoing_payload_size s1 = n
                  /\ vec_size (m_outgoing_data s1) = vec_size b
                  /\ skipn 16 (m_outgoing_data s1) = skipn 16 b
                  /\ Socket.outgoing_payload s1 = Socket.outgoing_payload s).
  { subst s1. unfold Socket.outgoing_payload.
    change (Z.to_nat NLMSG_HDRLEN) with 16%nat.
    cbn [Socket.set_outgoing m_outgoing_payload_size m_outgoing_data].
    rewrite header_rewrite_tail.
    split; [reflexivity |].
    split; [apply header_rewrite_size; lia |].
    split; reflexivity. }
  assert (Hwf1 : Socket.wf s1).
  { destruct Hkept as (H1 & H2 & _). split; rewrite ?H1, ?H2; assumption. }
  cbn [cr_ret cr_self].
  destruct (Z.ltb_spec res 0) as [Hneg | Hpos].
  - split; [| split; intros; lia].
    intros _. split; [exact Hkept |].
    split; [reflexivity |].
    intros wr' reset'.
    destruct Hkept as (H1 & H2 & H3 & _).
    rewrite !send_nonempty by (try assumption; rewrite ?H1; assumption).
    cbv zeta. rewrite H1, H2, H3. reflexivity.
  - split; [intros; lia |].
    split.
    + intros _ ->. split; [reflexivity |].
      exact (proj2 (wf_reset_output s1)).
    + intros _ ->. exact Hkept.
Qed.

Lemma send_failure_keeps_message_witness :
  let r := Socket.send (WriteFailed Errno.EPIPE) true echo_socket in
  Socket.wf echo_socket
  /\ cr_ret r < 0
  /\ (m_outgoing_payload_size (cr_self r) = m_outgoing_payload_size echo_socket
      /\ vec_size (m_outgoing_data (cr_self r)) = vec_size (m_outgoing_data echo_socket)
      /\ skipn (Z.to_nat iccom_get_data_payload_offset) (m_outgoing_data (cr_self r))
         = skipn (Z.to_nat iccom_get_data_payload_offset) (m_outgoing_data echo_socket)
      /\ Socket.outgoing_payload (cr_self r) = Socket.outgoing_payload echo_socket)
  /\ m_outgoing_data (cr_self r)
     = nlmsghdr_bytes (m_outgoing_payload_size echo_socket)
       ++ skipn (Z.to_nat iccom_get_data_payload_offset) (m_outgoing_data echo_socket)
  /\ forall wr' reset',
       Socket.send wr' reset' (cr_self r) = Socket.send wr' reset' echo_socket.
Proof.
  intros r.
  assert (Hwf : Socket.wf echo_socket) by (apply wf_append, wf_open, wf_fresh).
  assert (Hneg : cr_ret r < 0) by reflexivity.
  split; [exact Hwf |]. split; [exact Hneg |].
  exact (proj1 (send_failure_keeps_message echo_socket
                  (WriteFailed Errno.EPIPE) true Hwf) Hneg).
Defined.

(** ** IccomSocket: appending to the outgoing message *)

Section Append.

Import Socket.

(** The vector [<<] takes the data when the new size stays strictly below
    the maximum. *)
Lemma append_below_max (data : list byte) (s : IccomSocket) :
  wf s ->
  m_outgoing_payload_size s + vec_size data < iccom_get_max_payload_size ->
  output_size (append data s) = m_outgoing_payload_size s + vec_size data.
Proof.
  intros [Hn _] Hlt. pose proof (vec_size_nonneg data).
  rewrite max_payload_eq in *.
  unfold append, output_size, C.to_size, C.size_modulus.
  rewrite Z.mod_small by lia.
  destruct (Z.geb_spec (m_outgoing_payload_size s + vec_size data)
                       iccom_get_max_payload_size) as [Hge | _].
  - rewrite max_payload_eq in Hge. lia.
  - reflexivity.
Qed.

(** It drops the data as soon as the new size would reach the maximum,
    the exact fit included. *)
Lemma append_from_max (data : list byte) (s : IccomSocket) :
  wf s ->
  iccom_get_max_payload_size <= m_outgoing_payload_size s + vec_size data
    < C.size_modulus ->
  append data s = s.
Proof.
  intros [Hn _] Hge. unfold append, C.to_size.
  rewrite Z.mod_small by lia.
  destruct (Z.geb_spec (m_outgoing_payload_size s + vec_size data)
                       iccom_get_max_payload_size); [reflexivity | lia].
Qed.

(** The single character [<<] takes the character whenever the current
    size is below the maximum, so it can fill the message completely. *)
Lemma append_char_below_max (ch : byte) (s : IccomSocket) :
  wf s ->
  m_outgoing_payload_size s < iccom_get_max_payload_size ->
  output_size (append_char ch s) = m_outgoing_payload_size s + 1.
Proof.
  intros [Hn _] Hlt. rewrite max_payload_eq in *.
  unfold append_char, output_size, C.to_size, C.size_modulus.
  destruct (Z.geb_spec (m_outgoing_payload_size s) iccom_get_max_payload_size)
    as [Hge | _].
  - rewrite max_payload_eq in Hge. lia.
  - cbn [set_outgoing m_outgoing_payload_size]. apply Z.mod_small. lia.
Qed.

End Append.

(** C3, the source at a failing input: [a] is 4095 bytes and [b] is one
    byte, so [len a + len b] is exactly [iccom_get_max_payload_size] and
    stays within it.  After [<< a] the socket holds 4095 bytes and reports
    one byte of free space; [<< b] is then dropped and [output_size] stays
    4095 instead of 4096, although the single character [<<] does take the
    same byte. *)
Theorem append_exact_fit_is_dropped :
  vec_size (repeat x02 4095) + vec_size [x01] = iccom_get_max_payload_size
  /\ nearly_full_socket = Socket.append (repeat x02 4095) (Socket.fresh 100)
  /\ Socket.output_size nearly_full_socket = 4095
  /\ Socket.output_free_space nearly_full_socket = 1
  /\ Socket.output_size (Socket.append [x01] nearly_full_socket) = 4095
  /\ Socket.output_size (Socket.append_char x01 nearly_full_socket) = 4096.
Proof.
  repeat split; vm_compute; reflexivity.
Qed.

(** ** Receiving *)

Section Receive.

Import Socket.

(** The buffer [receive] reads into. *)
Lemma receive_buffer_size (d : list byte) :
  vec_size (vec_resize (NLMSG_SPACE iccom_get_max_payload_size) d) = 4112.
Proof. apply vec_resize_size. vm_compute. discriminate. Qed.

Lemma input_size_reset_input (s : IccomSocket) :
  input_size (reset_input s) = 0.
Proof. reflexivity. Qed.

(** A timeout ([read] fails with EAGAIN) and a closed connection ([read]
    delivers nothing) both make [iccom_receive_data_nocopy] return 0. *)
Lemma iccom_receive_data_nocopy_timeout (fd : Z) (rbuf : list byte) (off : Z) :
  NLMSG_SPACE 0 < vec_size rbuf ->
  iccom_receive_data_nocopy (ReadFailed Errno.EAGAIN) fd rbuf (vec_size rbuf)
                            (Some off)
  = mk_receive_result 0 rbuf (Some off) [SysRead fd (vec_size rbuf)].
Proof.
  intros H. unfold iccom_receive_data_nocopy.
  replace (vec_size rbuf <=? NLMSG_SPACE 0) with false
    by (symmetry; apply Z.leb_gt; assumption).
  reflexivity.
Qed.

Lemma iccom_receive_data_nocopy_closed (fd : Z) (rbuf : list byte) (off : Z) :
  NLMSG_SPACE 0 < vec_size rbuf ->
  iccom_receive_data_nocopy (ReadDone []) fd rbuf (vec_size rbuf) (Some off)
  = mk_receive_result 0 rbuf (Some off) [SysRead fd (vec_size rbuf)].
Proof.
  intros H. unfold iccom_receive_data_nocopy.
  replace (vec_size rbuf <=? NLMSG_SPACE 0) with false
    by (symmetry; apply Z.leb_gt; assumption).
  rewrite firstn_nil. reflexivity.
Qed.

(** Any other failure of [read] is passed on as the negated [errno]. *)
Lemma iccom_receive_data_nocopy_error (err fd : Z) (rbuf : list byte) (off : Z) :
  NLMSG_SPACE 0 < vec_size rbuf -> err <> Errno.EAGAIN ->
  iccom_receive_data_nocopy (ReadFailed err) fd rbuf (vec_size rbuf) (Some off)
  = mk_receive_result (- err) rbuf (Some off) [SysRead fd (vec_size rbuf)].
Proof.
  intros H He. unfold iccom_receive_data_nocopy.
  replace (vec_size rbuf <=? NLMSG_SPACE 0) with false
    by (symmetry; apply Z.leb_gt; assumption).
  replace (err =? Errno.EAGAIN) with false
    by (symmetry; apply Z.eqb_neq; assumption).
  reflexivity.
Qed.

(** A frame whose size does not fit its length field is dropped. *)
Lemma iccom_receive_data_nocopy_mismatch (frame rbuf : list byte) (fd off : Z) :
  sizeof_nlmsghdr <= vec_size frame <= vec_size rbuf ->
  NLMSG_SPACE 0 < vec_size rbuf ->
  iccom_get_required_buffer_size (nlmsg_len frame) <> vec_size frame ->
  iccom_receive_data_nocopy (ReadDone frame) fd rbuf (vec_size rbuf) (Some off)
  = mk_receive_result (- Errno.EBADE) (frame ++ skipn (length frame) rbuf)
                      (Some off) [SysRead fd (vec_size rbuf)].
Proof.
  intros Hf Hb Hne. rewrite iccom_receive_data_nocopy_frame by assumption.
  cbv zeta. unfold iccom_get_required_buffer_size in Hne.
  destruct (Z.eqb_spec (vec_size frame) (NLMSG_SPACE (nlmsg_len frame)));
    [congruence | reflexivity].
Qed.

End Receive.

(** C6: when the socket read times out ([read] fails with EAGAIN), and
    likewise when the peer has closed the connection ([read] returns no
    bytes), [IccomSocket::receive] returns 0, not an error, and afterwards
    the incoming buffer is empty and [input_size] is 0. *)
Theorem receive_timeout_returns_zero (s : IccomSocket) :
  (let r := Socket.receive (ReadFailed Errno.EAGAIN) s in
   cr_ret r = 0 /\ m_incoming_data (cr_self r) = []
   /\ Socket.input_size (cr_self r) = 0)
  /\ (let r := Socket.receive (ReadDone []) s in
      cr_ret r = 0 /\ m_incoming_data (cr_self r) = []
      /\ Socket.input_size (cr_self r) = 0).
Proof.
  pose proof (receive_buffer_size (m_incoming_data s)) as Hsz.
  assert (Hbig : NLMSG_SPACE 0 <
                 vec_size (vec_resize (NLMSG_SPACE iccom_get_max_payload_size)
                                      (m_incoming_data s)))
    by (rewrite Hsz; reflexivity).
  split; unfold Socket.receive; cbv zeta.
  - rewrite iccom_receive_data_nocopy_timeout by exact Hbig.
    cbn [rr_ret rr_buffer rr_trace Z.leb Z.compare cr_ret cr_self].
    repeat split.
  - rewrite iccom_receive_data_nocopy_closed by exact Hbig.
    cbn [rr_ret rr_buffer rr_trace Z.leb Z.compare cr_ret cr_self].
    repeat split.
Qed.

(** A frame whose size differs from the frame size the code computes for
    the declared payload length, [iccom_get_required_buffer_size], is
    dropped with [-EBADE]: by [iccom_receive_data_nocopy], which leaves the
    data offset alone, and by [IccomSocket::receive], which leaves
    [input_size] at 0. *)
Lemma receive_length_mismatch (frame : list byte) (s : IccomSocket) :
  sizeof_nlmsghdr <= vec_size frame
                  <= iccom_get_required_buffer_size iccom_get_max_payload_size ->
  iccom_get_required_buffer_size (nlmsg_len frame) <> vec_size frame ->
  (forall fd rbuf off,
      vec_size frame <= vec_size rbuf ->
      NLMSG_SPACE 0 < vec_size rbuf ->
      let r := iccom_receive_data_nocopy (ReadDone frame) fd rbuf
                 (vec_size rbuf) (Some off) in
      rr_ret r = - Errno.EBADE /\ rr_data_offset r = Some off)
  /\ (let r := Socket.receive (ReadDone frame) s in
      cr_ret r = - Errno.EBADE /\ Socket.input_size (cr_self r) = 0).
Proof.
  intros Hf Hne. rewrite required_buffer_size_max in Hf. split.
  - intros fd rbuf off Hfit Hbig r. subst r.
    rewrite iccom_receive_data_nocopy_mismatch by (try assumption; lia).
    split; reflexivity.
  - pose proof (receive_buffer_size (m_incoming_data s)) as Hsz.
    unfold Socket.receive. cbv zeta.
    rewrite iccom_receive_data_nocopy_mismatch
      by (rewrite ?Hsz; try assumption; try reflexivity; lia).
    cbn [rr_ret rr_buffer rr_trace cr_ret cr_self].
    change (- Errno.EBADE <=? 0) with true. cbn iota.
    split; reflexivity.
Qed.

(** ** The length check and the implied frame size *)

Lemma implied_frame_size_eq (d : Z) :
  implied_frame_size d = 4 * ((d + 19) / 4).
Proof.
  unfold implied_frame_size, NLMSG_ALIGNTO, NLMSG_HDRLEN.
  replace (16 + d + 4 - 1) with (d + 19) by lia. reflexivity.
Qed.

(** Up to 2^32 - 20 the frame size of the code is the implied one. *)
Lemma required_buffer_size_implied (d : Z) :
  0 <= d <= 2 ^ 32 - 20 ->
  iccom_get_required_buffer_size d = implied_frame_size d.
Proof.
  intros H. unfold iccom_get_required_buffer_size.
  rewrite NLMSG_SPACE_small by assumption.
  symmetry. apply implied_frame_size_eq.
Qed.

(** From 2^32 - 19 on a 32-bit length makes it wrap round to at most 16. *)
Lemma required_buffer_size_wrapped (d : Z) :
  2 ^ 32 - 19 <= d < 2 ^ 32 ->
  iccom_get_required_buffer_size d = 4 * ((d + 19 - 2 ^ 32) / 4).
Proof.
  intros H. unfold iccom_get_required_buffer_size. rewrite NLMSG_SPACE_eq.
  rewrite (Z.mod_small (d + 16)) by lia.
  rewrite (Z.mod_small (d + 16 + 3)) by lia.
  replace (d + 16 + 3) with ((d + 19 - 2 ^ 32) + 2 ^ 30 * 4) by lia.
  rewrite Z.div_add by lia.
  rewrite Z.add_mod by lia. rewrite Z.mod_same by lia. rewrite Z.add_0_r.
  rewrite Z.mod_mod by lia.
  rewrite Z.mod_small; [reflexivity |].
  split.
  - apply Z.div_pos; lia.
  - apply Z.div_lt_upper_bound; lia.
Qed.

(** The check of [iccom_receive_data_nocopy] rejects every frame whose size
    is not the one its length field implies, but for a header alone that
    declares 0xFFFFFFFD to 0xFFFFFFFF. *)
Lemma receive_implied_length_mismatch (frame : list byte) (s : IccomSocket) :
  sizeof_nlmsghdr <= vec_size frame
                  <= iccom_get_required_buffer_size iccom_get_max_payload_size ->
  implied_frame_size (nlmsg_len frame) <> vec_size frame ->
  ~ (vec_size frame = 16 /\ 2 ^ 32 - 3 <= nlmsg_len frame) ->
  (forall fd rbuf off,
      vec_size frame <= vec_size rbuf ->
      NLMSG_SPACE 0 < vec_size rbuf ->
      let r := iccom_receive_data_nocopy (ReadDone frame) fd rbuf
                 (vec_size rbuf) (Some off) in
      rr_ret r = - Errno.EBADE /\ rr_data_offset r = Some off)
  /\ (let r := Socket.receive (ReadDone frame) s in
      cr_ret r = - Errno.EBADE /\ Socket.input_size (cr_self r) = 0).
Proof.
  intros Hf Hne Hw. apply receive_length_mismatch; [exact Hf |].
  unfold sizeof_nlmsghdr in Hf.
  pose proof (u32_of_bytes_range frame) as Hr. fold (nlmsg_len frame) in Hr.
  destruct (Z_le_gt_dec (nlmsg_len frame) (2 ^ 32 - 20)) as [Hs | Hb].
  - rewrite required_buffer_size_implied by lia. exact Hne.
  - rewrite required_buffer_size_wrapped by lia.
    intros E.
    assert (Hd : (nlmsg_len frame + 19 - 2 ^ 32) / 4 < 5)
      by (apply Z.div_lt_upper_bound; lia).
    pose proof (Z.mul_div_le (nlmsg_len frame + 19 - 2 ^ 32) 4 ltac:(lia)) as Hm.
    apply Hw. split; lia.
Qed.

(** A header alone that declares 0xFFFFFFFD to 0xFFFFFFFF passes the check:
    the offset is stored and the declared length is returned as an [int],
    -3 to -1. *)
Lemma receive_wrapped_length (frame rbuf : list byte) (fd off : Z) :
  vec_size frame = 16 -> 2 ^ 32 - 3 <= nlmsg_len frame ->
  16 < vec_size rbuf ->
  let r := iccom_receive_data_nocopy (ReadDone frame) fd rbuf
             (vec_size rbuf) (Some off) in
  rr_ret r = nlmsg_len frame - 2 ^ 32
  /\ rr_data_offset r = Some (NLMSG_LENGTH 0).
Proof.
  intros Hsz Hd Hb r. subst r.
  pose proof (u32_of_bytes_range frame) as Hr. fold (nlmsg_len frame) in Hr.
  rewrite iccom_receive_data_nocopy_frame
    by (unfold sizeof_nlmsghdr; rewrite ?NLMSG_SPACE_0; lia).
  cbv zeta.
  assert (E : NLMSG_SPACE (nlmsg_len frame) = 16).
  { pose proof (required_buffer_size_wrapped (nlmsg_len frame) ltac:(lia)) as Hwr.
    unfold iccom_get_required_buffer_size in Hwr. rewrite Hwr.
    assert ((nlmsg_len frame + 19 - 2 ^ 32) / 4 = 4); [| lia].
    symmetry.
    apply Z.div_unique with (r := nlmsg_len frame + 19 - 2 ^ 32 - 16); lia. }
  rewrite E, Hsz. cbn [Z.eqb Pos.eqb rr_ret rr_data_offset].
  split; [| reflexivity].
  unfold C.to_int, C.uint_modulus. rewrite Z.mod_small by lia.
  destruct (Z.ltb_spec (nlmsg_len frame) (2 ^ 31)); [lia | reflexivity].
Qed.

(** C5, the source at a failing input: [read] delivers 16 bytes, a header
    alone whose length field is 0xFFFFFFFF.  The total frame size that
    length implies, 2^32 + 16, is not the 16 bytes read, and yet
    [iccom_receive_data_nocopy] does not answer [-EBADE]: the frame size it
    computes wraps round to 16, the check passes, 16 is stored through
    [data_offset__out] (7 before) and the declared length comes back as the
    [int] -1.  The length fields 0xFFFFFFFD and 0xFFFFFFFE give -3 and -2
    alike.  [IccomSocket::receive] returns -1, not [-EBADE]; [input_size]
    is 0 afterwards. *)
Theorem receive_wrapped_length_passes_check :
  let frame := nlmsghdr_bytes 0xFFFFFFFF in
  vec_size frame = 16
  /\ nlmsg_len frame = 0xFFFFFFFF
  /\ implied_frame_size (nlmsg_len frame) = 2 ^ 32 + 16
  /\ iccom_get_required_buffer_size (nlmsg_len frame) = 16
  /\ (let r := iccom_receive_data_nocopy (ReadDone frame) 3
                 (repeat xff 32) 32 (Some 7) in
      rr_ret r = -1 /\ rr_ret r <> - Errno.EBADE
      /\ rr_data_offset r = Some 16)
  /\ (let r := Socket.receive (ReadDone frame) echo_socket in
      cr_ret r = -1 /\ cr_ret r <> - Errno.EBADE
      /\ Socket.input_size (cr_self r) = 0)
  /\ rr_ret (iccom_receive_data_nocopy (ReadDone (nlmsghdr_bytes 0xFFFFFFFD)) 3
               (repeat xff 32) 32 (Some 7)) = -3
  /\ rr_ret (iccom_receive_data_nocopy (ReadDone (nlmsghdr_bytes 0xFFFFFFFE)) 3
               (repeat xff 32) 32 (Some 7)) = -2.
Proof.
  repeat split; vm_compute; try reflexivity; discriminate.
Qed.

(** ** The data offset and the size of the received message *)

Section ReceiveOutcomes.

Import Socket.

Lemma iccom_receive_data_nocopy_small_buffer (rd : read_outcome) (fd : Z)
    (rbuf : list byte) (size : Z) (out : option Z) :
  size <= NLMSG_SPACE 0 ->
  iccom_receive_data_nocopy rd fd rbuf size out
  = mk_receive_result (- Errno.ENFILE) rbuf out [].
Proof.
  intros H. unfold iccom_receive_data_nocopy.
  replace (size <=? NLMSG_SPACE 0) with true
    by (symmetry; apply Z.leb_le; assumption).
  reflexivity.
Qed.

Lemma iccom_receive_data_nocopy_truncated (frame rbuf : list byte) (fd off : Z) :
  0 < vec_size frame < sizeof_nlmsghdr ->
  vec_size frame <= vec_size rbuf ->
  NLMSG_SPACE 0 < vec_size rbuf ->
  iccom_receive_data_nocopy (ReadDone frame) fd rbuf (vec_size rbuf) (Some off)
  = mk_receive_result (- Errno.EBADE) (frame ++ skipn (length frame) rbuf)
                      (Some off) [SysRead fd (vec_size rbuf)].
Proof.
  intros Hf Hfit Hb. unfold iccom_receive_data_nocopy.
  replace (vec_size rbuf <=? NLMSG_SPACE 0) with false
    by (symmetry; apply Z.leb_gt; assumption).
  assert (Hfn : firstn (Z.to_nat (vec_size rbuf)) frame = frame).
  { apply firstn_all2. unfold vec_size in *. lia. }
  rewrite Hfn. fold (vec_size frame). cbv zeta.
  replace (vec_size frame =? 0) with false
    by (symmetry; apply Z.eqb_neq; lia).
  replace (vec_size frame <? sizeof_nlmsghdr) with true
    by (symmetry; apply Z.ltb_lt; lia).
  reflexivity.
Qed.

(** [read] never delivers more than the buffer holds. *)
Lemma iccom_receive_data_nocopy_truncates (arrived rbuf : list byte)
    (fd size : Z) (out : option Z) :
  iccom_receive_data_nocopy (ReadDone arrived) fd rbuf size out
  = iccom_receive_data_nocopy (ReadDone (firstn (Z.to_nat size) arrived))
                              fd rbuf size out.
Proof.
  unfold iccom_receive_data_nocopy.
  rewrite firstn_firstn, Nat.min_id. reflexivity.
Qed.

Lemma to_int_positive (d : Z) :
  0 <= d < 2 ^ 32 -> 0 < C.to_int d -> C.to_int d = d /\ d < 2 ^ 31.
Proof.
  intros Hd. unfold C.to_int, C.uint_modulus.
  rewrite Z.mod_small by assumption.
  destruct (Z.ltb_spec d (2 ^ 31)); lia.
Qed.

Lemma nlmsg_len_resize (n : Z) (v : list byte) :
  4 <= n -> 4 <= vec_size v -> nlmsg_len (vec_resize n v) = nlmsg_len v.
Proof.
  intros Hn Hv. unfold vec_resize, vec_size in *.
  rewrite nlmsg_len_app by (rewrite length_firstn; lia).
  unfold nlmsg_len, u32_of_bytes. rewrite !nth_firstn.
  replace (0 <? Z.to_nat n)%nat with true by (symmetry; apply Nat.ltb_lt; lia).
  replace (1 <? Z.to_nat n)%nat with true by (symmetry; apply Nat.ltb_lt; lia).
  replace (2 <? Z.to_nat n)%nat with true by (symmetry; apply Nat.ltb_lt; lia).
  replace (3 <? Z.to_nat n)%nat with true by (symmetry; apply Nat.ltb_lt; lia).
  reflexivity.
Qed.

(** [receive] on a frame that passes the checks of
    [iccom_receive_data_nocopy]. *)
Lemma receive_frame (data : list byte) (s : IccomSocket) :
  sizeof_nlmsghdr <= vec_size data <= 4112 ->
  vec_size data = NLMSG_SPACE (nlmsg_len data) ->
  0 < C.to_int (nlmsg_len data) ->
  receive (ReadDone data) s =
  let buf := vec_resize (NLMSG_SPACE iccom_get_max_payload_size)
                        (m_incoming_data s) in
  mk_call_result (nlmsg_len data)
    (set_incoming
       (vec_resize (NLMSG_LENGTH (nlmsg_len data))
                   (data ++ skipn (length data) buf))
       (set_incoming (data ++ skipn (length data) buf) s))
    [SysRead (m_sock_fd s) 4112].
Proof.
  intros Hd Hm Hpos.
  pose proof (receive_buffer_size (m_incoming_data s)) as Hsz.
  assert (Hr : 0 <= nlmsg_len data < 2 ^ 32) by apply u32_of_bytes_range.
  destruct (to_int_positive _ Hr Hpos) as [Hi _].
  unfold receive. cbv zeta.
  rewrite iccom_receive_data_nocopy_frame
    by (rewrite ?Hsz; try assumption; reflexivity).
  cbv zeta. rewrite <- Hm, Z.eqb_refl.
  cbn [rr_ret rr_buffer rr_trace rr_data_offset].
  replace (C.to_int (nlmsg_len data) <=? 0) with false
    by (symmetry; apply Z.leb_gt; assumption).
  rewrite Z.eqb_refl. cbn [negb]. rewrite Hi, Hsz. reflexivity.
Qed.

(** A positive result of [receive] is the result of
    [iccom_receive_data_nocopy], which then reported the data offset. *)
Lemma receive_positive_inv (rd : read_outcome) (s : IccomSocket)
    (r0 : receive_result) :
  r0 = iccom_receive_data_nocopy rd (m_sock_fd s)
         (vec_resize (NLMSG_SPACE iccom_get_max_payload_size) (m_incoming_data s))
         4112 (Some 0) ->
  0 < cr_ret (receive rd s) ->
  0 < rr_ret r0
  /\ rr_data_offset r0 = Some (NLMSG_LENGTH 0)
  /\ receive rd s =
     mk_call_result (rr_ret r0)
       (set_incoming (vec_resize (NLMSG_LENGTH (rr_ret r0)) (rr_buffer r0))
                     (set_incoming (rr_buffer r0) s))
       (rr_trace r0).
Proof.
  intros Er0. unfold receive. cbv zeta.
  rewrite receive_buffer_size, <- Er0.
  destruct (Z.leb_spec (rr_ret r0) 0) as [Hle | Hgt].
  - cbn [cr_ret]. lia.
  - destruct (rr_data_offset r0) as [off |]; [| cbn; lia].
    destruct (Z.eqb_spec off (NLMSG_LENGTH 0)) as [-> | Hne];
      cbn [negb cr_ret]; [| cbn; lia].
    intros _. repeat split. assumption.
Qed.

(** After every [receive] that returns a positive value, [input_size] is
    that value less the 16 bytes of [NLMSG_SPACE(0)], computed in
    [unsigned int]: the length field of this implementation holds the
    payload size, and [input_size] takes it for the size of the whole
    message.  In particular it never equals the returned size. *)
Lemma receive_success_input_size (rd : read_outcome) (s : IccomSocket) :
  let r := receive rd s in
  0 < cr_ret r ->
  input_size (cr_self r) = C.to_uint (cr_ret r - NLMSG_SPACE 0)
  /\ input_size (cr_self r) <> cr_ret r.
Proof.
  intros r Hpos. subst r.
  pose proof (receive_buffer_size (m_incoming_data s)) as Hsz.
  set (buf := vec_resize (NLMSG_SPACE iccom_get_max_payload_size)
                         (m_incoming_data s)) in *.
  assert (Hbig : NLMSG_SPACE 0 < vec_size buf) by (rewrite Hsz; reflexivity).
  destruct (receive_positive_inv rd s _ eq_refl Hpos) as (Hret & Hoff & Heq).
  fold buf in Hret, Hoff, Heq. rewrite <- Hsz in Hret, Hoff, Heq.
  clear Hpos. rewrite Heq. clear Heq. cbn [cr_ret cr_self].
  destruct rd as [err | arrived].
  { (* a failed read reports no offset *)
    exfalso. destruct (Z.eq_dec err Errno.EAGAIN) as [-> | Hne].
    - rewrite iccom_receive_data_nocopy_timeout in Hoff by exact Hbig.
      discriminate Hoff.
    - rewrite iccom_receive_data_nocopy_error in Hoff by assumption.
      discriminate Hoff. }
  rewrite iccom_receive_data_nocopy_truncates in Hret, Hoff |- *.
  set (data := firstn (Z.to_nat (vec_size buf)) arrived) in *.
  assert (Hlen : vec_size data <= vec_size buf).
  { subst data. unfold vec_size at 1. rewrite length_firstn.
    pose proof (vec_size_nonneg buf). lia. }
  pose proof (vec_size_nonneg data) as Hnn.
  destruct (Z.eq_dec (vec_size data) 0) as [E0 | Hne0].
  { exfalso. assert (data = []) as ->
      by (destruct data; [reflexivity | discriminate E0]).
    rewrite iccom_receive_data_nocopy_closed in Hoff by exact Hbig.
    discriminate Hoff. }
  destruct (Z.lt_ge_cases (vec_size data) sizeof_nlmsghdr) as [Hshort | Hhdr].
  { exfalso.
    rewrite iccom_receive_data_nocopy_truncated in Hoff
      by (try exact Hbig; lia).
    discriminate Hoff. }
  rewrite iccom_receive_data_nocopy_frame in Hret, Hoff |- *
    by (try exact Hbig; lia).
  cbv zeta in Hret, Hoff |- *.
  destruct (Z.eqb_spec (vec_size data) (NLMSG_SPACE (nlmsg_len data)))
    as [Hm | Hm]; [| discriminate Hoff].
  cbn [rr_ret rr_buffer] in Hret |- *.
  assert (Hr : 0 <= nlmsg_len data < 2 ^ 32) by apply u32_of_bytes_range.
  destruct (to_int_positive _ Hr Hret) as [Hi Hlt].
  rewrite Hi.
  unfold input_size. cbn [set_incoming m_incoming_data].
  rewrite NLMSG_LENGTH_small by lia.
  rewrite vec_resize_size by lia.
  replace (nlmsg_len data + 16 >=? NLMSG_SPACE 0) with true
    by (symmetry; rewrite NLMSG_SPACE_0, Z.geb_leb; apply Z.leb_le; lia).
  rewrite nlmsg_len_resize
    by (rewrite ?vec_size_app; unfold sizeof_nlmsghdr in Hhdr;
        pose proof (vec_size_nonneg (skipn (length data) buf)); lia).
  rewrite nlmsg_len_app
    by (unfold vec_size, sizeof_nlmsghdr in Hhdr; lia).
  unfold NLMSG_PAYLOAD0. split; [reflexivity |].
  rewrite NLMSG_SPACE_0. unfold C.to_uint, C.uint_modulus.
  destruct (Z.lt_ge_cases (nlmsg_len data) 16).
  - rewrite <- (Z_mod_plus_full (nlmsg_len data - 16) 1 (2 ^ 32)).
    rewrite Z.mod_small by lia. lia.
  - rewrite Z.mod_small by lia. lia.
Qed.

End ReceiveOutcomes.

(** C4, the source at a failing input, the echo scenario: the socket on
    channel 100 sends the 5 bytes 00 01 02 03 04, the peer echoes the frame
    and [receive] returns 5.  [operator[]] at 0 yields the first payload
    byte, but [input_size] is 4294967285 (5 - 16 in [unsigned int]) and not
    5. *)
Theorem receive_echo_input_size :
  let sent := Socket.send (WriteDone 24) true echo_socket in
  let rcv := Socket.receive (ReadDone (wire_frame echo_payload)) (cr_self sent) in
  cr_ret sent = 0
  /\ cr_trace sent = [SysWrite 3 (wire_frame echo_payload)]
  /\ cr_ret rcv = 5
  /\ Socket.index 0 (cr_self rcv) = Some x00
  /\ Socket.input_size (cr_self rcv) = 4294967285.
Proof.
  repeat split; vm_compute; reflexivity.
Qed.

(** C10, the source at a failing input: a frame that consists of a header
    alone, with the length field 0, is read in full.  The function returns
    0, no positive payload length, and yet it has stored 16 through
    [data_offset__out], which held 7 before.  With the length field
    0xFFFFFFFF the same 16 bytes make it store the offset and return -1. *)
Theorem receive_nocopy_empty_frame_sets_offset :
  (let r := iccom_receive_data_nocopy (ReadDone (nlmsghdr_bytes 0)) 3
              (repeat xff 32) 32 (Some 7) in
   rr_ret r = 0 /\ rr_data_offset r = Some 16)
  /\ (let r := iccom_receive_data_nocopy (ReadDone (nlmsghdr_bytes 0xFFFFFFFF)) 3
                 (repeat xff 32) 32 (Some 7) in
      rr_ret r = -1 /\ rr_data_offset r = Some 16).
Proof.
  repeat split; vm_compute; reflexivity.
Qed.

(** On the outcomes the interface lists as failures the variable behind
    [data_offset__out] keeps its value: it is only written once a frame
    with a complete header and a size that fits its length field was
    read. *)
Lemma receive_nocopy_offset_written (rd : read_outcome) (fd : Z)
    (rbuf : list byte) (off : Z) :
  NLMSG_SPACE 0 < vec_size rbuf ->
  let r := iccom_receive_data_nocopy rd fd rbuf (vec_size rbuf) (Some off) in
  rr_data_offset r <> Some off ->
  exists arrived,
    rd = ReadDone arrived
    /\ let data := firstn (Z.to_nat (vec_size rbuf)) arrived in
       sizeof_nlmsghdr <= vec_size data
       /\ vec_size data = NLMSG_SPACE (nlmsg_len data)
       /\ rr_ret r = C.to_int (nlmsg_len data).
Proof.
  intros Hbig r Hoff. subst r.
  destruct rd as [err | arrived].
  { exfalso. apply Hoff. destruct (Z.eq_dec err Errno.EAGAIN) as [-> | Hne].
    - rewrite iccom_receive_data_nocopy_timeout by exact Hbig. reflexivity.
    - rewrite iccom_receive_data_nocopy_error by assumption. reflexivity. }
  exists arrived. split; [reflexivity |].
  rewrite iccom_receive_data_nocopy_truncates in Hoff |- *.
  set (data := firstn (Z.to_nat (vec_size rbuf)) arrived) in *. cbv zeta.
  assert (Hlen : vec_size data <= vec_size rbuf).
  { subst data. unfold vec_size at 1. rewrite length_firstn.
    pose proof (vec_size_nonneg rbuf). lia. }
  pose proof (vec_size_nonneg data) as Hnn.
  destruct (Z.eq_dec (vec_size data) 0) as [E0 | Hne0].
  { exfalso. apply Hoff. assert (data = []) as ->
      by (destruct data; [reflexivity | discriminate E0]).
    rewrite iccom_receive_data_nocopy_closed by exact Hbig. reflexivity. }
  destruct (Z.lt_ge_cases (vec_size data) sizeof_nlmsghdr) as [Hshort | Hhdr].
  { exfalso. apply Hoff.
    rewrite iccom_receive_data_nocopy_truncated by (try exact Hbig; lia).
    reflexivity. }
  rewrite iccom_receive_data_nocopy_frame in Hoff |- * by (try exact Hbig; lia).
  cbv zeta in Hoff |- *.
  destruct (Z.eqb_spec (vec_size data) (NLMSG_SPACE (nlmsg_len data)))
    as [Hm | Hm].
  - repeat split; assumption.
  - exfalso. apply Hoff. reflexivity.
Qed.

(** * Further properties of the sources *)

(** ** Channels *)

(** X1: [iccom_channel_verify] returns 0 exactly on the channels of the
    primary and of the loopback range, which together are 0..0xFFFF, and
    [-EINVAL] on every other [int]. *)
Theorem iccom_channel_verify_ranges (channel : Z) :
  (iccom_channel_verify channel = 0
   <-> (in_primary_range channel \/ in_loopback_range channel))
  /\ (iccom_channel_verify channel = 0 <-> (0 <= channel <= 0xFFFF))
  /\ (iccom_channel_verify channel <> 0 ->
      iccom_channel_verify channel = - Errno.EINVAL).
Proof.
  unfold iccom_channel_verify, in_primary_range, in_loopback_range,
    ICCOM_MIN_CHANNEL, ICCOM_MAX_CHANNEL, Errno.EINVAL.
  cbv zeta.
  destruct (Z.ltb_spec channel 0); cbn [orb].
  - repeat split; intros; try lia; try discriminate.
  - destruct (Z.gtb_spec channel (32767 + (32767 - 0 + 1))).
    + repeat split; intros; try lia; try discriminate.
    + repeat split; intros; try lia; try discriminate.
Qed.

Lemma to_int_of_uint (z : Z) :
  C.is_uint z ->
  C.to_int z = if z <? 2 ^ 31 then z else z - 2 ^ 32.
Proof.
  intros H. unfold C.is_uint, C.uint_modulus in H.
  unfold C.to_int, C.uint_modulus. rewrite Z.mod_small by assumption.
  reflexivity.
Qed.

Lemma channel_verify_of_uint (channel : Z) :
  C.is_uint channel ->
  (iccom_channel_verify (C.to_int channel) <? 0) = (0xFFFF <? channel).
Proof.
  intros H. rewrite to_int_of_uint by assumption.
  unfold C.is_uint, C.uint_modulus in H.
  unfold iccom_channel_verify, ICCOM_MIN_CHANNEL, ICCOM_MAX_CHANNEL, Errno.EINVAL.
  cbv zeta.
  destruct (Z.ltb_spec channel (2 ^ 31)).
  - destruct (Z.ltb_spec channel 0); [lia |]. cbn [orb].
    destruct (Z.gtb_spec channel (32767 + (32767 - 0 + 1)));
      destruct (Z.ltb_spec 65535 channel); try reflexivity; lia.
  - destruct (Z.ltb_spec (channel - 2 ^ 32) 0); [| lia]. cbn [orb].
    destruct (Z.ltb_spec 65535 channel); [reflexivity | lia].
Qed.

(** X2: the constructor of [IccomSocket] accepts an [unsigned int] channel
    exactly when it is at most 0xFFFF; the object it builds is not open, has
    no input and no output, and satisfies the class invariant; for every
    larger channel, also those that are negative as an [int], it throws. *)
Theorem constructor_accepts_up_to_0xFFFF (channel : Z) :
  C.is_uint channel ->
  (channel <= 0xFFFF ->
   exists s, Socket.create channel = Some s
             /\ Socket.is_open s = false /\ m_channel s = channel
             /\ Socket.output_size s = 0 /\ Socket.input_size s = 0
             /\ Socket.wf s)
  /\ (0xFFFF < channel -> Socket.create channel = None).
Proof.
  intros H. unfold Socket.create.
  rewrite channel_verify_of_uint by assumption.
  split; intros Hc.
  - replace (65535 <? channel) with false by (symmetry; apply Z.ltb_ge; lia).
    exists (Socket.fresh channel).
    repeat split; try reflexivity; vm_compute; discriminate.
  - replace (65535 <? channel) with true by (symmetry; apply Z.ltb_lt; lia).
    reflexivity.
Qed.

Lemma constructor_accepts_up_to_0xFFFF_witness :
  C.is_uint 100
  /\ (exists s, Socket.create 100 = Some s
                /\ Socket.is_open s = false /\ m_channel s = 100
                /\ Socket.output_size s = 0 /\ Socket.input_size s = 0
                /\ Socket.wf s)
  /\ Socket.create (2 ^ 32 - 1) = None.
Proof.
  assert (H1 : C.is_uint 100) by (vm_compute; split; [discriminate | reflexivity]).
  assert (H2 : C.is_uint (2 ^ 32 - 1))
    by (vm_compute; split; [discriminate | reflexivity]).
  split; [exact H1 |]. split.
  - apply (proj1 (constructor_accepts_up_to_0xFFFF 100 H1)). vm_compute. discriminate.
  - apply (proj2 (constructor_accepts_up_to_0xFFFF (2 ^ 32 - 1) H2)). reflexivity.
Defined.

(** X3: [LUN_CID_2_CH] packs a channel id below 128 and a logical unit
    number into one channel number, [lun * 128 + cid], from which both can
    be read back; the channel lies in the primary range exactly when the
    logical unit number is below 256. *)
Theorem LUN_CID_2_CH_unpacks (lun cid : Z) :
  0 <= lun < 2 ^ 25 -> 0 <= cid < 128 ->
  let ch := LUN_CID_2_CH lun cid in
  ch = lun * 128 + cid
  /\ Z.shiftr ch 7 = lun
  /\ Z.land ch 127 = cid
  /\ (in_primary_range ch <-> lun < 256).
Proof.
  intros Hl Hc ch.
  assert (Hch : ch = Z.lor (Z.shiftl lun 7) cid).
  { subst ch. unfold LUN_CID_2_CH, C.to_uint, C.uint_modulus.
    rewrite (Z.mod_small lun) by lia.
    rewrite (Z.mod_small cid) by lia.
    rewrite Z.mod_small; [reflexivity |].
    rewrite Z.shiftl_mul_pow2 by lia. change (2 ^ 7) with 128. lia. }
  assert (Hhi : Z.shiftr ch 7 = lun).
  { rewrite Hch, Z.shiftr_lor.
    rewrite Z.shiftr_shiftl_l by lia. replace (7 - 7) with 0 by lia.
    rewrite Z.shiftl_0_r.
    rewrite (Z.shiftr_div_pow2 cid) by lia. change (2 ^ 7) with 128.
    rewrite Z.div_small by lia. apply Z.lor_0_r. }
  assert (Hlo : Z.land ch 127 = cid).
  { rewrite Hch. change 127 with (Z.ones 7).
    rewrite Z.land_ones by lia.
    rewrite <- Z.land_ones by lia.
    rewrite Z.land_lor_distr_l.
    rewrite (Z.land_ones (Z.shiftl lun 7)) by lia.
    rewrite Z.shiftl_mul_pow2 by lia. rewrite Z.mod_mul by lia.
    rewrite Z.land_ones by lia. change (2 ^ 7) with 128.
    rewrite Z.mod_small by lia. reflexivity. }
  assert (Hsum : ch = lun * 128 + cid).
  { assert (0 <= ch).
    { rewrite Hch. apply Z.lor_nonneg. split; [| lia].
      apply Z.shiftl_nonneg. lia. }
    pose proof (Z.div_mod ch 128 ltac:(lia)) as Hdm.
    rewrite Z.shiftr_div_pow2 in Hhi by lia. change (2 ^ 7) with 128 in Hhi.
    change 127 with (Z.ones 7) in Hlo. rewrite Z.land_ones in Hlo by lia.
    change (2 ^ 7) with 128 in Hlo. lia. }
  repeat split; try assumption.
  all: unfold in_primary_range, ICCOM_MIN_CHANNEL, ICCOM_MAX_CHANNEL; lia.
Qed.

Lemma LUN_CID_2_CH_unpacks_witness :
  let ch := LUN_CID_2_CH 3 5 in
  ch = 3 * 128 + 5 /\ Z.shiftr ch 7 = 3 /\ Z.land ch 127 = 5
  /\ (in_primary_range ch <-> 3 < 256).
Proof.
  apply (LUN_CID_2_CH_unpacks 3 5); vm_compute; split;
    [discriminate | reflexivity | discriminate | reflexivity].
Defined.

(** ** The read timeout *)

Lemma timeval_of_ms_normal (ms : Z) :
  0 <= ms ->
  0 <= tv_sec (timeval_of_ms ms)
  /\ 0 <= tv_usec (timeval_of_ms ms) < 1000000
  /\ tv_sec (timeval_of_ms ms) * 1000
     + Z.quot (tv_usec (timeval_of_ms ms)) 1000 = ms.
Proof.
  intros H. unfold timeval_of_ms. cbn [tv_sec tv_usec].
  rewrite Z.quot_div_nonneg by lia.
  pose proof (Z.div_mod ms 1000 ltac:(lia)) as Hdm.
  pose proof (Z.mod_pos_bound ms 1000 ltac:(lia)) as Hb.
  replace (ms - ms / 1000 * 1000) with (ms mod 1000) by lia.
  rewrite Z.quot_div_nonneg by lia.
  rewrite Z.div_mul by lia.
  assert (0 <= ms / 1000) by (apply Z.div_pos; lia).
  lia.
Qed.

(** X4: for every timeout of 0 or more milliseconds that fits an [int],
    [iccom_set_socket_read_timeout] hands a normalised [struct timeval] to
    [setsockopt] (seconds not negative, microseconds below one million),
    and [iccom_get_socket_read_timeout] on that [struct timeval] returns
    the same number of milliseconds. *)
Theorem read_timeout_roundtrip (ms fd : Z) :
  0 <= ms < 2 ^ 31 ->
  let tv := timeval_of_ms ms in
  iccom_set_socket_read_timeout SetsockoptDone fd ms
  = (0, [EvSetsockopt fd tv])
  /\ 0 <= tv_sec tv
  /\ 0 <= tv_usec tv < 1000000
  /\ iccom_get_socket_read_timeout (GetsockoptDone tv) fd
     = (ms, [EvGetsockopt fd]).
Proof.
  intros H tv. subst tv.
  destruct (timeval_of_ms_normal ms ltac:(lia)) as (Hs & Hu & Hsum).
  unfold iccom_set_socket_read_timeout, iccom_get_socket_read_timeout.
  replace (ms <? 0) with false by (symmetry; apply Z.ltb_ge; lia).
  rewrite Hsum, to_int_small by assumption.
  repeat split; try assumption; lia.
Qed.

Lemma read_timeout_roundtrip_witness :
  let tv := timeval_of_ms 1500 in
  iccom_set_socket_read_timeout SetsockoptDone 3 1500
  = (0, [EvSetsockopt 3 tv])
  /\ 0 <= tv_sec tv
  /\ 0 <= tv_usec tv < 1000000
  /\ iccom_get_socket_read_timeout (GetsockoptDone tv) 3
     = (1500, [EvGetsockopt 3]).
Proof.
  apply (read_timeout_roundtrip 1500 3).
  vm_compute. split; [discriminate | reflexivity].
Defined.

(** ** Opening a socket *)

Section OpenSocket.

Lemma snprintf_d_channel (channel : Z) :
  0 <= channel <= 0xFFFF -> snprintf_d channel <= 5.
Proof.
  intros H. unfold snprintf_d.
  replace (channel <? 0) with false by (symmetry; apply Z.ltb_ge; lia).
  cbn [decimal_digits].
  assert (H4 : channel / 10 / 10 / 10 / 10 < 10).
  { rewrite !Z.div_div by lia. apply Z.div_lt_upper_bound; lia. }
  repeat match goal with
         | |- context [?a <? 10] => destruct (Z.ltb_spec a 10)
         end; lia.
Qed.

(** For a channel that passes the check, [iccom_open_socket] resolves the
    address and walks through the candidates. *)
Lemma iccom_open_socket_valid (gai : getaddrinfo_outcome) (channel : Z) :
  0 <= channel <= 0xFFFF ->
  iccom_open_socket gai channel =
  match gai with
  | GaiFailed _ => (- Errno.EINVAL, [EvGetaddrinfo channel])
  | GaiDone candidates =>
      let r := connect_first 0 candidates in
      let trace := EvGetaddrinfo channel :: snd r ++ [EvFreeaddrinfo] in
      match fst r with
      | None => (- Errno.EPIPE, trace)
      | Some sock_fd => (sock_fd, trace)
      end
  end.
Proof.
  intros H. unfold iccom_open_socket.
  assert (Hu : C.is_uint channel)
    by (unfold C.is_uint, C.uint_modulus; lia).
  rewrite channel_verify_of_uint by assumption.
  replace (65535 <? channel) with false by (symmetry; apply Z.ltb_ge; lia).
  rewrite to_int_small by lia.
  pose proof (snprintf_d_channel channel H) as Hd.
  replace (snprintf_d channel >=? SERVICE_STR_SIZE) with false
    by (symmetry; rewrite Z.geb_leb; apply Z.leb_gt;
        unfold SERVICE_STR_SIZE; lia).
  reflexivity.
Qed.

Lemma connect_first_none (i : nat) (cs : list candidate_outcome) :
  forallb (fun c => negb (is_connected c)) cs = true ->
  fst (connect_first i cs) = None.
Proof.
  revert i. induction cs as [| c cs IH]; intros i H; [reflexivity |].
  cbn [forallb] in H. apply andb_prop in H as [Hc Hr].
  destruct c; cbn [connect_first fst]; try (apply IH; assumption).
  discriminate Hc.
Qed.

Lemma connect_first_some (i : nat) (pre post : list candidate_outcome) (fd : Z) :
  forallb (fun c => negb (is_connected c)) pre = true ->
  fst (connect_first i (pre ++ Connected fd :: post)) = Some fd.
Proof.
  revert i. induction pre as [| c pre IH]; intros i H; [reflexivity |].
  cbn [forallb] in H. apply andb_prop in H as [Hc Hr].
  destruct c; cbn [app connect_first fst]; try (apply IH; assumption).
  discriminate Hc.
Qed.

Lemma open_fds_fold_app (f := fun acc e =>
                             match e with
                             | EvSocket _ fd => if fd <? 0 then acc else fd :: acc
                             | EvClose fd => remove_fd fd acc
                             | _ => acc
                             end)
    (i : nat) (cs : list candidate_outcome) (acc : list Z) :
  Forall candidate_valid cs ->
  fold_left f (snd (connect_first i cs)) acc
  = match fst (connect_first i cs) with
    | None => acc
    | Some fd => fd :: acc
    end.
Proof.
  revert i acc. induction cs as [| c cs IH]; intros i acc Hv; [reflexivity |].
  inversion Hv as [| ? ? Hc Hr]; subst.
  destruct c as [e | fd e | fd]; cbn [connect_first fst snd fold_left].
  - subst f. cbn beta iota. change (-1 <? 0) with true. cbn iota.
    apply IH. assumption.
  - cbn [candidate_valid] in Hc. subst f. cbn beta iota.
    replace (fd <? 0) with false by (symmetry; apply Z.ltb_ge; assumption).
    cbn [remove_fd]. rewrite Z.eqb_refl.
    apply IH. assumption.
  - cbn [candidate_valid] in Hc. subst f. cbn beta iota.
    replace (fd <? 0) with false by (symmetry; apply Z.ltb_ge; assumption).
    reflexivity.
Qed.

Lemma connect_first_fd_nonneg (i : nat) (cs : list candidate_outcome) (fd : Z) :
  Forall candidate_valid cs ->
  fst (connect_first i cs) = Some fd -> 0 <= fd.
Proof.
  revert i. induction cs as [| c cs IH]; intros i Hv H; [discriminate H |].
  inversion Hv as [| ? ? Hc Hr]; subst.
  destruct c; cbn [connect_first fst] in H; try (eapply IH; eassumption).
  injection H as <-. exact Hc.
Qed.

(** A channel above 0xFFFF is refused before anything is tried. *)
Lemma iccom_open_socket_invalid (gai : getaddrinfo_outcome) (channel : Z) :
  C.is_uint channel -> 0xFFFF < channel ->
  iccom_open_socket gai channel = (- Errno.EINVAL, []).
Proof.
  intros Hu Hc. unfold iccom_open_socket.
  rewrite channel_verify_of_uint by assumption.
  replace (65535 <? channel) with true by (symmetry; apply Z.ltb_lt; lia).
  reflexivity.
Qed.

End OpenSocket.

(** X5: [iccom_open_socket] fails fast on a channel above 0xFFFF: it
    returns [-EINVAL] without resolving an address or opening a socket,
    whatever the network would have answered. *)
Theorem iccom_open_socket_rejects_channel (gai : getaddrinfo_outcome) (channel : Z) :
  C.is_uint channel -> 0xFFFF < channel ->
  iccom_open_socket gai channel = (- Errno.EINVAL, []).
Proof.
  intros Hu Hc. apply iccom_open_socket_invalid; assumption.
Qed.

Lemma iccom_open_socket_rejects_channel_witness :
  iccom_open_socket (GaiDone [Connected 3]) 70000 = (- Errno.EINVAL, []).
Proof.
  apply iccom_open_socket_rejects_channel.
  - vm_compute. split; [discriminate | reflexivity].
  - reflexivity.
Defined.

(** X6: on a valid channel [iccom_open_socket] returns the descriptor of
    the first candidate address on which both [socket] and [connect]
    succeed, skipping the candidates before it; when no candidate connects
    it returns [-EPIPE], and when the address cannot be resolved
    [-EINVAL]. *)
Theorem iccom_open_socket_first_connected (channel : Z) :
  0 <= channel <= 0xFFFF ->
  (forall pre post fd,
      forallb (fun c => negb (is_connected c)) pre = true ->
      fst (iccom_open_socket (GaiDone (pre ++ Connected fd :: post)) channel) = fd)
  /\ (forall cs,
         forallb (fun c => negb (is_connected c)) cs = true ->
         fst (iccom_open_socket (GaiDone cs) channel) = - Errno.EPIPE)
  /\ (forall code,
         fst (iccom_open_socket (GaiFailed code) channel) = - Errno.EINVAL).
Proof.
  intros H. split; [| split].
  - intros pre post fd Hpre. rewrite iccom_open_socket_valid by assumption.
    cbv zeta. rewrite connect_first_some by assumption. reflexivity.
  - intros cs Hcs. rewrite iccom_open_socket_valid by assumption.
    cbv zeta. rewrite connect_first_none by assumption. reflexivity.
  - intros code. rewrite iccom_open_socket_valid by assumption. reflexivity.
Qed.

Lemma iccom_open_socket_first_connected_witness :
  fst (iccom_open_socket
         (GaiDone ([SocketFailed 97; ConnectFailed 4 111] ++ Connected 5 :: [Connected 6]))
         100) = 5
  /\ fst (iccom_open_socket (GaiDone [ConnectFailed 4 111]) 100) = - Errno.EPIPE.
Proof.
  assert (H : 0 <= 100 <= 0xFFFF) by (vm_compute; split; discriminate).
  destruct (iccom_open_socket_first_connected 100 H) as (H1 & H2 & _).
  split.
  - apply H1. reflexivity.
  - apply H2. reflexivity.
Defined.

(** X7: [iccom_open_socket] leaks no descriptor: at its return the only
    descriptor it has opened and not closed is the one it returns; when it
    returns an error, every descriptor it opened is closed again.  A
    resolved address list is always released with [freeaddrinfo]. *)
Theorem iccom_open_socket_no_fd_leak (gai : getaddrinfo_outcome) (channel : Z) :
  C.is_uint channel -> gai_valid gai ->
  let r := iccom_open_socket gai channel in
  open_fds (snd r) = (if 0 <=? fst r then [fst r] else [])
  /\ (0xFFFF < channel \/ (exists code, gai = GaiFailed code)
      \/ exists tr, snd r = tr ++ [EvFreeaddrinfo]).
Proof.
  intros Hu Hv r. subst r.
  destruct (Z.le_gt_cases channel 0xFFFF) as [Hc | Hc].
  2:{ rewrite iccom_open_socket_invalid by (try assumption; lia).
      split; [reflexivity | left; assumption]. }
  unfold C.is_uint in Hu.
  rewrite iccom_open_socket_valid by lia.
  destruct gai as [code | cs].
  - split; [reflexivity | right; left; exists code; reflexivity].
  - cbn [gai_valid] in Hv. cbv zeta.
    assert (Hfold : forall res,
               fst (connect_first 0 cs) = res ->
               open_fds (EvGetaddrinfo channel
                           :: snd (connect_first 0 cs) ++ [EvFreeaddrinfo])
               = match res with None => [] | Some fd => [fd] end).
    { intros res <-. unfold open_fds. cbn [fold_left].
      rewrite fold_left_app. cbn [fold_left].
      apply (open_fds_fold_app 0 cs [] Hv). }
    destruct (fst (connect_first 0 cs)) as [fd |] eqn:E; cbn [fst snd].
    + pose proof (connect_first_fd_nonneg 0 cs fd Hv E) as Hfd.
      replace (0 <=? fd) with true by (symmetry; apply Z.leb_le; assumption).
      split; [apply (Hfold (Some fd) eq_refl) |].
      right; right. eexists (_ :: _). reflexivity.
    + split; [apply (Hfold None eq_refl) |].
      right; right. eexists (_ :: _). reflexivity.
Qed.

Lemma iccom_open_socket_no_fd_leak_witness :
  let r := iccom_open_socket
             (GaiDone [SocketFailed 97; ConnectFailed 4 111; Connected 5]) 100 in
  open_fds (snd r) = (if 0 <=? fst r then [fst r] else [])
  /\ (0xFFFF < 100 \/ (exists code,
                         GaiDone [SocketFailed 97; ConnectFailed 4 111; Connected 5]
                         = GaiFailed code)
      \/ exists tr, snd r = tr ++ [EvFreeaddrinfo]).
Proof.
  apply (iccom_open_socket_no_fd_leak
           (GaiDone [SocketFailed 97; ConnectFailed 4 111; Connected 5]) 100).
  - vm_compute. split; [discriminate | reflexivity].
  - cbn [gai_valid]. repeat constructor; cbn [candidate_valid]; lia.
Defined.

(** ** Receiving without copy: where the payload is *)

Section NocopyReceive.

(** The shape of every call of [iccom_receive_data_nocopy] that returns a
    positive value. *)
Lemma receive_nocopy_positive_inv (rd : read_outcome) (fd : Z)
    (rbuf : list byte) (off : Z) :
  read_outcome_valid rd ->
  NLMSG_SPACE 0 < vec_size rbuf ->
  let r := iccom_receive_data_nocopy rd fd rbuf (vec_size rbuf) (Some off) in
  0 < rr_ret r ->
  exists arrived,
    rd = ReadDone arrived
    /\ let data := firstn (Z.to_nat (vec_size rbuf)) arrived in
       sizeof_nlmsghdr <= vec_size data <= vec_size rbuf
       /\ vec_size data = NLMSG_SPACE (nlmsg_len data)
       /\ 0 < nlmsg_len data < 2 ^ 31
       /\ rr_ret r = nlmsg_len data
       /\ rr_data_offset r = Some (NLMSG_LENGTH 0)
       /\ rr_buffer r = data ++ skipn (length data) rbuf.
Proof.
  intros Hv Hbig r Hpos. subst r.
  destruct rd as [err | arrived].
  { exfalso. cbn [read_outcome_valid] in Hv.
    destruct (Z.eq_dec err Errno.EAGAIN) as [-> | Hne].
    - rewrite iccom_receive_data_nocopy_timeout in Hpos by exact Hbig.
      cbn [rr_ret] in Hpos. lia.
    - rewrite iccom_receive_data_nocopy_error in Hpos by assumption.
      cbn [rr_ret] in Hpos. lia. }
  exists arrived. split; [reflexivity |].
  rewrite iccom_receive_data_nocopy_truncates in Hpos |- *.
  set (data := firstn (Z.to_nat (vec_size rbuf)) arrived) in *. cbv zeta.
  assert (Hlen : vec_size data <= vec_size rbuf).
  { subst data. unfold vec_size at 1. rewrite length_firstn.
    pose proof (vec_size_nonneg rbuf). lia. }
  pose proof (vec_size_nonneg data) as Hnn.
  destruct (Z.eq_dec (vec_size data) 0) as [E0 | Hne0].
  { exfalso. assert (data = []) as E
      by (destruct data; [reflexivity | discriminate E0]).
    rewrite E in Hpos.
    rewrite iccom_receive_data_nocopy_closed in Hpos by exact Hbig.
    cbn [rr_ret] in Hpos. lia. }
  destruct (Z.lt_ge_cases (vec_size data) sizeof_nlmsghdr) as [Hshort | Hhdr].
  { exfalso.
    rewrite iccom_receive_data_nocopy_truncated in Hpos by (try exact Hbig; lia).
    cbn [rr_ret] in Hpos. unfold Errno.EBADE in Hpos. lia. }
  rewrite iccom_receive_data_nocopy_frame in Hpos |- * by (try exact Hbig; lia).
  cbv zeta in Hpos |- *.
  destruct (Z.eqb_spec (vec_size data) (NLMSG_SPACE (nlmsg_len data)))
    as [Hm | Hm].
  2:{ exfalso. cbn [rr_ret] in Hpos. unfold Errno.EBADE in Hpos. lia. }
  cbn [rr_ret rr_buffer rr_data_offset] in Hpos |- *.
  assert (Hr : 0 <= nlmsg_len data < 2 ^ 32) by apply u32_of_bytes_range.
  destruct (to_int_positive _ Hr Hpos) as [Hi Hlt].
  rewrite Hi in *.
  repeat split; try assumption; try lia.
Qed.

End NocopyReceive.

(** X8: whenever [iccom_receive_data_nocopy] returns a positive size [n],
    it has reported the data offset 16 and the [n] bytes from that offset
    lie within the bytes that were read, so within the buffer; they are the
    bytes that arrived behind the header. *)
Theorem receive_nocopy_payload_in_bounds (rd : read_outcome) (fd : Z)
    (rbuf : list byte) (off : Z) :
  read_outcome_valid rd ->
  NLMSG_SPACE 0 < vec_size rbuf ->
  let r := iccom_receive_data_nocopy rd fd rbuf (vec_size rbuf) (Some off) in
  0 < rr_ret r ->
  rr_data_offset r = Some iccom_get_data_payload_offset
  /\ iccom_get_data_payload_offset + rr_ret r <= vec_size rbuf
  /\ vec_size (rr_buffer r) = vec_size rbuf
  /\ exists arrived,
       rd = ReadDone arrived
       /\ iccom_get_data_payload_offset + rr_ret r <= vec_size arrived
       /\ firstn (Z.to_nat (rr_ret r))
                 (skipn (Z.to_nat iccom_get_data_payload_offset) (rr_buffer r))
          = firstn (Z.to_nat (rr_ret r))
                   (skipn (Z.to_nat iccom_get_data_payload_offset) arrived).
Proof.
  intros Hv Hbig r Hpos.
  destruct (receive_nocopy_positive_inv rd fd rbuf off Hv Hbig Hpos)
    as (arrived & Erd & Hsz & Hm & Hn & Hret & Hoff & Hbuf).
  fold r in Hret, Hoff, Hbuf.
  set (data := firstn (Z.to_nat (vec_size rbuf)) arrived) in *.
  change iccom_get_data_payload_offset with 16.
  pose proof (NLMSG_SPACE_bounds (nlmsg_len data) ltac:(lia)) as Hsp.
  assert (Hda : vec_size data <= vec_size arrived).
  { subst data. unfold vec_size. rewrite length_firstn. lia. }
  split; [exact Hoff |].
  split; [lia |].
  split.
  { rewrite Hbuf, vec_size_app. unfold vec_size in *.
    rewrite length_skipn. lia. }
  exists arrived. split; [exact Erd |]. split; [lia |].
  rewrite Hbuf, Hret.
  assert (Hcut : forall l : list byte,
             firstn (Z.to_nat (nlmsg_len data)) (skipn 16 (data ++ l))
             = firstn (Z.to_nat (nlmsg_len data)) (skipn 16 data)).
  { intros l. rewrite skipn_app, firstn_app.
    replace (Z.to_nat (nlmsg_len data) - length (skipn 16 data))%nat with 0%nat
      by (rewrite length_skipn; unfold vec_size in *; lia).
    cbn [firstn]. apply app_nil_r. }
  change (Z.to_nat 16) with 16%nat.
  rewrite Hcut.
  rewrite <- (Hcut (skipn (Z.to_nat (vec_size rbuf)) arrived)).
  subst data. rewrite firstn_skipn. reflexivity.
Qed.

Lemma receive_nocopy_payload_in_bounds_witness :
  let r := iccom_receive_data_nocopy (ReadDone (wire_frame echo_payload)) 3
             (repeat x00 32) (vec_size (repeat x00 32)) (Some 0) in
  rr_data_offset r = Some iccom_get_data_payload_offset
  /\ iccom_get_data_payload_offset + rr_ret r <= vec_size (repeat x00 32)
  /\ vec_size (rr_buffer r) = vec_size (repeat x00 32)
  /\ exists arrived,
       ReadDone (wire_frame echo_payload) = ReadDone arrived
       /\ iccom_get_data_payload_offset + rr_ret r <= vec_size arrived
       /\ firstn (Z.to_nat (rr_ret r))
                 (skipn (Z.to_nat iccom_get_data_payload_offset) (rr_buffer r))
          = firstn (Z.to_nat (rr_ret r))
                   (skipn (Z.to_nat iccom_get_data_payload_offset) arrived).
Proof.
  apply (receive_nocopy_payload_in_bounds (ReadDone (wire_frame echo_payload)) 3
           (repeat x00 32) 0).
  - exact I.
  - reflexivity.
  - reflexivity.
Defined.

(** ** The copying send and receive *)

Section CopyApi.

Lemma live_blocks_io (f := fun acc e =>
                        match e with
                        | EvMalloc _ true => acc + 1
                        | EvFree => acc - 1
                        | _ => acc
                        end)
    (tr : list syscall) (acc : Z) :
  fold_left f (map EvIo tr) acc = acc.
Proof.
  revert acc. induction tr as [| c tr IH]; intros acc; [reflexivity |].
  cbn [map fold_left]. apply IH.
Qed.

Lemma memcpy_payload_exact (block d : list byte) :
  (16 <= length block)%nat ->
  memcpy_payload block d (vec_size d)
  = firstn 16 block ++ d ++ skipn (16 + length d) block.
Proof.
  intros H. unfold memcpy_payload, vec_size.
  change (Z.to_nat NLMSG_HDRLEN) with 16%nat.
  rewrite Nat2Z.id, firstn_all. reflexivity.
Qed.

Lemma copied_frame_size (block d : list byte) :
  0 <= vec_size d <= iccom_get_max_payload_size ->
  vec_size block = NLMSG_SPACE (vec_size d) ->
  vec_size (copied_frame block d) = NLMSG_SPACE (vec_size d).
Proof.
  intros Hd Hb. pose proof (NLMSG_SPACE_payload _ Hd) as Hs.
  unfold copied_frame. rewrite !vec_size_app.
  change (Z.to_nat NLMSG_HDRLEN) with 16%nat.
  unfold vec_size in *. rewrite nlmsghdr_bytes_length, length_skipn. lia.
Qed.

(** [iccom_send_data] on data it accepts, with a block from [malloc]. *)
Lemma iccom_send_data_valid (block d : list byte) (wr : write_outcome) (fd : Z) :
  0 < vec_size d <= iccom_get_max_payload_size ->
  vec_size block = NLMSG_SPACE (vec_size d) ->
  iccom_send_data (MallocDone block) wr fd (Some d) (vec_size d)
  = (match wr with
     | WriteFailed err => - err
     | WriteDone k => if k =? NLMSG_SPACE (vec_size d) then 0 else - Errno.EPIPE
     end,
     [EvMalloc (NLMSG_SPACE (vec_size d)) true;
      EvIo (SysWrite fd (copied_frame block d));
      EvFree]).
Proof.
  intros Hd Hb. pose proof (NLMSG_SPACE_payload (vec_size d) ltac:(lia)) as Hs.
  unfold iccom_send_data.
  replace (vec_size d >? ICCOM_SOCKET_MAX_MESSAGE_SIZE_BYTES) with false
    by (symmetry; rewrite Z.gtb_ltb; apply Z.ltb_ge;
        rewrite max_payload_eq in Hd; unfold ICCOM_SOCKET_MAX_MESSAGE_SIZE_BYTES; lia).
  replace (vec_size d <=? 0) with false by (symmetry; apply Z.leb_gt; lia).
  cbv zeta.
  rewrite memcpy_payload_exact by (unfold vec_size in *; lia).
  set (m := firstn 16 block ++ d ++ skipn (16 + length d) block).
  assert (Hm : vec_size m = NLMSG_SPACE (vec_size d)).
  { subst m. rewrite !vec_size_app. unfold vec_size in *.
    rewrite length_firstn, length_skipn. lia. }
  rewrite <- Hm.
  rewrite !iccom_send_data_nocopy_valid by assumption.
  cbv zeta. cbn [sr_ret sr_trace map app].
  assert (Hf : nlmsghdr_bytes (vec_size d) ++ skipn 16 m = copied_frame block d).
  { subst m. unfold copied_frame.
    change (Z.to_nat NLMSG_HDRLEN) with 16%nat.
    assert (H16 : length (firstn 16 block) = 16%nat)
      by (rewrite length_firstn; unfold vec_size in *; lia).
    rewrite <- H16 at 1. rewrite skipn_app, skipn_all, Nat.sub_diag.
    cbn [app skipn]. unfold vec_size. rewrite Nat2Z.id. reflexivity. }
  rewrite Hf, Hm. reflexivity.
Qed.

Lemma copied_frame_nlmsg_len (block d : list byte) :
  vec_size d <= iccom_get_max_payload_size ->
  nlmsg_len (copied_frame block d) = vec_size d.
Proof.
  intros Hp. rewrite max_payload_eq in Hp. pose proof (vec_size_nonneg d).
  unfold copied_frame. apply nlmsg_len_header. lia.
Qed.

Lemma copied_frame_payload (block d rest : list byte) :
  firstn (length d) (skipn 16 (copied_frame block d ++ rest)) = d.
Proof.
  unfold copied_frame.
  change 16%nat with (length (nlmsghdr_bytes (vec_size d))).
  rewrite <- !app_assoc.
  rewrite skipn_app, skipn_all, Nat.sub_diag. cbn [app skipn].
  rewrite firstn_app, firstn_all, Nat.sub_diag. cbn [firstn].
  apply app_nil_r.
Qed.

(** [__iccom_receive_data_pure] against [iccom_receive_data_nocopy]. *)
Lemma receive_pure_unfold (rd : read_outcome) (fd : Z) (rbuf : list byte) :
  read_outcome_valid rd ->
  NLMSG_SPACE 0 < vec_size rbuf ->
  let r := iccom_receive_data_nocopy rd fd rbuf (vec_size rbuf) (Some 0) in
  __iccom_receive_data_pure rd fd rbuf (vec_size rbuf)
  = if rr_ret r <=? 0
    then mk_pure_result (rr_ret r) (rr_buffer r) (rr_trace r)
    else mk_pure_result (rr_ret r)
           (memmove_front (rr_buffer r) (NLMSG_LENGTH 0) (rr_ret r))
           (rr_trace r).
Proof.
  intros Hv Hbig r. unfold __iccom_receive_data_pure, iccom_receive_data.
  fold r. cbv zeta.
  destruct (Z.leb_spec (rr_ret r) 0) as [Hle | Hgt]; [reflexivity |].
  destruct (receive_nocopy_positive_inv rd fd rbuf 0 Hv Hbig Hgt)
    as (arrived & _ & _ & _ & _ & _ & Hoff & _).
  fold r in Hoff. rewrite Hoff. reflexivity.
Qed.

End CopyApi.

(** X9: [iccom_send_data] never leaks its message buffer: on every path
    the block it got from [malloc] is freed before it returns, and when the
    size is 0 or above the maximum, or the data pointer is NULL, it
    returns an error before allocating or writing anything. *)
Theorem iccom_send_data_frees_buffer (mem : malloc_outcome) (wr : write_outcome)
    (fd : Z) (data : option (list byte)) (n : Z) :
  let r := iccom_send_data mem wr fd data n in
  live_blocks (snd r) = 0
  /\ (n <= 0 \/ iccom_get_max_payload_size < n \/ data = None ->
      fst r < 0 /\ snd r = []).
Proof.
  intros r. subst r. unfold iccom_send_data.
  unfold iccom_get_max_payload_size.
  destruct (Z.gtb_spec n ICCOM_SOCKET_MAX_MESSAGE_SIZE_BYTES) as [Hbig | Hle].
  { split; [reflexivity |]. intros _. split; reflexivity. }
  destruct (Z.leb_spec n 0) as [Hz | Hpos].
  { split; [reflexivity |]. intros _. split; reflexivity. }
  destruct data as [d |].
  2:{ split; [reflexivity |]. intros _. split; reflexivity. }
  destruct mem as [| block]; cbv zeta; cbn [fst snd].
  - split; [reflexivity |]. intros [H | [H | H]]; try lia. discriminate H.
  - split.
    + unfold live_blocks. cbn [fold_left].
      rewrite fold_left_app, live_blocks_io. reflexivity.
    + intros [H | [H | H]]; try lia. discriminate H.
Qed.

(** X10: for data of 1 to [iccom_get_max_payload_size] bytes
    [iccom_send_data] writes exactly one frame of [NLMSG_SPACE(len)] bytes:
    the header with the length field, the data at offset 16, and as padding
    the bytes that the block from [malloc] happened to hold (they are not
    cleared); it returns 0 exactly when [write] took the whole frame. *)
Theorem iccom_send_data_frame (block d : list byte) (wr : write_outcome) (fd : Z) :
  0 < vec_size d <= iccom_get_max_payload_size ->
  vec_size block = NLMSG_SPACE (vec_size d) ->
  write_outcome_valid wr ->
  let r := iccom_send_data (MallocDone block) wr fd (Some d) (vec_size d) in
  let frame := copied_frame block d in
  snd r = [EvMalloc (NLMSG_SPACE (vec_size d)) true;
           EvIo (SysWrite fd frame); EvFree]
  /\ vec_size frame = iccom_get_required_buffer_size (vec_size d)
  /\ nlmsg_len frame = vec_size d
  /\ firstn (length d) (skipn (Z.to_nat iccom_get_data_payload_offset) frame) = d
  /\ skipn (Z.to_nat (iccom_get_data_payload_offset + vec_size d)) frame
     = skipn (Z.to_nat (iccom_get_data_payload_offset + vec_size d)) block
  /\ (fst r = 0 <-> wr = WriteDone (vec_size frame)).
Proof.
  intros Hd Hb Hw r frame. subst r frame.
  rewrite iccom_send_data_valid by assumption. cbn [fst snd].
  pose proof (copied_frame_size block d ltac:(lia) Hb) as Hsz.
  pose proof (NLMSG_SPACE_payload (vec_size d) ltac:(lia)) as Hs.
  split; [reflexivity |].
  split; [exact Hsz |].
  split; [apply copied_frame_nlmsg_len; lia |].
  split.
  { change (Z.to_nat iccom_get_data_payload_offset) with 16%nat.
    rewrite <- (app_nil_r (copied_frame block d)). apply copied_frame_payload. }
  split.
  { change iccom_get_data_payload_offset with 16.
    unfold copied_frame. change (Z.to_nat NLMSG_HDRLEN) with 16%nat.
    pose proof (vec_size_nonneg d).
    rewrite Z2Nat.inj_add by lia. change (Z.to_nat 16) with 16%nat.
    rewrite app_assoc.
    rewrite skipn_app.
    assert (Hl : length (nlmsghdr_bytes (vec_size d) ++ d)
                 = (16 + Z.to_nat (vec_size d))%nat).
    { rewrite length_app, nlmsghdr_bytes_length. unfold vec_size.
      rewrite Nat2Z.id. reflexivity. }
    rewrite <- Hl at 1. rewrite skipn_all. rewrite Hl, Nat.sub_diag.
    cbn [app skipn]. reflexivity. }
  rewrite Hsz. destruct wr as [err | k]; cbn [write_outcome_valid] in Hw.
  - split; [intros; lia | discriminate].
  - destruct (Z.eqb_spec k (NLMSG_SPACE (vec_size d))) as [-> | Hne].
    + split; reflexivity.
    + split; [unfold Errno.EPIPE; lia | intros E; injection E; intros; contradiction].
Qed.

Lemma iccom_send_data_frame_witness :
  let block := repeat xff 24 in
  let r := iccom_send_data (MallocDone block) (WriteDone 24) 3
             (Some echo_payload) (vec_size echo_payload) in
  let frame := copied_frame block echo_payload in
  snd r = [EvMalloc (NLMSG_SPACE (vec_size echo_payload)) true;
           EvIo (SysWrite 3 frame); EvFree]
  /\ vec_size frame = iccom_get_required_buffer_size (vec_size echo_payload)
  /\ nlmsg_len frame = vec_size echo_payload
  /\ firstn (length echo_payload)
            (skipn (Z.to_nat iccom_get_data_payload_offset) frame) = echo_payload
  /\ skipn (Z.to_nat (iccom_get_data_payload_offset + vec_size echo_payload)) frame
     = skipn (Z.to_nat (iccom_get_data_payload_offset + vec_size echo_payload)) block
  /\ (fst r = 0 <-> WriteDone 24 = WriteDone (vec_size frame)).
Proof.
  apply (iccom_send_data_frame (repeat xff 24) echo_payload (WriteDone 24) 3).
  - vm_compute. split; [reflexivity | discriminate].
  - reflexivity.
  - vm_compute. discriminate.
Defined.

Section PureReceive.

Lemma payload_of_prefix (arrived l : list byte) (k n : nat) :
  (16 + n <= length (firstn k arrived))%nat ->
  firstn n (skipn 16 (firstn k arrived ++ l)) = firstn n (skipn 16 arrived).
Proof.
  intros H.
  assert (Hcut : forall t : list byte,
             firstn n (skipn 16 (firstn k arrived ++ t))
             = firstn n (skipn 16 (firstn k arrived))).
  { intros t. rewrite skipn_app, firstn_app.
    replace (n - length (skipn 16 (firstn k arrived)))%nat with 0%nat
      by (rewrite length_skipn; lia).
    cbn [firstn]. apply app_nil_r. }
  rewrite Hcut, <- (Hcut (skipn k arrived)), firstn_skipn. reflexivity.
Qed.

Lemma memmove_front_payload (b : list byte) (n : Z) :
  0 <= n -> 16 + n <= vec_size b ->
  firstn (Z.to_nat n) (memmove_front b 16 n) = firstn (Z.to_nat n) (skipn 16 b)
  /\ skipn (Z.to_nat n) (memmove_front b 16 n) = skipn (Z.to_nat n) b
  /\ vec_size (memmove_front b 16 n) = vec_size b.
Proof.
  intros Hn Hb. unfold memmove_front. change (Z.to_nat 16) with 16%nat.
  assert (Hl : length (firstn (Z.to_nat n) (skipn 16 b)) = Z.to_nat n).
  { rewrite length_firstn, length_skipn. unfold vec_size in Hb. lia. }
  split; [| split].
  - rewrite firstn_app, Hl, Nat.sub_diag. cbn [firstn]. rewrite app_nil_r.
    rewrite <- Hl at 1. apply firstn_all.
  - rewrite skipn_app, Hl, Nat.sub_diag. cbn [skipn].
    rewrite <- Hl at 1. rewrite skipn_all. reflexivity.
  - rewrite vec_size_app. unfold vec_size in *.
    rewrite Hl, length_skipn. lia.
Qed.

(** The shape of every call of [__iccom_receive_data_pure] that returns a
    positive value. *)
Lemma receive_pure_positive_inv (rd : read_outcome) (fd : Z) (rbuf : list byte) :
  read_outcome_valid rd ->
  NLMSG_SPACE 0 < vec_size rbuf ->
  let p := __iccom_receive_data_pure rd fd rbuf (vec_size rbuf) in
  0 < pr_ret p ->
  exists arrived,
    rd = ReadDone arrived
    /\ 16 + pr_ret p <= vec_size arrived
    /\ 16 + pr_ret p <= vec_size rbuf
    /\ vec_size (pr_buffer p) = vec_size rbuf
    /\ firstn (Z.to_nat (pr_ret p)) (pr_buffer p)
       = firstn (Z.to_nat (pr_ret p)) (skipn 16 arrived).
Proof.
  intros Hv Hbig p Hpos. subst p.
  rewrite receive_pure_unfold in Hpos |- * by assumption. cbv zeta in Hpos |- *.
  set (r := iccom_receive_data_nocopy rd fd rbuf (vec_size rbuf) (Some 0)) in *.
  destruct (Z.leb_spec (rr_ret r) 0) as [Hle | Hgt];
    cbn [pr_ret pr_buffer] in Hpos |- *; [lia |].
  destruct (receive_nocopy_positive_inv rd fd rbuf 0 Hv Hbig Hgt)
    as (arrived & Erd & Hsz & Hm & Hn & Hret & Hoff & Hbuf).
  fold r in Hret, Hoff, Hbuf.
  set (data := firstn (Z.to_nat (vec_size rbuf)) arrived) in *.
  pose proof (NLMSG_SPACE_bounds (nlmsg_len data) ltac:(lia)) as Hsp.
  assert (Hda : vec_size data <= vec_size arrived).
  { subst data. unfold vec_size. rewrite length_firstn. lia. }
  assert (Hbsz : vec_size (rr_buffer r) = vec_size rbuf).
  { rewrite Hbuf, vec_size_app. unfold vec_size in *.
    rewrite length_skipn. lia. }
  change (NLMSG_LENGTH 0) with 16.
  destruct (memmove_front_payload (rr_buffer r) (rr_ret r) ltac:(lia) ltac:(lia))
    as (Hfirst & _ & Hsize).
  exists arrived. split; [exact Erd |].
  split; [lia |]. split; [lia |]. split; [lia |].
  rewrite Hfirst, Hbuf. subst data.
  apply payload_of_prefix. fold (vec_size rbuf). unfold vec_size in *. lia.
Qed.

End PureReceive.

(** X11: [__iccom_receive_data_pure] returns what
    [iccom_receive_data_nocopy] returns and makes the same calls; on a
    result that is not positive the buffer is as the no-copy call left it,
    and on a positive result [n] the [n] bytes of payload have been moved
    from offset 16 to the beginning of the buffer, while the bytes behind
    them are left as they were. *)
Theorem receive_pure_moves_payload (rd : read_outcome) (fd : Z) (rbuf : list byte) :
  read_outcome_valid rd ->
  NLMSG_SPACE 0 < vec_size rbuf ->
  let r := iccom_receive_data_nocopy rd fd rbuf (vec_size rbuf) (Some 0) in
  let p := __iccom_receive_data_pure rd fd rbuf (vec_size rbuf) in
  pr_ret p = rr_ret r
  /\ pr_trace p = rr_trace r
  /\ (rr_ret r <= 0 -> pr_buffer p = rr_buffer r)
  /\ (0 < rr_ret r ->
      firstn (Z.to_nat (rr_ret r)) (pr_buffer p)
      = firstn (Z.to_nat (rr_ret r))
               (skipn (Z.to_nat iccom_get_data_payload_offset) (rr_buffer r))
      /\ skipn (Z.to_nat (rr_ret r)) (pr_buffer p)
         = skipn (Z.to_nat (rr_ret r)) (rr_buffer r)).
Proof.
  intros Hv Hbig r p. subst p.
  rewrite receive_pure_unfold by assumption. cbv zeta. fold r.
  destruct (Z.leb_spec (rr_ret r) 0) as [Hle | Hgt];
    cbn [pr_ret pr_buffer pr_trace].
  - repeat split; intros; lia.
  - split; [reflexivity |]. split; [reflexivity |].
    split; [intros; lia |]. intros _.
    destruct (receive_nocopy_positive_inv rd fd rbuf 0 Hv Hbig Hgt)
      as (arrived & Erd & Hsz & Hm & Hn & Hret & Hoff & Hbuf).
    fold r in Hret, Hoff, Hbuf.
    set (data := firstn (Z.to_nat (vec_size rbuf)) arrived) in *.
    pose proof (NLMSG_SPACE_bounds (nlmsg_len data) ltac:(lia)) as Hsp.
    assert (Hbsz : vec_size (rr_buffer r) = vec_size rbuf).
    { rewrite Hbuf, vec_size_app. unfold vec_size in *.
      rewrite length_skipn. lia. }
    change (NLMSG_LENGTH 0) with 16.
    change (Z.to_nat iccom_get_data_payload_offset) with 16%nat.
    destruct (memmove_front_payload (rr_buffer r) (rr_ret r) ltac:(lia) ltac:(lia))
      as (Hfirst & Hrest & _).
    split; assumption.
Qed.

Lemma receive_pure_moves_payload_witness :
  let rd := ReadDone (wire_frame echo_payload) in
  let rbuf := repeat xff 32 in
  let r := iccom_receive_data_nocopy rd 3 rbuf (vec_size rbuf) (Some 0) in
  let p := __iccom_receive_data_pure rd 3 rbuf (vec_size rbuf) in
  pr_ret p = rr_ret r
  /\ pr_trace p = rr_trace r
  /\ (rr_ret r <= 0 -> pr_buffer p = rr_buffer r)
  /\ (0 < rr_ret r ->
      firstn (Z.to_nat (rr_ret r)) (pr_buffer p)
      = firstn (Z.to_nat (rr_ret r))
               (skipn (Z.to_nat iccom_get_data_payload_offset) (rr_buffer r))
      /\ skipn (Z.to_nat (rr_ret r)) (pr_buffer p)
         = skipn (Z.to_nat (rr_ret r)) (rr_buffer r)).
Proof.
  apply (receive_pure_moves_payload (ReadDone (wire_frame echo_payload)) 3
           (repeat xff 32)).
  - exact I.
  - reflexivity.
Defined.

Lemma NLMSG_SPACE_payload_max (n : Z) :
  0 <= n <= iccom_get_max_payload_size -> NLMSG_SPACE n <= 4112.
Proof.
  intros H. rewrite max_payload_eq in H.
  rewrite NLMSG_SPACE_small by lia.
  assert ((n + 19) / 4 < 1029) by (apply Z.div_lt_upper_bound; lia).
  lia.
Qed.

(** [__iccom_receive_data_pure] on a frame of [iccom_send_data]. *)
Lemma send_data_receive_pure_frame (block d rbuf : list byte) (fd : Z) :
  0 < vec_size d <= iccom_get_max_payload_size ->
  vec_size block = NLMSG_SPACE (vec_size d) ->
  NLMSG_SPACE (vec_size d) <= vec_size rbuf ->
  let p := __iccom_receive_data_pure (ReadDone (copied_frame block d)) fd rbuf
             (vec_size rbuf) in
  pr_ret p = vec_size d
  /\ firstn (length d) (pr_buffer p) = d
  /\ pr_trace p = [SysRead fd (vec_size rbuf)].
Proof.
  intros Hd Hb Hr p.
  pose proof (NLMSG_SPACE_payload (vec_size d) ltac:(lia)) as Hs.
  pose proof (copied_frame_size block d ltac:(lia) Hb) as Hsz.
  pose proof (copied_frame_nlmsg_len block d ltac:(lia)) as Hlen.
  assert (Hbig : NLMSG_SPACE 0 < vec_size rbuf) by (rewrite NLMSG_SPACE_0; lia).
  assert (Hret : pr_ret p = vec_size d /\ pr_trace p = [SysRead fd (vec_size rbuf)]).
  { subst p. rewrite receive_pure_unfold by (try exact I; assumption).
    cbv zeta.
    rewrite iccom_receive_data_nocopy_frame
      by (rewrite ?Hsz; unfold sizeof_nlmsghdr; try assumption; lia).
    cbv zeta. rewrite Hlen, Hsz, Z.eqb_refl. cbn [rr_ret rr_trace].
    rewrite to_int_small by (rewrite max_payload_eq in Hd; lia).
    destruct (vec_size d <=? 0); split; reflexivity. }
  destruct Hret as [Hret Htr].
  split; [exact Hret |]. split; [| exact Htr].
  assert (Hpos : 0 < pr_ret p) by lia.
  destruct (receive_pure_positive_inv (ReadDone (copied_frame block d))
              fd rbuf I Hbig Hpos)
    as (arrived & Erd & _ & _ & _ & Hfirst).
  fold p in Hfirst. injection Erd as <-.
  rewrite Hret in Hfirst. unfold vec_size in Hfirst.
  rewrite Nat2Z.id in Hfirst. rewrite Hfirst.
  rewrite <- (app_nil_r (copied_frame block d)). apply copied_frame_payload.
Qed.



(** ** IccomSocket: the direct methods *)

Section Direct.

Import SocketApi.

Lemma vec_resize_firstn (n : Z) (v : list byte) :
  0 <= n <= vec_size v -> vec_resize n v = firstn (Z.to_nat n) v.
Proof.
  intros H. unfold vec_resize, vec_size in *.
  replace (Z.to_nat n - length v)%nat with 0%nat by lia.
  apply app_nil_r.
Qed.

Lemma receive_direct_open (rd : read_outcome) (data_out : list byte)
    (s : IccomSocket) :
  Socket.is_open s = true ->
  receive_direct rd data_out s =
  let buf := vec_resize (NLMSG_SPACE iccom_get_max_payload_size) data_out in
  let p := __iccom_receive_data_pure rd (m_sock_fd s) buf (vec_size buf) in
  if pr_ret p <? 0 then (pr_ret p, [], pr_trace p)
  else (pr_ret p, vec_resize (pr_ret p) (pr_buffer p), pr_trace p).
Proof.
  intros H. unfold receive_direct. rewrite H. cbn [negb]. cbv zeta.
  destruct (_ <? 0); reflexivity.
Qed.

End Direct.

(** X13: whatever arrives, [receive_direct] leaves in [data_out] exactly
    the message: when it returns a size [n >= 0], [data_out] has [n] bytes,
    and for [n > 0] they are the [n] bytes that arrived behind the 16 byte
    header; when it returns an error, [data_out] is empty. *)
Theorem receive_direct_data_out (rd : read_outcome) (data_out : list byte)
    (s : IccomSocket) :
  read_outcome_valid rd ->
  let out := SocketApi.receive_direct rd data_out s in
  let res := fst (fst out) in
  (0 <= res -> vec_size (snd (fst out)) = res)
  /\ (res < 0 -> snd (fst out) = [])
  /\ (0 < res ->
      exists arrived,
        rd = ReadDone arrived
        /\ snd (fst out)
           = firstn (Z.to_nat res)
                    (skipn (Z.to_nat iccom_get_data_payload_offset) arrived)).
Proof.
  intros Hv out res. subst res out.
  destruct (Socket.is_open s) eqn:Eo.
  2:{ unfold SocketApi.receive_direct. rewrite Eo. cbn [negb fst snd].
      unfold Errno.EBADFD. repeat split; intros; try lia. }
  rewrite receive_direct_open by assumption. cbv zeta.
  pose proof (receive_buffer_size data_out) as Hsz.
  set (buf := vec_resize (NLMSG_SPACE iccom_get_max_payload_size) data_out) in *.
  assert (Hbig : NLMSG_SPACE 0 < vec_size buf) by (rewrite Hsz; reflexivity).
  set (p := __iccom_receive_data_pure rd (m_sock_fd s) buf (vec_size buf)).
  destruct (Z.ltb_spec (pr_ret p) 0) as [Hneg | Hnn]; cbn [fst snd].
  - repeat split; intros; lia.
  - split; [intros _; apply vec_resize_size; assumption |].
    split; [intros; lia |].
    intros Hpos.
    destruct (receive_pure_positive_inv rd (m_sock_fd s) buf Hv Hbig Hpos)
      as (arrived & Erd & Ha & Hb & Hpsz & Hfirst).
    fold p in Ha, Hb, Hpsz, Hfirst.
    exists arrived. split; [exact Erd |].
    rewrite vec_resize_firstn by lia.
    exact Hfirst.
Qed.

Lemma receive_direct_data_out_witness :
  let out := SocketApi.receive_direct (ReadDone (wire_frame echo_payload))
               [] echo_socket in
  let res := fst (fst out) in
  (0 <= res -> vec_size (snd (fst out)) = res)
  /\ (res < 0 -> snd (fst out) = [])
  /\ (0 < res ->
      exists arrived,
        ReadDone (wire_frame echo_payload) = ReadDone arrived
        /\ snd (fst out)
           = firstn (Z.to_nat res)
                    (skipn (Z.to_nat iccom_get_data_payload_offset) arrived)).
Proof.
  apply (receive_direct_data_out (ReadDone (wire_frame echo_payload)) []
           echo_socket).
  exact I.
Defined.

(** X14: round trip of the direct methods: on an open socket
    [send_direct] of 1 to [iccom_get_max_payload_size] bytes succeeds when
    [write] takes the frame, and [receive_direct] on an open socket that
    reads this frame returns the size of the data and stores exactly the
    data in [data_out], whatever [data_out] held before. *)
Theorem send_direct_receive_direct_roundtrip (block d data_out : list byte)
    (tx rx : IccomSocket) :
  Socket.is_open tx = true -> Socket.is_open rx = true ->
  0 < vec_size d <= iccom_get_max_payload_size ->
  vec_size block = NLMSG_SPACE (vec_size d) ->
  let frame := copied_frame block d in
  SocketApi.send_direct (MallocDone block) (WriteDone (vec_size frame)) d tx
  = (0, [EvMalloc (NLMSG_SPACE (vec_size d)) true;
         EvIo (SysWrite (m_sock_fd tx) frame); EvFree])
  /\ SocketApi.receive_direct (ReadDone frame) data_out rx
     = (vec_size d, d, [SysRead (m_sock_fd rx) 4112]).
Proof.
  intros Htx Hrx Hd Hb frame. subst frame.
  pose proof (NLMSG_SPACE_payload (vec_size d) ltac:(lia)) as Hs.
  pose proof (copied_frame_size block d ltac:(lia) Hb) as Hsz.
  pose proof (copied_frame_nlmsg_len block d ltac:(lia)) as Hlen.
  split.
  - unfold SocketApi.send_direct. rewrite Htx. cbn [negb].
    rewrite iccom_send_data_valid by assumption.
    rewrite Hsz, Z.eqb_refl. reflexivity.
  - rewrite receive_direct_open by assumption. cbv zeta.
    pose proof (receive_buffer_size data_out) as Hbsz.
    set (buf := vec_resize (NLMSG_SPACE iccom_get_max_payload_size) data_out) in *.
    assert (Hbig : NLMSG_SPACE 0 < vec_size buf) by (rewrite Hbsz; reflexivity).
    assert (Hfit : NLMSG_SPACE (vec_size d) <= vec_size buf).
    { rewrite Hbsz. apply NLMSG_SPACE_payload_max. lia. }
    destruct (send_data_receive_pure_frame block d buf (m_sock_fd rx) Hd Hb Hfit)
      as (Hret & Hfirst & Htrace).
    set (p := __iccom_receive_data_pure (ReadDone (copied_frame block d))
                (m_sock_fd rx) buf (vec_size buf)) in *.
    rewrite Hret.
    replace (vec_size d <? 0) with false by (symmetry; apply Z.ltb_ge; lia).
    assert (Hpos : 0 < pr_ret p) by lia.
    destruct (receive_pure_positive_inv (ReadDone (copied_frame block d))
                (m_sock_fd rx) buf I Hbig Hpos)
      as (arrived & _ & _ & Hb2 & Hpsz & _).
    fold p in Hb2, Hpsz.
    rewrite vec_resize_firstn by lia.
    unfold vec_size at 2. rewrite Nat2Z.id, Hfirst, Htrace, Hbsz. reflexivity.
Qed.

Lemma send_direct_receive_direct_roundtrip_witness :
  let block := repeat xff 24 in
  let frame := copied_frame block echo_payload in
  SocketApi.send_direct (MallocDone block) (WriteDone (vec_size frame))
                        echo_payload echo_socket
  = (0, [EvMalloc (NLMSG_SPACE (vec_size echo_payload)) true;
         EvIo (SysWrite (m_sock_fd echo_socket) frame); EvFree])
  /\ SocketApi.receive_direct (ReadDone frame) [x07] echo_socket
     = (vec_size echo_payload, echo_payload,
        [SysRead (m_sock_fd echo_socket) 4112]).
Proof.
  apply (send_direct_receive_direct_roundtrip (repeat xff 24) echo_payload
           [x07] echo_socket echo_socket).
  - reflexivity.
  - reflexivity.
  - vm_compute. split; [reflexivity | discriminate].
  - reflexivity.
Defined.

(** X15: on a socket that is not open, [send_direct], [receive_direct],
    [set_read_timeout] and [read_timeout] return an error ([-EBADFD] for the
    first two, [-EBADF] for the others) without any system call, and
    [receive_direct] empties [data_out].  The buffered [send] and [receive]
    have no such check: [receive] still reads from the negative descriptor,
    and [send] of a pending message still writes to it. *)
Theorem closed_socket_calls (s : IccomSocket) :
  Socket.is_open s = false ->
  (forall mem wr d,
      SocketApi.send_direct mem wr d s = (- Errno.EBADFD, []))
  /\ (forall rd out,
         SocketApi.receive_direct rd out s = (- Errno.EBADFD, [], []))
  /\ (forall so ms,
         SocketApi.set_read_timeout so ms s = (- Errno.EBADF, []))
  /\ (forall go, SocketApi.read_timeout go s = (- Errno.EBADF, []))
  /\ (forall rd,
         cr_trace (Socket.receive rd s) = [SysRead (m_sock_fd s) 4112])
  /\ (forall wr reset,
         Socket.wf s -> Socket.output_size s <> 0 ->
         exists frame,
           cr_trace (Socket.send wr reset s) = [SysWrite (m_sock_fd s) frame]
           /\ vec_size frame = NLMSG_SPACE (Socket.output_size s)).
Proof.
  intros Hc.
  unfold SocketApi.send_direct, SocketApi.receive_direct,
    SocketApi.set_read_timeout, SocketApi.read_timeout.
  rewrite Hc. cbn [negb].
  repeat (split; [intros; reflexivity |]).
  split.
  - intros rd. unfold Socket.receive. cbv zeta.
    pose proof (receive_buffer_size (m_incoming_data s)) as Hsz.
    set (buf := vec_resize (NLMSG_SPACE iccom_get_max_payload_size)
                           (m_incoming_data s)) in *.
    assert (Htr : rr_trace (iccom_receive_data_nocopy rd (m_sock_fd s) buf
                              (vec_size buf) (Some 0))
                  = [SysRead (m_sock_fd s) 4112]).
    { unfold iccom_receive_data_nocopy. rewrite Hsz.
      change (4112 <=? NLMSG_SPACE 0) with false. cbn iota. cbv zeta.
      destruct rd as [err | arrived].
      - destruct (err =? Errno.EAGAIN); reflexivity.
      - repeat match goal with
               | |- context [if ?c then _ else _] => destruct c
               end; reflexivity. }
    destruct (_ <=? 0); [exact Htr |].
    destruct (rr_data_offset _) as [off |]; [| exact Htr].
    destruct (negb _); exact Htr.
  - intros wr reset Hwf Hne. unfold Socket.output_size in *.
    rewrite send_nonempty by assumption. cbv zeta. cbn [cr_trace].
    eexists. split; [reflexivity |].
    destruct Hwf as [Hn Hs]. pose proof (NLMSG_SPACE_payload _ Hn).
    rewrite header_rewrite_size by lia. exact Hs.
Qed.

Lemma closed_socket_calls_witness :
  Socket.is_open (Socket.fresh 100) = false
  /\ SocketApi.send_direct MallocFailed (WriteDone 0) echo_payload
                           (Socket.fresh 100)
     = (- Errno.EBADFD, [])
  /\ cr_trace (Socket.receive (ReadDone []) (Socket.fresh 100))
     = [SysRead (m_sock_fd (Socket.fresh 100)) 4112].
Proof.
  assert (H : Socket.is_open (Socket.fresh 100) = false) by reflexivity.
  destruct (closed_socket_calls (Socket.fresh 100) H) as (H1 & _ & _ & _ & H5 & _).
  split; [exact H |]. split; [apply H1 | apply H5].
Defined.

(** ** IccomSocket: life cycle and invariant *)

Section LifeCycle.

Import SocketApi.

Lemma wf_set_sock_fd (fd : Z) (s : IccomSocket) :
  Socket.wf s -> Socket.wf (Socket.set_sock_fd fd s).
Proof. intros H. exact H. Qed.

Lemma wf_call (m : method) (s : IccomSocket) :
  Socket.wf s -> Socket.wf (call m s).
Proof.
  intros H. destruct m; cbn [call].
  - unfold open. destruct (m_sock_fd s >=? 0); exact H.
  - unfold close. destruct (m_sock_fd s <? 0); exact H.
  - apply wf_send. exact H.
  - apply wf_receive. exact H.
  - apply wf_append. exact H.
  - apply wf_append_char. exact H.
  - apply wf_reset_output.
  - exact H.
  - exact H.
Qed.

Lemma channel_call (m : method) (s : IccomSocket) :
  m_channel (call m s) = m_channel s.
Proof.
  destruct m; cbn [call]; try reflexivity.
  - unfold open. destruct (m_sock_fd s >=? 0); reflexivity.
  - unfold close. destruct (m_sock_fd s <? 0); reflexivity.
  - unfold Socket.send. destruct (_ =? 0); [reflexivity |]. cbv zeta.
    destruct (sr_buf _); destruct (_ <? 0); try destruct reset_message_on_success;
      reflexivity.
  - unfold Socket.receive. cbv zeta.
    destruct (_ <=? 0); [reflexivity |].
    destruct (rr_data_offset _); [| reflexivity].
    destruct (negb _); reflexivity.
  - unfold Socket.append. destruct (_ >=? _); reflexivity.
  - unfold Socket.append_char. destruct (_ >=? _); reflexivity.
Qed.

(** Only [set_dbg_mode] changes the debug flag. *)
Lemma dbg_call (m : method) (s : IccomSocket) :
  SocketDbg.keeps_debug_off m = true -> m_dbg s = false ->
  m_dbg (call m s) = false.
Proof.
  intros Hm Hs. destruct m; cbn [call SocketDbg.keeps_debug_off] in *.
  - unfold open. destruct (m_sock_fd s >=? 0); exact Hs.
  - unfold close. destruct (m_sock_fd s <? 0); exact Hs.
  - unfold Socket.send. destruct (_ =? 0); [exact Hs |]. cbv zeta.
    destruct (sr_buf _); destruct (_ <? 0); try destruct reset_message_on_success;
      exact Hs.
  - unfold Socket.receive. cbv zeta.
    destruct (_ <=? 0); [exact Hs |].
    destruct (rr_data_offset _); [| exact Hs].
    destruct (negb _); exact Hs.
  - unfold Socket.append. destruct (_ >=? _); exact Hs.
  - unfold Socket.append_char. destruct (_ >=? _); exact Hs.
  - exact Hs.
  - exact Hs.
  - destruct dbg_mode; [discriminate | reflexivity].
Qed.

End LifeCycle.

(** X16: the class invariant holds after any sequence of method calls on a
    constructed [IccomSocket] that leaves debug printing off (no
    [set_dbg_mode(true)] among them), whatever the system calls return:
    debug printing is still off, the size of [m_outgoing_data] is
    [NLMSG_SPACE(m_outgoing_payload_size)], the payload size never exceeds
    [iccom_get_max_payload_size], [output_size] and [output_free_space] add
    up to that maximum, and the channel is the one given to the
    constructor. *)
Theorem class_invariant_after_calls (channel : Z) (ms : list SocketApi.method) :
  forallb SocketDbg.keeps_debug_off ms = true ->
  let s := SocketApi.calls ms (Socket.fresh channel) in
  m_dbg s = false
  /\ Socket.wf s
  /\ 0 <= Socket.output_size s <= iccom_get_max_payload_size
  /\ vec_size (m_outgoing_data s) = NLMSG_SPACE (Socket.output_size s)
  /\ NLMSG_SPACE 0 <= vec_size (m_outgoing_data s) <= 4112
  /\ Socket.output_size s + Socket.output_free_space s
     = iccom_get_max_payload_size
  /\ m_channel s = channel.
Proof.
  intros Hoff s.
  assert (Hgen : forall s0, Socket.wf s0 -> m_dbg s0 = false ->
                   Socket.wf (SocketApi.calls ms s0)
                   /\ m_channel (SocketApi.calls ms s0) = m_channel s0
                   /\ m_dbg (SocketApi.calls ms s0) = false).
  { unfold SocketApi.calls. induction ms as [| m ms IH]; intros s0 H0 Hd0.
    - split; [exact H0 |]. split; [reflexivity | exact Hd0].
    - cbn [fold_left]. cbn [forallb] in Hoff.
      apply andb_true_iff in Hoff. destruct Hoff as [Hm Hrest].
      destruct (IH Hrest (SocketApi.call m s0) (wf_call m s0 H0)
                   (dbg_call m s0 Hm Hd0)) as (Hw & Hc & Hd).
      split; [exact Hw |]. split; [| exact Hd].
      rewrite Hc. apply channel_call. }
  destruct (Hgen (Socket.fresh channel) (wf_fresh channel) eq_refl)
    as (Hw & Hc & Hd).
  fold s in Hw, Hc, Hd. pose proof Hw as [Hn Hs].
  unfold Socket.output_size, Socket.output_free_space in *.
  pose proof (NLMSG_SPACE_payload _ Hn) as Hb.
  pose proof (NLMSG_SPACE_payload_max _ Hn) as Hm.
  split; [exact Hd |].
  split; [exact Hw |]. split; [exact Hn |]. split; [exact Hs |].
  split; [rewrite Hs, NLMSG_SPACE_0; lia |].
  split; [| exact Hc].
  cbv zeta.
  destruct (Z.geb_spec iccom_get_max_payload_size (m_outgoing_payload_size s)); lia.
Qed.

Lemma class_invariant_after_calls_witness :
  let ms := [SocketApi.MOpen (GaiDone [Connected 3]);
             SocketApi.MSetDbgMode false;
             SocketApi.MAppend echo_payload;
             SocketApi.MSend (WriteDone 24) true;
             SocketApi.MReceive (ReadDone (wire_frame echo_payload))] in
  forallb SocketDbg.keeps_debug_off ms = true
  /\ (let s := SocketApi.calls ms (Socket.fresh 100) in
      m_dbg s = false
      /\ Socket.wf s
      /\ 0 <= Socket.output_size s <= iccom_get_max_payload_size
      /\ vec_size (m_outgoing_data s) = NLMSG_SPACE (Socket.output_size s)
      /\ NLMSG_SPACE 0 <= vec_size (m_outgoing_data s) <= 4112
      /\ Socket.output_size s + Socket.output_free_space s
         = iccom_get_max_payload_size
      /\ m_channel s = 100).
Proof.
  intros ms.
  assert (H : forallb SocketDbg.keeps_debug_off ms = true) by reflexivity.
  split; [exact H |].
  exact (class_invariant_after_calls 100 ms H).
Defined.

(** X17: [open] is idempotent: once it has returned a descriptor, every
    further [open] returns the same descriptor, makes no call and leaves
    the object unchanged; when it fails, the object is not open afterwards
    and its buffers are untouched. *)
Theorem open_is_idempotent (gai : getaddrinfo_outcome) (s : IccomSocket) :
  let r := SocketApi.open gai s in
  let fd := fst (fst r) in
  let s' := snd (fst r) in
  (0 <= fd ->
   Socket.is_open s' = true
   /\ forall gai', SocketApi.open gai' s' = (fd, s', []))
  /\ (fd < 0 -> Socket.is_open s' = false)
  /\ m_incoming_data s' = m_incoming_data s
  /\ m_outgoing_data s' = m_outgoing_data s
  /\ m_outgoing_payload_size s' = m_outgoing_payload_size s.
Proof.
  intros r fd s'. subst r fd s'. unfold SocketApi.open.
  destruct (Z.geb_spec (m_sock_fd s) 0) as [Ho | Hc]; cbn [fst snd].
  - split.
    + intros _. split.
      * unfold Socket.is_open. apply Z.geb_le. lia.
      * intros gai'.
        replace (m_sock_fd s >=? 0) with true
          by (symmetry; apply Z.geb_le; lia).
        reflexivity.
    + split; [intros; lia |]. repeat split.
  - set (r := iccom_open_socket gai (m_channel s)).
    split.
    + intros Hfd. split.
      * unfold Socket.is_open. cbn [Socket.set_sock_fd m_sock_fd].
        apply Z.geb_le. lia.
      * intros gai'. cbn [Socket.set_sock_fd m_sock_fd].
        replace (fst r >=? 0) with true by (symmetry; apply Z.geb_le; lia).
        reflexivity.
    + split; [| repeat split].
      intros Hfd. unfold Socket.is_open. cbn [Socket.set_sock_fd m_sock_fd].
      destruct (Z.geb_spec (fst r) 0); [lia | reflexivity].
Qed.

(** X18: [close] is idempotent and guarded: on an open socket it closes
    the descriptor once and marks the object as not open; on a socket that
    is not open it does nothing; a second [close] never makes a call.  The
    buffers are kept. *)
Theorem close_is_idempotent (s : IccomSocket) :
  let r := SocketApi.close s in
  Socket.is_open (fst r) = false
  /\ snd r = (if Socket.is_open s then [EvClose (m_sock_fd s)] else [])
  /\ SocketApi.close (fst r) = (fst r, [])
  /\ m_incoming_data (fst r) = m_incoming_data s
  /\ m_outgoing_data (fst r) = m_outgoing_data s
  /\ m_outgoing_payload_size (fst r) = m_outgoing_payload_size s.
Proof.
  intros r. subst r. unfold SocketApi.close, Socket.is_open.
  destruct (Z.ltb_spec (m_sock_fd s) 0) as [Hc | Ho]; cbn [fst snd].
  - replace (m_sock_fd s >=? 0) with false
      by (symmetry; rewrite Z.geb_leb; apply Z.leb_gt; lia).
    replace (m_sock_fd s <? 0) with true by (symmetry; apply Z.ltb_lt; lia).
    repeat split.
  - replace (m_sock_fd s >=? 0) with true by (symmetry; apply Z.geb_le; lia).
    repeat split.
Qed.

(** ** IccomSocket: where appended bytes go *)

Section AppendContent.

Import Socket.

Lemma fold_push_back (data v : list byte) :
  fold_left (fun acc ch => vec_push_back ch acc) data v = v ++ data.
Proof.
  revert v. induction data as [| ch data IH]; intros v; cbn [fold_left].
  - symmetry. apply app_nil_r.
  - rewrite IH. unfold vec_push_back. rewrite <- app_assoc. reflexivity.
Qed.

Lemma NLMSG_SPACE_aligned (n : Z) :
  0 <= n <= iccom_get_max_payload_size -> n mod 4 = 0 ->
  NLMSG_SPACE n = n + 16.
Proof.
  intros Hn Ha. rewrite max_payload_eq in Hn.
  rewrite NLMSG_SPACE_small by lia.
  pose proof (Z.div_mod n 4 ltac:(lia)) as Hdm.
  replace (n + 19) with (3 + (n / 4 + 4) * 4) by lia.
  rewrite Z.div_add by lia. change (3 / 4) with 0. lia.
Qed.

Lemma NLMSG_SPACE_unaligned (n : Z) :
  0 <= n < iccom_get_max_payload_size -> n mod 4 <> 0 ->
  NLMSG_SPACE (n + 1) = NLMSG_SPACE n /\ n + 17 <= NLMSG_SPACE n.
Proof.
  intros Hn Ha. rewrite max_payload_eq in Hn.
  rewrite !NLMSG_SPACE_small by lia.
  pose proof (Z.div_mod n 4 ltac:(lia)) as Hdm.
  pose proof (Z.mod_pos_bound n 4 ltac:(lia)) as Hb.
  assert (E1 : (n + 19) / 4 = n / 4 + 5).
  { replace (n + 19) with (n mod 4 - 1 + (n / 4 + 5) * 4) by lia.
    rewrite Z.div_add by lia. rewrite Z.div_small by lia. lia. }
  assert (E2 : (n + 1 + 19) / 4 = n / 4 + 5).
  { replace (n + 1 + 19) with (n mod 4 + (n / 4 + 5) * 4) by lia.
    rewrite Z.div_add by lia. rewrite Z.div_small by lia. lia. }
  rewrite E1, E2. lia.
Qed.

(** What the vector [<<] stores when it takes the data. *)
Lemma append_data (data : list byte) (s : IccomSocket) :
  wf s ->
  m_outgoing_payload_size s + vec_size data < iccom_get_max_payload_size ->
  append data s
  = set_outgoing
      (vec_resize (NLMSG_SPACE (m_outgoing_payload_size s + vec_size data))
                  (m_outgoing_data s ++ data))
      (m_outgoing_payload_size s + vec_size data) s.
Proof.
  intros [Hn _] Hlt. pose proof (vec_size_nonneg data).
  unfold append, C.to_size, C.size_modulus.
  rewrite max_payload_eq in *.
  rewrite Z.mod_small by lia.
  replace (m_outgoing_payload_size s + vec_size data >=? 4096) with false
    by (symmetry; rewrite Z.geb_leb; apply Z.leb_gt; lia).
  cbv zeta. rewrite fold_push_back. reflexivity.
Qed.

Lemma append_char_data (ch : byte) (s : IccomSocket) :
  wf s ->
  m_outgoing_payload_size s < iccom_get_max_payload_size ->
  append_char ch s
  = set_outgoing
      (vec_resize (NLMSG_SPACE (m_outgoing_payload_size s + 1))
                  (m_outgoing_data s ++ [ch]))
      (m_outgoing_payload_size s + 1) s.
Proof.
  intros [Hn _] Hlt.
  unfold append_char, C.to_size, C.size_modulus, vec_push_back.
  rewrite max_payload_eq in *.
  rewrite Z.mod_small by lia.
  replace (m_outgoing_payload_size s >=? 4096) with false
    by (symmetry; rewrite Z.geb_leb; apply Z.leb_gt; lia).
  reflexivity.
Qed.

Lemma vec_resize_grow (n : Z) (v : list byte) :
  vec_size v <= n ->
  vec_resize n v = v ++ repeat x00 (Z.to_nat (n - vec_size v)).
Proof.
  intros H. unfold vec_resize, vec_size in *.
  rewrite firstn_all2 by lia. f_equal. f_equal. lia.
Qed.

End AppendContent.

(** X19: when the size of the pending message is a multiple of 4, both
    [<<] operators append: the outgoing payload afterwards is the payload
    before followed by the new bytes (as long as the new size stays below
    the maximum). *)
Theorem append_aligned_extends_payload (data : list byte) (ch : byte)
    (s : IccomSocket) :
  Socket.wf s ->
  Socket.output_size s mod 4 = 0 ->
  (Socket.output_size s + vec_size data < iccom_get_max_payload_size ->
   Socket.outgoing_payload (Socket.append data s)
   = Socket.outgoing_payload s ++ data)
  /\ (Socket.output_size s < iccom_get_max_payload_size ->
      Socket.outgoing_payload (Socket.append_char ch s)
      = Socket.outgoing_payload s ++ [ch]).
Proof.
  intros Hwf Ha. unfold Socket.output_size in *.
  pose proof Hwf as [Hn Hs].
  rewrite NLMSG_SPACE_aligned in Hs by assumption.
  assert (Hgen : forall d : list byte,
             m_outgoing_payload_size s + vec_size d <= iccom_get_max_payload_size ->
             firstn (Z.to_nat (m_outgoing_payload_size s + vec_size d))
               (skipn 16
                  (vec_resize (NLMSG_SPACE (m_outgoing_payload_size s + vec_size d))
                              (m_outgoing_data s ++ d)))
             = Socket.outgoing_payload s ++ d).
  { intros d Hd. pose proof (vec_size_nonneg d) as Hdn.
    pose proof (NLMSG_SPACE_payload (m_outgoing_payload_size s + vec_size d)
                  ltac:(lia)) as Hsp.
    rewrite vec_resize_grow by (rewrite vec_size_app; lia).
    unfold Socket.outgoing_payload. change (Z.to_nat NLMSG_HDRLEN) with 16%nat.
    assert (Hl : length (skipn 16 (m_outgoing_data s))
                 = Z.to_nat (m_outgoing_payload_size s)).
    { rewrite length_skipn. unfold vec_size in Hs. lia. }
    rewrite <- Hl. rewrite firstn_all.
    rewrite <- app_assoc, skipn_app.
    replace (16 - length (m_outgoing_data s))%nat with 0%nat
      by (unfold vec_size in Hs; lia).
    rewrite skipn_O. rewrite app_assoc, firstn_app.
    assert (Hl2 : length (skipn 16 (m_outgoing_data s) ++ d)
                  = Z.to_nat (m_outgoing_payload_size s + vec_size d)).
    { rewrite length_app, Hl. unfold vec_size. lia. }
    rewrite <- Hl2 at 1. rewrite firstn_all, Hl2, Nat.sub_diag.
    cbn [firstn]. apply app_nil_r. }
  split; intros Hlt.
  - rewrite append_data by assumption.
    unfold Socket.outgoing_payload at 1.
    cbn [Socket.set_outgoing m_outgoing_payload_size m_outgoing_data].
    change (Z.to_nat NLMSG_HDRLEN) with 16%nat.
    apply Hgen. lia.
  - rewrite append_char_data by assumption.
    unfold Socket.outgoing_payload at 1.
    cbn [Socket.set_outgoing m_outgoing_payload_size m_outgoing_data].
    change (Z.to_nat NLMSG_HDRLEN) with 16%nat.
    change 1 with (vec_size [ch]). apply Hgen.
    change (vec_size [ch]) with 1. lia.
Qed.

Lemma append_aligned_extends_payload_witness :
  Socket.outgoing_payload (Socket.append echo_payload (Socket.fresh 100))
  = Socket.outgoing_payload (Socket.fresh 100) ++ echo_payload
  /\ Socket.outgoing_payload (Socket.append_char x07 (Socket.fresh 100))
     = Socket.outgoing_payload (Socket.fresh 100) ++ [x07].
Proof.
  destruct (append_aligned_extends_payload echo_payload x07 (Socket.fresh 100)
              (wf_fresh 100) eq_refl) as [H1 H2].
  split; [apply H1 | apply H2]; reflexivity.
Defined.

(** X20: when the size of the pending message is not a multiple of 4, the
    operators do not append behind the payload: the new bytes are pushed
    behind the alignment padding.  [<<] of a character then increases
    [output_size] by one but leaves [m_outgoing_data] unchanged, so the
    character is lost and the new last payload byte is the old padding
    byte; [<<] of a vector likewise leaves the old padding byte in place
    of its first byte. *)
Theorem append_unaligned_misplaces (data : list byte) (ch : byte)
    (s : IccomSocket) :
  Socket.wf s ->
  Socket.output_size s mod 4 <> 0 ->
  (Socket.output_size (Socket.append_char ch s) = Socket.output_size s + 1
   /\ m_outgoing_data (Socket.append_char ch s) = m_outgoing_data s)
  /\ (data <> [] ->
      Socket.output_size s + vec_size data < iccom_get_max_payload_size ->
      Socket.output_size (Socket.append data s)
      = Socket.output_size s + vec_size data
      /\ firstn (Z.to_nat (Socket.output_size s + 1))
                (Socket.outgoing_payload (Socket.append data s))
         = firstn (Z.to_nat (Socket.output_size s + 1))
                  (skipn (Z.to_nat NLMSG_HDRLEN) (m_outgoing_data s))).
Proof.
  intros Hwf Ha. unfold Socket.output_size in *.
  pose proof Hwf as [Hn Hs].
  assert (Hlt : m_outgoing_payload_size s < iccom_get_max_payload_size).
  { rewrite max_payload_eq in *.
    destruct (Z.eq_dec (m_outgoing_payload_size s) 4096) as [E | Hne]; [| lia].
    rewrite E in Ha. exfalso. apply Ha. reflexivity. }
  destruct (NLMSG_SPACE_unaligned (m_outgoing_payload_size s) ltac:(lia) Ha)
    as [Heq Hpad].
  split.
  - rewrite append_char_data by assumption.
    cbn [Socket.set_outgoing m_outgoing_payload_size m_outgoing_data].
    split; [reflexivity |].
    rewrite Heq, <- Hs. unfold vec_resize, vec_size. rewrite Nat2Z.id.
    rewrite firstn_app, firstn_all, Nat.sub_diag. cbn [firstn].
    rewrite length_app. cbn [length].
    replace (length (m_outgoing_data s) - (length (m_outgoing_data s) + 1))%nat
      with 0%nat by lia.
    cbn [repeat]. rewrite !app_nil_r. reflexivity.
  - intros Hne Hfit. rewrite append_data by assumption.
    cbn [Socket.set_outgoing m_outgoing_payload_size m_outgoing_data].
    split; [reflexivity |].
    unfold Socket.outgoing_payload.
    cbn [Socket.set_outgoing m_outgoing_payload_size m_outgoing_data].
    change (Z.to_nat NLMSG_HDRLEN) with 16%nat.
    pose proof (vec_size_nonneg data) as Hdn.
    assert (Hd1 : 1 <= vec_size data).
    { destruct data; [contradiction | unfold vec_size; cbn [length]; lia]. }
    rewrite firstn_firstn.
    replace (Init.Nat.min (Z.to_nat (m_outgoing_payload_size s + 1))
               (Z.to_nat (m_outgoing_payload_size s + vec_size data)))
      with (Z.to_nat (m_outgoing_payload_size s + 1)) by lia.
    set (S' := NLMSG_SPACE (m_outgoing_payload_size s + vec_size data)).
    assert (Hmono : NLMSG_SPACE (m_outgoing_payload_size s) <= S').
    { subst S'. rewrite !NLMSG_SPACE_small by (rewrite max_payload_eq in *; lia).
      assert ((m_outgoing_payload_size s + 19) / 4
              <= (m_outgoing_payload_size s + vec_size data + 19) / 4)
        by (apply Z.div_le_mono; lia).
      lia. }
    assert (Hpre : exists t, vec_resize S' (m_outgoing_data s ++ data)
                             = m_outgoing_data s ++ t).
    { unfold vec_resize. rewrite firstn_app.
      rewrite firstn_all2 by (unfold vec_size in Hs; lia).
      rewrite <- app_assoc. eexists. reflexivity. }
    destruct Hpre as [t Ht]. rewrite Ht.
    rewrite skipn_app, firstn_app.
    replace (Z.to_nat (m_outgoing_payload_size s + 1)
             - length (skipn 16 (m_outgoing_data s)))%nat with 0%nat
      by (rewrite length_skipn; unfold vec_size in Hs; lia).
    cbn [firstn]. apply app_nil_r.
Qed.

Lemma append_unaligned_misplaces_witness :
  (Socket.output_size (Socket.append_char x07 echo_socket)
   = Socket.output_size echo_socket + 1
   /\ m_outgoing_data (Socket.append_char x07 echo_socket)
      = m_outgoing_data echo_socket)
  /\ Socket.output_size (Socket.append [x07] echo_socket)
     = Socket.output_size echo_socket + vec_size [x07].
Proof.
  assert (Hwf : Socket.wf echo_socket) by (apply wf_append, wf_open, wf_fresh).
  assert (Ha : Socket.output_size echo_socket mod 4 <> 0)
    by (vm_compute; discriminate).
  destruct (append_unaligned_misplaces [x07] x07 echo_socket Hwf Ha) as [H1 H2].
  split; [exact H1 |].
  apply H2; [discriminate | reflexivity].
Defined.

(** ** IccomSocket: sending what was appended, reading what was received *)

(** X21: on a socket with no pending message, appending 1 to 4095 bytes
    and calling [send] writes exactly one frame to the socket descriptor:
    the header with the length field, the appended bytes and zero padding
    ([wire_frame]); when [write] takes the whole frame, [send] returns 0
    and, with the default reset, the socket has no pending message again. *)
Theorem append_then_send_writes_frame (data : list byte) (s : IccomSocket) :
  Socket.wf s ->
  Socket.output_size s = 0 ->
  0 < vec_size data < iccom_get_max_payload_size ->
  let r := Socket.send (WriteDone (NLMSG_SPACE (vec_size data))) true
                       (Socket.append data s) in
  cr_ret r = 0
  /\ cr_trace r = [SysWrite (m_sock_fd s) (wire_frame data)]
  /\ Socket.output_size (cr_self r) = 0
  /\ Socket.wf (cr_self r).
Proof.
  intros Hwf H0 Hd r. unfold Socket.output_size in *.
  pose proof max_payload_eq as Hmax.
  pose proof Hwf as [Hn Hs]. rewrite H0 in Hs. rewrite NLMSG_SPACE_0 in Hs.
  pose proof (NLMSG_SPACE_payload (vec_size data) ltac:(lia)) as Hsp.
  assert (Hwa : Socket.wf (Socket.append data s)) by (apply wf_append; exact Hwf).
  assert (Ea : Socket.append data s
               = Socket.set_outgoing
                   (m_outgoing_data s ++ data
                    ++ repeat x00 (Z.to_nat (NLMSG_SPACE (vec_size data)
                                             - NLMSG_LENGTH (vec_size data))))
                   (vec_size data) s).
  { rewrite append_data by (try assumption; lia).
    rewrite H0. cbn [Z.add].
    rewrite vec_resize_grow by (rewrite vec_size_app; lia).
    rewrite <- app_assoc. rewrite vec_size_app, Hs.
    rewrite NLMSG_LENGTH_small by lia.
    replace (NLMSG_SPACE (vec_size data) - (16 + vec_size data))
      with (NLMSG_SPACE (vec_size data) - (vec_size data + 16)) by lia.
    reflexivity. }
  assert (Hps : m_outgoing_payload_size (Socket.append data s) = vec_size data)
    by (rewrite Ea; reflexivity).
  assert (Hfd : m_sock_fd (Socket.append data s) = m_sock_fd s)
    by (rewrite Ea; reflexivity).
  assert (Hframe : nlmsghdr_bytes (vec_size data)
                   ++ skipn 16 (m_outgoing_data (Socket.append data s))
                   = wire_frame data).
  { rewrite Ea. cbn [Socket.set_outgoing m_outgoing_data].
    unfold wire_frame, send_buffer.
    assert (H16 : length (m_outgoing_data s) = 16%nat)
      by (unfold vec_size in Hs; lia).
    rewrite <- H16 at 1. rewrite skipn_app, skipn_all, Nat.sub_diag.
    reflexivity. }
  subst r. rewrite send_nonempty by (try exact Hwa; rewrite Hps; lia).
  cbv zeta. destruct Hwa as [_ Hsa]. rewrite Hps in Hsa.
  rewrite Hps, Hfd, Hsa, Hframe, Z.eqb_refl.
  cbn [Z.ltb Z.compare cr_ret cr_trace cr_self].
  split; [reflexivity |]. split; [reflexivity |].
  split; [reflexivity |]. apply wf_reset_output.
Qed.

Lemma append_then_send_writes_frame_witness :
  let s := snd (Socket.open 3 (Socket.fresh 100)) in
  let r := Socket.send (WriteDone (NLMSG_SPACE (vec_size echo_payload))) true
                       (Socket.append echo_payload s) in
  cr_ret r = 0
  /\ cr_trace r = [SysWrite (m_sock_fd s) (wire_frame echo_payload)]
  /\ Socket.output_size (cr_self r) = 0
  /\ Socket.wf (cr_self r).
Proof.
  apply (append_then_send_writes_frame echo_payload
           (snd (Socket.open 3 (Socket.fresh 100)))).
  - apply wf_open, wf_fresh.
  - reflexivity.
  - vm_compute. split; reflexivity.
Defined.

(** X22: whenever [receive] returns 0 or an error, whatever the cause
    (timeout, closed connection, read error, truncated or inconsistent
    frame, frame without payload), the incoming buffer is empty afterwards
    and [input_size] is 0. *)
Theorem receive_failure_clears_input (rd : read_outcome) (s : IccomSocket) :
  let r := Socket.receive rd s in
  cr_ret r <= 0 ->
  m_incoming_data (cr_self r) = [] /\ Socket.input_size (cr_self r) = 0.
Proof.
  intros r. subst r. unfold Socket.receive. cbv zeta.
  destruct (Z.leb_spec (rr_ret (iccom_receive_data_nocopy rd (m_sock_fd s)
                                  (vec_resize (NLMSG_SPACE iccom_get_max_payload_size)
                                              (m_incoming_data s))
                                  (vec_size (vec_resize
                                               (NLMSG_SPACE iccom_get_max_payload_size)
                                               (m_incoming_data s)))
                                  (Some 0))) 0) as [Hle | Hgt].
  - intros _. split; reflexivity.
  - destruct (rr_data_offset _) as [off |].
    + destruct (negb (off =? NLMSG_LENGTH 0)).
      * intros _. split; reflexivity.
      * cbn [cr_ret]. intros H. lia.
    + intros _. split; reflexivity.
Qed.

Lemma receive_failure_clears_input_witness :
  let r := Socket.receive (ReadFailed Errno.EPIPE) echo_socket in
  cr_ret r <= 0
  /\ m_incoming_data (cr_self r) = [] /\ Socket.input_size (cr_self r) = 0.
Proof.
  assert (H : cr_ret (Socket.receive (ReadFailed Errno.EPIPE) echo_socket) <= 0)
    by (vm_compute; discriminate).
  split; [exact H |].
  exact (receive_failure_clears_input (ReadFailed Errno.EPIPE) echo_socket H).
Defined.

Section ReceiveFrame.

Import Socket.

(** [receive] on a frame for the payload [p]. *)
Lemma receive_wire_frame (p : list byte) (s : IccomSocket) :
  0 < vec_size p <= iccom_get_max_payload_size ->
  receive (ReadDone (wire_frame p)) s
  = mk_call_result (vec_size p)
      (set_incoming (nlmsghdr_bytes (vec_size p) ++ p) s)
      [SysRead (m_sock_fd s) 4112].
Proof.
  intros Hp. pose proof max_payload_eq as Hmeq.
  pose proof (NLMSG_SPACE_payload (vec_size p) ltac:(lia)) as Hsp.
  pose proof (NLMSG_SPACE_payload_max (vec_size p) ltac:(lia)) as Hmax.
  pose proof (wire_frame_size p ltac:(lia)) as Hsz.
  pose proof (wire_frame_nlmsg_len p ltac:(lia)) as Hlen.
  rewrite receive_frame.
  2:{ rewrite Hsz. unfold sizeof_nlmsghdr. lia. }
  2:{ rewrite Hlen. exact Hsz. }
  2:{ rewrite Hlen, to_int_small by (rewrite max_payload_eq in Hp; lia). lia. }
  cbv zeta. rewrite Hlen.
  set (buf := vec_resize (NLMSG_SPACE iccom_get_max_payload_size)
                         (m_incoming_data s)).
  assert (Hres : vec_resize (NLMSG_LENGTH (vec_size p))
                            (wire_frame p ++ skipn (length (wire_frame p)) buf)
                 = nlmsghdr_bytes (vec_size p) ++ p).
  { rewrite NLMSG_LENGTH_small by lia.
    rewrite vec_resize_firstn
      by (rewrite vec_size_app, Hsz;
          pose proof (vec_size_nonneg (skipn (length (wire_frame p)) buf)); lia).
    unfold wire_frame, send_buffer.
    rewrite <- !app_assoc.
    rewrite (app_assoc (nlmsghdr_bytes (vec_size p)) p).
    assert (Hl : length (nlmsghdr_bytes (vec_size p) ++ p)
                 = Z.to_nat (vec_size p + 16)).
    { rewrite length_app, nlmsghdr_bytes_length. unfold vec_size. lia. }
    rewrite <- Hl. rewrite firstn_app, firstn_all, Nat.sub_diag.
    cbn [firstn]. apply app_nil_r. }
  rewrite Hres. reflexivity.
Qed.

(** [input_size] after such a receive: the payload size less the header
    size, in [unsigned int]. *)
Lemma input_size_after_receive (p : list byte) (s : IccomSocket) :
  0 < vec_size p <= iccom_get_max_payload_size ->
  input_size (set_incoming (nlmsghdr_bytes (vec_size p) ++ p) s)
  = (vec_size p - 16) mod 2 ^ 32.
Proof.
  intros Hp. pose proof max_payload_eq as Hmeq.
  unfold input_size. cbn [set_incoming m_incoming_data].
  rewrite nlmsg_len_header by lia.
  rewrite vec_size_app. unfold vec_size at 1.
  rewrite nlmsghdr_bytes_length, NLMSG_SPACE_0.
  replace (Z.of_nat 16 + vec_size p >=? 16) with true
    by (symmetry; rewrite Z.geb_leb; apply Z.leb_le; lia).
  reflexivity.
Qed.

(** The stored message: the byte of [p] with index [i] sits at [i + 16]. *)
Lemma incoming_nth_after_receive (p : list byte) (s : IccomSocket) (i : Z) :
  0 <= i ->
  nth_error (m_incoming_data (set_incoming (nlmsghdr_bytes (vec_size p) ++ p) s))
            (Z.to_nat (i + 16))
  = nth_error p (Z.to_nat i).
Proof.
  intros Hi. cbn [set_incoming m_incoming_data].
  rewrite nth_error_app2 by (rewrite nlmsghdr_bytes_length; lia).
  rewrite nlmsghdr_bytes_length. f_equal. lia.
Qed.

End ReceiveFrame.

(** ** The debug print of [receive] *)

Section ReceiveDebug.

Import SocketDbg.

Lemma receive_debug_print_off (assertions : bool) (rd : read_outcome)
    (s : IccomSocket) :
  m_dbg s = false -> receive_debug_print assertions rd s = PrintDone.
Proof. intros H. unfold receive_debug_print. rewrite H. reflexivity. Qed.

(** With debug printing on, the receive of a payload of 1 to 15 bytes
    dumps [input_size()] bytes, about 2^32, from a vector of less than 32:
    the print reads beyond the vector, in a build with assertions too. *)
Lemma receive_debug_print_short_payload (assertions : bool) (p : list byte)
    (s : IccomSocket) :
  m_dbg s = true -> 0 < vec_size p < 16 ->
  receive_debug_print assertions (ReadDone (wire_frame p)) s = PrintOutOfBounds.
Proof.
  intros Hd Hp. pose proof max_payload_eq as Hmeq.
  unfold receive_debug_print. cbv zeta.
  rewrite receive_wire_frame by lia. cbn [cr_ret cr_self]. rewrite Hd.
  replace (0 <? vec_size p) with true by (symmetry; apply Z.ltb_lt; lia).
  cbn [andb]. unfold print_channel_data. cbv zeta.
  rewrite input_size_after_receive by lia.
  rewrite <- (Z_mod_plus_full (vec_size p - 16) 1 (2 ^ 32)).
  rewrite Z.mod_small by lia.
  set (size := vec_size p - 16 + 1 * 2 ^ 32).
  assert (Hsize : size = vec_size p - 16 + 2 ^ 32) by (subst size; lia).
  replace (size =? 0) with false by (symmetry; apply Z.eqb_neq; lia).
  cbn [Socket.set_incoming m_incoming_data].
  assert (Hv : vec_size (nlmsghdr_bytes (vec_size p) ++ p) = 16 + vec_size p).
  { rewrite vec_size_app. unfold vec_size at 1.
    rewrite nlmsghdr_bytes_length. lia. }
  rewrite Hv.
  assert (Hsp : NLMSG_SPACE size <= 16 + vec_size p).
  { pose proof (required_buffer_size_wrapped size ltac:(lia)) as Hw.
    unfold iccom_get_required_buffer_size in Hw. rewrite Hw.
    pose proof (Z.mul_div_le (size + 19 - 2 ^ 32) 4 ltac:(lia)). lia. }
  replace (16 + vec_size p >=? NLMSG_SPACE size) with true
    by (symmetry; rewrite Z.geb_leb; apply Z.leb_le; exact Hsp).
  rewrite andb_false_r.
  unfold print_channel_data_raw. rewrite Hv.
  replace (size =? 0) with false by (symmetry; apply Z.eqb_neq; lia).
  replace (NLMSG_HDRLEN + size <=? 16 + vec_size p) with false
    by (symmetry; apply Z.leb_gt; unfold NLMSG_HDRLEN; lia).
  reflexivity.
Qed.

(** From 16 bytes on the dump is too short by 16 bytes but stays inside
    the vector. *)
Lemma receive_debug_print_long_payload (assertions : bool) (p : list byte)
    (s : IccomSocket) :
  16 <= vec_size p <= iccom_get_max_payload_size ->
  receive_debug_print assertions (ReadDone (wire_frame p)) s = PrintDone.
Proof.
  intros Hp. pose proof max_payload_eq as Hmeq.
  unfold receive_debug_print. cbv zeta.
  rewrite receive_wire_frame by lia. cbn [cr_ret cr_self].
  destruct (m_dbg s && (0 <? vec_size p)); [| reflexivity].
  unfold print_channel_data. cbv zeta.
  rewrite input_size_after_receive by lia.
  rewrite Z.mod_small by lia.
  destruct (Z.eqb_spec (vec_size p - 16) 0) as [E | Hne]; [reflexivity |].
  cbn [Socket.set_incoming m_incoming_data].
  assert (Hv : vec_size (nlmsghdr_bytes (vec_size p) ++ p) = 16 + vec_size p).
  { rewrite vec_size_app. unfold vec_size at 1.
    rewrite nlmsghdr_bytes_length. lia. }
  rewrite Hv.
  assert (Hsp : NLMSG_SPACE (vec_size p - 16) <= 16 + vec_size p).
  { rewrite NLMSG_SPACE_small by lia.
    pose proof (Z.mul_div_le (vec_size p - 16 + 19) 4 ltac:(lia)). lia. }
  replace (16 + vec_size p >=? NLMSG_SPACE (vec_size p - 16)) with true
    by (symmetry; rewrite Z.geb_leb; apply Z.leb_le; exact Hsp).
  rewrite andb_false_r.
  unfold print_channel_data_raw. rewrite Hv.
  destruct (vec_size p - 16 =? 0); [reflexivity |].
  replace (NLMSG_HDRLEN + (vec_size p - 16) <=? 16 + vec_size p) with true
    by (symmetry; apply Z.leb_le; unfold NLMSG_HDRLEN; lia).
  reflexivity.
Qed.

(** Where [Socket.index] yields a byte, so does [operator_index], with
    assertions or without. *)
Lemma index_operator_index (assertions : bool) (i : Z) (b : byte)
    (s : IccomSocket) :
  i < 2 ^ 64 - 16 ->
  Socket.index i s = Some b -> operator_index assertions i s = IndexByte b.
Proof.
  intros Hi H. unfold Socket.index in H. unfold operator_index.
  destruct ((0 <=? i) && (i <? Socket.input_size s)) eqn:E; [| discriminate].
  rewrite andb_false_r.
  apply andb_true_iff in E. destruct E as [E0 _]. apply Z.leb_le in E0.
  rewrite NLMSG_LENGTH_0 in *.
  unfold C.to_size, C.size_modulus. rewrite Z.mod_small by lia.
  rewrite H. reflexivity.
Qed.

End ReceiveDebug.

(** X23: with debug printing off, when [receive] reads the frame of a
    payload [p] of 1 to [iccom_get_max_payload_size] bytes, it returns the
    size of [p] after a single [read] of up to 4112 bytes, and the incoming
    buffer is cut to the header followed by exactly the bytes of [p]: the
    alignment padding is dropped and the outgoing message is untouched. *)
Theorem receive_stores_header_and_payload (p : list byte) (s : IccomSocket) :
  0 < vec_size p <= iccom_get_max_payload_size ->
  m_dbg s = false ->
  let r := Socket.receive (ReadDone (wire_frame p)) s in
  cr_ret r = vec_size p
  /\ cr_trace r = [SysRead (m_sock_fd s) 4112]
  /\ m_incoming_data (cr_self r) = nlmsghdr_bytes (vec_size p) ++ p
  /\ vec_size (m_incoming_data (cr_self r)) = NLMSG_LENGTH (vec_size p)
  /\ skipn (Z.to_nat iccom_get_data_payload_offset) (m_incoming_data (cr_self r)) = p
  /\ m_outgoing_data (cr_self r) = m_outgoing_data s
  /\ Socket.output_size (cr_self r) = Socket.output_size s.
Proof.
  intros Hp _ r. subst r. pose proof max_payload_eq as Hmeq.
  rewrite receive_wire_frame by assumption.
  cbn [cr_ret cr_trace cr_self Socket.set_incoming m_incoming_data
       m_outgoing_data].
  split; [reflexivity |]. split; [reflexivity |]. split; [reflexivity |].
  split; [| split; [| split; reflexivity]].
  - rewrite vec_size_app, NLMSG_LENGTH_small by lia.
    unfold vec_size at 1. rewrite nlmsghdr_bytes_length. lia.
  - change (Z.to_nat iccom_get_data_payload_offset)
      with (length (nlmsghdr_bytes (vec_size p))).
    rewrite skipn_app, skipn_all, Nat.sub_diag. reflexivity.
Qed.

Lemma receive_stores_header_and_payload_witness :
  m_dbg echo_socket = false
  /\ let r := Socket.receive (ReadDone (wire_frame echo_payload)) echo_socket in
     cr_ret r = vec_size echo_payload
     /\ cr_trace r = [SysRead (m_sock_fd echo_socket) 4112]
     /\ m_incoming_data (cr_self r)
        = nlmsghdr_bytes (vec_size echo_payload) ++ echo_payload
     /\ vec_size (m_incoming_data (cr_self r)) = NLMSG_LENGTH (vec_size echo_payload)
     /\ skipn (Z.to_nat iccom_get_data_payload_offset) (m_incoming_data (cr_self r))
        = echo_payload
     /\ m_outgoing_data (cr_self r) = m_outgoing_data echo_socket
     /\ Socket.output_size (cr_self r) = Socket.output_size echo_socket.
Proof.
  split; [reflexivity |].
  apply (receive_stores_header_and_payload echo_payload echo_socket).
  - vm_compute. split; [reflexivity | discriminate].
  - reflexivity.
Defined.

(** X24: [operator[]] after [receive], with debug printing off, has read
    the frame of a payload [p].  The bytes of [p] are stored at their
    index, but the assertion of [operator[]] compares the index with
    [input_size], which is the size of [p] less 16 in [unsigned int].
    Without assertions every index below the size of [p] yields the byte of
    [p].  With assertions it does so for a payload shorter than 16 bytes;
    for a longer payload only the indices below [size - 16] do, and the
    assertion fails for the last 16 bytes and beyond.  An index from the
    size of [p] on is a read beyond the vector: always without assertions,
    and with them when the payload is shorter than 16 bytes, where the
    assertion lets every index below 2^32 - 16 + size pass. *)
Theorem operator_index_after_receive (assertions : bool) (p : list byte)
    (s : IccomSocket) :
  0 < vec_size p <= iccom_get_max_payload_size ->
  m_dbg s = false ->
  let s' := cr_self (Socket.receive (ReadDone (wire_frame p)) s) in
  (forall i b,
      0 <= i -> nth_error p (Z.to_nat i) = Some b ->
      assertions = false \/ vec_size p < 16 \/ i < vec_size p - 16 ->
      SocketDbg.operator_index assertions i s' = SocketDbg.IndexByte b)
  /\ (forall i,
         16 <= vec_size p -> vec_size p - 16 <= i ->
         SocketDbg.operator_index true i s' = SocketDbg.IndexAssertFailed)
  /\ (forall i,
         vec_size p <= i < 2 ^ 64 - 16 ->
         assertions = false
         \/ (vec_size p < 16 /\ i < 2 ^ 32 - 16 + vec_size p) ->
         SocketDbg.operator_index assertions i s' = SocketDbg.IndexOutOfBounds).
Proof.
  intros Hp _ s'. subst s'. pose proof max_payload_eq as Hmeq.
  rewrite receive_wire_frame by assumption. cbn [cr_self].
  pose proof (input_size_after_receive p s Hp) as Hin.
  pose proof (incoming_nth_after_receive p s) as Hnth.
  set (s' := Socket.set_incoming (nlmsghdr_bytes (vec_size p) ++ p) s) in *.
  assert (Hshort : vec_size p < 16 ->
                   Socket.input_size s' = 2 ^ 32 - 16 + vec_size p).
  { intros Hs. rewrite Hin.
    rewrite <- (Z_mod_plus_full (vec_size p - 16) 1 (2 ^ 32)).
    rewrite Z.mod_small by lia. lia. }
  assert (Hlong : 16 <= vec_size p -> Socket.input_size s' = vec_size p - 16).
  { intros Hl. rewrite Hin. apply Z.mod_small. lia. }
  assert (Hsum : forall i, 0 <= i < 2 ^ 64 - 16 ->
                           C.to_size (i + NLMSG_LENGTH 0) = i + 16).
  { intros i Hi. rewrite NLMSG_LENGTH_0. unfold C.to_size, C.size_modulus.
    apply Z.mod_small. lia. }
  split; [| split].
  - intros i b Hi Hb Hcase.
    assert (Hlt : i < vec_size p).
    { assert (Hn : (Z.to_nat i < length p)%nat)
        by (apply nth_error_Some; rewrite Hb; discriminate).
      unfold vec_size. lia. }
    unfold SocketDbg.operator_index.
    assert (Hpass : assertions
                    && negb ((0 <=? i) && (i <? Socket.input_size s')) = false).
    { destruct assertions; [| reflexivity]. cbn [andb].
      replace (0 <=? i) with true by (symmetry; apply Z.leb_le; lia).
      replace (i <? Socket.input_size s') with true; [reflexivity |].
      symmetry. apply Z.ltb_lt.
      destruct Hcase as [Ha | [Hs | Hl]]; [discriminate | |].
      - rewrite Hshort by exact Hs. lia.
      - rewrite Hlong by lia. exact Hl. }
    rewrite Hpass, Hsum by lia. rewrite Hnth by lia. rewrite Hb. reflexivity.
  - intros i Hl Hi. unfold SocketDbg.operator_index.
    rewrite Hlong by exact Hl.
    replace (i <? vec_size p - 16) with false
      by (symmetry; apply Z.ltb_ge; lia).
    rewrite andb_false_r. reflexivity.
  - intros i Hi Hcase. unfold SocketDbg.operator_index.
    assert (Hpass : assertions
                    && negb ((0 <=? i) && (i <? Socket.input_size s')) = false).
    { destruct Hcase as [-> | [Hs Hlt]]; [reflexivity |].
      rewrite Hshort by exact Hs.
      replace (0 <=? i) with true by (symmetry; apply Z.leb_le; lia).
      replace (i <? 2 ^ 32 - 16 + vec_size p) with true
        by (symmetry; apply Z.ltb_lt; lia).
      apply andb_false_r. }
    rewrite Hpass, Hsum by lia. rewrite Hnth by lia.
    replace (nth_error p (Z.to_nat i)) with (@None byte); [reflexivity |].
    symmetry. apply nth_error_None. unfold vec_size in Hi. lia.
Qed.

Lemma operator_index_after_receive_witness :
  let s' := cr_self (Socket.receive (ReadDone (wire_frame echo_payload))
                                    echo_socket) in
  0 < vec_size echo_payload <= iccom_get_max_payload_size
  /\ m_dbg echo_socket = false
  /\ SocketDbg.operator_index true 4 s' = SocketDbg.IndexByte x04
  /\ SocketDbg.operator_index true 5 s' = SocketDbg.IndexOutOfBounds.
Proof.
  assert (Hp : 0 < vec_size echo_payload <= iccom_get_max_payload_size)
    by (vm_compute; split; [reflexivity | discriminate]).
  assert (Hd : m_dbg echo_socket = false) by reflexivity.
  destruct (operator_index_after_receive true echo_payload echo_socket Hp Hd)
    as (Hbyte & _ & Hout).
  split; [exact Hp |]. split; [exact Hd |]. split.
  - apply Hbyte; [discriminate | reflexivity |].
    right. left. reflexivity.
  - apply Hout.
    + vm_compute. split; [discriminate | reflexivity].
    + right. vm_compute. split; reflexivity.
Defined.

(** X25: [send] and [receive] keep to their own buffer: in every outcome
    [send] leaves the received message, the descriptor, the channel and
    the debug flag as they were, and [receive], with debug printing off,
    leaves the pending outgoing message, its size, the descriptor, the
    channel and the debug flag as they were.  Neither opens nor closes the
    socket. *)
Theorem send_receive_frame_conditions (wr : write_outcome) (reset : bool)
    (rd : read_outcome) (s : IccomSocket) :
  (let s' := cr_self (Socket.send wr reset s) in
   m_incoming_data s' = m_incoming_data s
   /\ Socket.input_size s' = Socket.input_size s
   /\ m_sock_fd s' = m_sock_fd s
   /\ m_channel s' = m_channel s
   /\ m_dbg s' = m_dbg s)
  /\ (m_dbg s = false ->
      let s' := cr_self (Socket.receive rd s) in
      m_outgoing_data s' = m_outgoing_data s
      /\ m_outgoing_payload_size s' = m_outgoing_payload_size s
      /\ Socket.outgoing_payload s' = Socket.outgoing_payload s
      /\ m_sock_fd s' = m_sock_fd s
      /\ m_channel s' = m_channel s
      /\ m_dbg s' = false).
Proof.
  split; [| intros Hd]; cbv zeta.
  - unfold Socket.send. destruct (_ =? 0); [repeat split |]. cbv zeta.
    destruct (sr_buf _); destruct (_ <? 0); try destruct reset; repeat split.
  - unfold Socket.receive. cbv zeta.
    destruct (_ <=? 0); [repeat split; exact Hd |].
    destruct (rr_data_offset _); [| repeat split; exact Hd].
    destruct (negb _); repeat split; exact Hd.
Qed.

Lemma send_receive_frame_conditions_witness :
  m_dbg echo_socket = false
  /\ (let s' := cr_self (Socket.send (WriteDone 24) true echo_socket) in
      m_incoming_data s' = m_incoming_data echo_socket
      /\ Socket.input_size s' = Socket.input_size echo_socket
      /\ m_sock_fd s' = m_sock_fd echo_socket
      /\ m_channel s' = m_channel echo_socket
      /\ m_dbg s' = m_dbg echo_socket)
  /\ (let s' := cr_self (Socket.receive (ReadDone (wire_frame echo_payload))
                                        echo_socket) in
      m_outgoing_data s' = m_outgoing_data echo_socket
      /\ m_outgoing_payload_size s' = m_outgoing_payload_size echo_socket
      /\ Socket.outgoing_payload s' = Socket.outgoing_payload echo_socket
      /\ m_sock_fd s' = m_sock_fd echo_socket
      /\ m_channel s' = m_channel echo_socket
      /\ m_dbg s' = false).
Proof.
  assert (Hd : m_dbg echo_socket = false) by reflexivity.
  destruct (send_receive_frame_conditions (WriteDone 24) true
              (ReadDone (wire_frame echo_payload)) echo_socket) as [Hs Hr].
  split; [exact Hd |]. split; [exact Hs | exact (Hr Hd)].
Defined.

(** X26: [iccom_send_data_nocopy] validates before it touches anything:
    it either makes no system call, and then the caller's buffer is
    untouched and the result is a negative error code, or it makes exactly
    one [write], on the given descriptor and of exactly [buf_size_bytes]
    bytes, and then the buffer was not NULL, the data size was between 1
    and the maximum, the buffer size was [NLMSG_SPACE] of it and the data
    offset was [NLMSG_LENGTH(0)]. *)
Theorem send_nocopy_validates_first (wr : write_outcome) (fd : Z)
    (buf : option (list byte)) (buf_size offset n : Z) :
  0 <= n ->
  (forall b, buf = Some b -> vec_size b = buf_size) ->
  let r := iccom_send_data_nocopy wr fd buf buf_size offset n in
  (sr_trace r = [] /\ sr_buf r = buf /\ sr_ret r < 0)
  \/ (exists b frame,
         buf = Some b
         /\ sr_trace r = [SysWrite fd frame]
         /\ vec_size frame = buf_size
         /\ 0 < n <= iccom_get_max_payload_size
         /\ buf_size = iccom_get_required_buffer_size n
         /\ offset = iccom_get_data_payload_offset).
Proof.
  intros Hn Hsz r. subst r. unfold iccom_send_data_nocopy.
  unfold iccom_get_required_buffer_size.
  change iccom_get_data_payload_offset with (NLMSG_LENGTH 0).
  destruct (Z.eqb_spec buf_size (NLMSG_SPACE n)) as [Es | Hs]; cbn [negb].
  2:{ left. repeat split. }
  destruct (Z.eqb_spec offset (NLMSG_LENGTH 0)) as [Eo | Ho]; cbn [negb].
  2:{ left. repeat split. }
  destruct (Z.gtb_spec n ICCOM_SOCKET_MAX_MESSAGE_SIZE_BYTES) as [Hbig | Hle].
  { left. repeat split. }
  destruct (Z.eqb_spec n 0) as [E0 | Hne0].
  { left. repeat split. }
  destruct buf as [b |].
  2:{ left. repeat split. }
  assert (Hnpos : 0 < n <= iccom_get_max_payload_size)
    by (unfold iccom_get_max_payload_size; lia).
  right. exists b.
  pose proof (Hsz b eq_refl) as Hb.
  pose proof (NLMSG_SPACE_payload n ltac:(lia)) as Hsp.
  assert (Hl : firstn (Z.to_nat buf_size)
                 (nlmsghdr_bytes n ++ skipn (Z.to_nat sizeof_nlmsghdr) b)
               = nlmsghdr_bytes n ++ skipn (Z.to_nat sizeof_nlmsghdr) b).
  { apply firstn_all2. change (Z.to_nat sizeof_nlmsghdr) with 16%nat.
    rewrite length_app, nlmsghdr_bytes_length, length_skipn.
    unfold vec_size in Hb. lia. }
  cbv zeta. rewrite Hl.
  exists (nlmsghdr_bytes n ++ skipn (Z.to_nat sizeof_nlmsghdr) b).
  split; [reflexivity |].
  split.
  { destruct wr as [e | k]; [reflexivity |].
    destruct (negb _); reflexivity. }
  split.
  { change (Z.to_nat sizeof_nlmsghdr) with 16%nat.
    rewrite header_rewrite_size by lia. exact Hb. }
  repeat split; try lia; assumption.
Qed.

Lemma send_nocopy_validates_first_witness :
  let r := iccom_send_data_nocopy (WriteDone 24) 3
             (Some (send_buffer (repeat xff 16) echo_payload)) 24 16 5 in
  (sr_trace r = [] /\ sr_buf r = Some (send_buffer (repeat xff 16) echo_payload)
   /\ sr_ret r < 0)
  \/ (exists b frame,
         Some (send_buffer (repeat xff 16) echo_payload) = Some b
         /\ sr_trace r = [SysWrite 3 frame]
         /\ vec_size frame = 24
         /\ 0 < 5 <= iccom_get_max_payload_size
         /\ 24 = iccom_get_required_buffer_size 5
         /\ 16 = iccom_get_data_payload_offset).
Proof.
  apply (send_nocopy_validates_first (WriteDone 24) 3
           (Some (send_buffer (repeat xff 16) echo_payload)) 24 16 5).
  - vm_compute. discriminate.
  - intros b E. injection E as <-. reflexivity.
Defined.

(** ** The Python adapter *)

(** X27: round trip through the Python adapter: [iccom.send] of a
    bytearray of 1 to [iccom_get_max_payload_size] bytes returns None when
    [write] takes the frame, and [iccom.receive] on that frame returns a
    bytearray with exactly the bytes sent, whatever the local buffer and
    the heap block held before. *)
Theorem python_send_receive_roundtrip (block d buff : list byte) (fd_tx fd_rx : Z) :
  0 < vec_size d <= iccom_get_max_payload_size ->
  vec_size block = NLMSG_SPACE (vec_size d) ->
  vec_size buff = iccom_get_required_buffer_size iccom_get_max_payload_size ->
  let frame := copied_frame block d in
  iccom_send_py (MallocDone block) (WriteDone (vec_size frame)) fd_tx d
  = (Py_None,
     [EvMalloc (NLMSG_SPACE (vec_size d)) true;
      EvIo (SysWrite fd_tx frame); EvFree])
  /\ iccom_receive_py (ReadDone frame) buff fd_rx
     = (Py_ByteArray d, [SysRead fd_rx 4112]).
Proof.
  intros Hd Hb Hbuff frame. subst frame.
  pose proof max_payload_eq as Hmeq.
  pose proof (copied_frame_size block d ltac:(lia) Hb) as Hsz.
  pose proof (NLMSG_SPACE_payload_max (vec_size d) ltac:(lia)) as Hmax.
  rewrite required_buffer_size_max in Hbuff.
  split.
  - unfold iccom_send_py.
    replace (vec_size d <? 0) with false by (symmetry; apply Z.ltb_ge; lia).
    cbv zeta. rewrite iccom_send_data_valid by assumption.
    rewrite Hsz, Z.eqb_refl. reflexivity.
  - unfold iccom_receive_py. cbv zeta.
    change (iccom_get_required_buffer_size (C.to_uint iccom_get_max_payload_size))
      with 4112.
    rewrite <- Hbuff.
    destruct (send_data_receive_pure_frame block d buff fd_rx Hd Hb ltac:(lia))
      as (Hret & Hfirst & Htrace).
    rewrite Hret, Htrace.
    replace (vec_size d =? 0) with false by (symmetry; apply Z.eqb_neq; lia).
    replace (vec_size d >? 0) with true
      by (symmetry; rewrite Z.gtb_ltb; apply Z.ltb_lt; lia).
    unfold vec_size at 1. rewrite Nat2Z.id, Hfirst. reflexivity.
Qed.

Lemma python_send_receive_roundtrip_witness :
  let block := repeat xff 24 in
  let frame := copied_frame block echo_payload in
  iccom_send_py (MallocDone block) (WriteDone (vec_size frame)) 3 echo_payload
  = (Py_None,
     [EvMalloc (NLMSG_SPACE (vec_size echo_payload)) true;
      EvIo (SysWrite 3 frame); EvFree])
  /\ iccom_receive_py (ReadDone frame) (repeat xff 4112) 4
     = (Py_ByteArray echo_payload, [SysRead 4 4112]).
Proof.
  apply (python_send_receive_roundtrip (repeat xff 24) echo_payload
           (repeat xff 4112) 3 4).
  - vm_compute. split; [reflexivity | discriminate].
  - reflexivity.
  - vm_compute. reflexivity.
Defined.

(** X28: [iccom.send] raises ValueError, without allocating or writing
    anything, exactly for an empty bytearray and for one longer than
    [iccom_get_max_payload_size]; for every other bytearray it asks
    [malloc] for the frame, and raises MemoryError when that fails. *)
Theorem python_send_rejects_sizes (mem : malloc_outcome) (wr : write_outcome)
    (fd : Z) (d : list byte) :
  (vec_size d = 0 \/ iccom_get_max_payload_size < vec_size d ->
   iccom_send_py mem wr fd d = (Py_Raise PyExc_ValueError, []))
  /\ (0 < vec_size d <= iccom_get_max_payload_size ->
      snd (iccom_send_py mem wr fd d) <> []
      /\ (mem = MallocFailed ->
          iccom_send_py mem wr fd d
          = (Py_Raise PyExc_MemoryError,
             [EvMalloc (NLMSG_SPACE (vec_size d)) false]))).
Proof.
  pose proof (vec_size_nonneg d) as Hnn. pose proof max_payload_eq as Hmeq.
  unfold iccom_send_py.
  replace (vec_size d <? 0) with false by (symmetry; apply Z.ltb_ge; lia).
  cbv zeta. unfold iccom_send_data.
  split.
  - intros [E | Hbig].
    + rewrite E. reflexivity.
    + replace (vec_size d >? ICCOM_SOCKET_MAX_MESSAGE_SIZE_BYTES) with true
        by (symmetry; rewrite Z.gtb_ltb; apply Z.ltb_lt;
            unfold iccom_get_max_payload_size in Hbig; lia).
      reflexivity.
  - intros Hd.
    replace (vec_size d >? ICCOM_SOCKET_MAX_MESSAGE_SIZE_BYTES) with false
      by (symmetry; rewrite Z.gtb_ltb; apply Z.ltb_ge;
          unfold iccom_get_max_payload_size in *; lia).
    replace (vec_size d <=? 0) with false by (symmetry; apply Z.leb_gt; lia).
    split.
    + destruct mem as [| block]; cbv zeta; cbn [fst snd].
      * discriminate.
      * repeat match goal with
               | |- context [if ?c then _ else _] => destruct c
               end; cbn [snd]; discriminate.
    + intros ->. reflexivity.
Qed.

Lemma python_send_rejects_sizes_witness :
  iccom_send_py MallocFailed (WriteDone 0) 3 [] = (Py_Raise PyExc_ValueError, [])
  /\ iccom_send_py MallocFailed (WriteDone 0) 3 echo_payload
     = (Py_Raise PyExc_MemoryError,
        [EvMalloc (NLMSG_SPACE (vec_size echo_payload)) false]).
Proof.
  destruct (python_send_rejects_sizes MallocFailed (WriteDone 0) 3 [])
    as [H1 _].
  destruct (python_send_rejects_sizes MallocFailed (WriteDone 0) 3 echo_payload)
    as [_ H2].
  split.
  - apply H1. left. reflexivity.
  - apply H2; [vm_compute; split; [reflexivity | discriminate] | reflexivity].
Defined.

Lemma iccom_send_data_frees_buffer_witness :
  let r := iccom_send_data (MallocDone (repeat xff 24)) (WriteFailed Errno.EPIPE)
             3 (Some echo_payload) 5 in
  live_blocks (snd r) = 0
  /\ fst (iccom_send_data MallocFailed (WriteDone 0) 3 (Some []) 0) < 0
  /\ snd (iccom_send_data MallocFailed (WriteDone 0) 3 (Some []) 0) = [].
Proof.
  split.
  - apply (iccom_send_data_frees_buffer (MallocDone (repeat xff 24))
             (WriteFailed Errno.EPIPE) 3 (Some echo_payload) 5).
  - apply (iccom_send_data_frees_buffer MallocFailed (WriteDone 0) 3 (Some []) 0).
    left. reflexivity.
Defined.

Lemma open_is_idempotent_witness :
  let r := SocketApi.open (GaiDone [Connected 5]) (Socket.fresh 100) in
  Socket.is_open (snd (fst r)) = true
  /\ forall gai', SocketApi.open gai' (snd (fst r)) = (fst (fst r), snd (fst r), []).
Proof.
  apply (open_is_idempotent (GaiDone [Connected 5]) (Socket.fresh 100)).
  vm_compute. discriminate.
Defined.
